(** * Zen Tasker: task-list state with persisted storage

    A shallow embedding of the to-do list code of the repository:

    - [storage.js]  (namespaced localStorage wrapper, [safeJSON]),
    - [filters.js]  ([Filters], [byFilter]),
    - [store.js]    ([Store]: minimal state management persisted through
                     [storage]),
    - [js/app.js]   (the single-file to-do list: [addTask], [deleteTask],
                     [toggleTaskCompleted]),
    - [ZenStorage]      (localStorage manager with an availability probe),
    - [ZenTaskManager]  (validated CRUD with rollback),
    - [ZenFilterManager] ([applySearch], [fuzzyMatch]).

    JavaScript values are a tagged union [JSValue]; objects are finite maps
    from property names to values.  Strings are sequences of code units in
    the Latin-1 range (one [ascii] per code unit).  Effects are explicit: a
    computation takes the world (the browser's localStorage, the module's
    variables) and returns an outcome, a value or a thrown exception,
    together with the world it leaves behind.  What the browser supplies
    (JSON, regular expressions, the clock, random draws, date formatting)
    enters as a parameter or as an explicit argument. *)

From stdpp Require Import gmap strings list fin_maps pretty.
From Stdlib Require Import Ascii.

#[local] Set Warnings "-register-all,-clear-no-such-hyp".

(** ** JavaScript values *)

Inductive JSValue :=
| JUndefined
| JNull
| JBool (b : bool)
| JNum (n : Z)                        (* integer-valued numbers only *)
| JStr (s : string)
| JArr (l : list JSValue)
| JObj (o : gmap string JSValue).

#[global] Instance JSValue_inhabited : Inhabited JSValue := populate JUndefined.

(** Property read [v.k].  Only objects carry the properties this code
    reads; every call site tests the receiver for truthiness first, so the
    TypeError of reading a property of null or undefined is not modelled. *)
Definition prop (v : JSValue) (k : string) : JSValue :=
  match v with
  | JObj o => default JUndefined (o !! k)
  | _ => JUndefined
  end.

(** ToBoolean. *)
Definition truthy (v : JSValue) : bool :=
  match v with
  | JUndefined | JNull => false
  | JBool b => b
  | JNum n => negb (n =? 0)%Z
  | JStr s => negb (bool_decide (s = ""))
  | JArr _ | JObj _ => true
  end.

Definition is_string (v : JSValue) : bool :=
  match v with JStr _ => true | _ => false end.

(** Strict equality [===].  Arrays and objects compare by reference; two
    values of the model never share a reference. *)
Definition strict_eq (a b : JSValue) : bool :=
  match a, b with
  | JUndefined, JUndefined => true
  | JNull, JNull => true
  | JBool x, JBool y => bool_decide (x = y)
  | JNum x, JNum y => bool_decide (x = y)
  | JStr x, JStr y => bool_decide (x = y)
  | _, _ => false
  end.

(** Object spread [{...v}]: the own enumerable properties of [v]. *)
Definition index_props (l : list JSValue) : gmap string JSValue :=
  list_to_map (imap (λ i x, (pretty i, x)) l).

Definition own_props (v : JSValue) : gmap string JSValue :=
  match v with
  | JObj o => o
  | JArr l => index_props l
  | JStr s => index_props ((λ c, JStr (String c "")) <$> String.list_ascii_of_string s)
  | _ => ∅
  end.

(** ** Strings *)

(** WhiteSpace and LineTerminator code units below 256, as used by
    [String.prototype.trim] and by the regular-expression class [\s]. *)
Definition is_ws (c : ascii) : bool :=
  match c with
  | "009" | "010" | "011" | "012" | "013" | " " | "160" => true
  | _ => false
  end%char.

(** LineTerminator code units: the ones [.] does not match. *)
Definition is_line_terminator (c : ascii) : bool :=
  match c with
  | "010" | "013" => true
  | _ => false
  end%char.

Fixpoint trimStart (s : string) : string :=
  match s with
  | String c s' => if is_ws c then trimStart s' else s
  | "" => ""
  end.

Definition trim (s : string) : string :=
  String.rev (trimStart (String.rev (trimStart s))).

Definition lower_char (c : ascii) : ascii :=
  let n := nat_of_ascii c in
  if ((65 <=? n) && (n <=? 90)) || ((192 <=? n) && (n <=? 222) && negb (n =? 215))
  then ascii_of_nat (n + 32) else c.

Fixpoint toLowerCase (s : string) : string :=
  match s with
  | String c s' => String (lower_char c) (toLowerCase s')
  | "" => ""
  end.

(** [text.includes(term)] *)
Fixpoint includes (text term : string) : bool :=
  String.prefix term text ||
  match text with
  | String _ text' => includes text' term
  | "" => false
  end.

(** [s.split(/\s+/)] *)
Fixpoint split_ws_go (cur : string) (in_ws : bool) (s : string) : list string :=
  match s with
  | "" => [String.rev cur]
  | String c s' =>
      if is_ws c
      then if in_ws then split_ws_go cur true s'
           else String.rev cur :: split_ws_go "" true s'
      else split_ws_go (String c cur) false s'
  end.

Definition split_ws (s : string) : list string := split_ws_go "" false s.

(** [s.replace(/\s+/g, ' ')] *)
Fixpoint collapse_ws_go (in_ws : bool) (s : string) : string :=
  match s with
  | "" => ""
  | String c s' =>
      if is_ws c
      then if in_ws then collapse_ws_go true s'
           else String " " (collapse_ws_go true s')
      else String c (collapse_ws_go false s')
  end.

Definition collapse_ws (s : string) : string := collapse_ws_go false s.

Fixpoint join (sep : string) (l : list string) : string :=
  match l with
  | [] => ""
  | [x] => x
  | x :: l' => x +:+ sep +:+ join sep l'
  end.

(** ** Computations: state and exceptions *)

Inductive Exn :=
| SecurityError
| QuotaExceededError
| SyntaxError
| TypeError.

Inductive Outcome (A : Type) :=
| Return (a : A)
| Throw (e : Exn).
Arguments Return {A} a.
Arguments Throw {A} e.

(** A computation over a world [W]: the world is threaded through, and a
    throw keeps the writes made before it. *)
Definition JS (W A : Type) : Type := W → Outcome A * W.

#[global] Instance JS_ret {W} : MRet (JS W) := λ A a w, (Return a, w).
#[global] Instance JS_bind {W} : MBind (JS W) := λ A B f m w,
  match m w with
  | (Return a, w') => f a w'
  | (Throw e, w') => (Throw e, w')
  end.

Definition throw {W A} (e : Exn) : JS W A := λ w, (Throw e, w).
Definition outcome {W A} (o : Outcome A) : JS W A := λ w, (o, w).

(** [try { m } catch (e) { h e }] *)
Definition try_catch {W A} (m : JS W A) (h : Exn → JS W A) : JS W A := λ w,
  match m w with
  | (Return a, w') => (Return a, w')
  | (Throw e, w') => h e w'
  end.

Definition gets {W A} (f : W → A) : JS W A := λ w, (Return (f w), w).
Definition modify {W} (f : W → W) : JS W () := λ w, (Return (), f w).

(** Run a computation on a component of the world. *)
Definition zoom {W V A} (proj : W → V) (inj : V → W → W) (m : JS V A) : JS W A :=
  λ w, let '(r, v') := m (proj w) in (r, inj v' w).

(** ** The browser's localStorage *)

Record LocalStorage := {
  ls_items : gmap string string;
  ls_enabled : bool;        (* false: every access throws SecurityError *)
  ls_quota : N;             (* capacity in code units, keys and values *)
}.

Definition ls_used (items : gmap string string) : N :=
  map_fold (λ k v n, N.of_nat (String.length k) + N.of_nat (String.length v) + n)%N
           0%N items.

Definition ls_with_items (items : gmap string string) (ls : LocalStorage) : LocalStorage :=
  {| ls_items := items; ls_enabled := ls_enabled ls; ls_quota := ls_quota ls |}.

Definition getItem (k : string) : JS LocalStorage (option string) := λ ls,
  if ls_enabled ls then (Return (ls_items ls !! k), ls)
  else (Throw SecurityError, ls).

Definition setItem (k v : string) : JS LocalStorage () := λ ls,
  if ls_enabled ls then
    let items := <[k := v]> (ls_items ls) in
    if (ls_used items <=? ls_quota ls)%N
    then (Return (), ls_with_items items ls)
    else (Throw QuotaExceededError, ls)
  else (Throw SecurityError, ls).

Definition removeItem (k : string) : JS LocalStorage () := λ ls,
  if ls_enabled ls then (Return (), ls_with_items (delete k (ls_items ls)) ls)
  else (Throw SecurityError, ls).

(** ** The platform's JSON

    [JSON_parse] is [None] where [JSON.parse] throws a SyntaxError. *)
Class JSON := {
  JSON_stringify : JSValue → string;
  JSON_parse : string → option JSValue;
}.

(** [JSON.parse(raw)] on a value read from storage: the argument is
    converted to a string first, so [null] is parsed as the text "null". *)
Definition parse_raw `{JSON} {W} (raw : option string) : JS W JSValue :=
  match JSON_parse (default "null" raw) with
  | Some v => mret v
  | None => throw SyntaxError
  end.

(** ** storage.js: namespaced wrapper around localStorage *)

Module storage.
Definition NAMESPACE : string := "zen-tasker".

Definition ns (key : string) : string := NAMESPACE +:+ ":" +:+ key.

Module safeJSON.
(** [try { return JSON.parse(raw); } catch { return fallback; }] *)
Definition parse `{JSON} {W} (raw : option string) (fallback : JSValue) : JS W JSValue :=
  try_catch (parse_raw raw) (λ _, mret fallback).

Definition stringify `{JSON} (val : JSValue) : string := JSON_stringify val.
End safeJSON.

(** [get(key, fallback = null)]: an omitted (undefined) fallback is null. *)
Definition get `{JSON} (key : string) (fallback : JSValue) : JS LocalStorage JSValue :=
  let fallback := match fallback with JUndefined => JNull | v => v end in
  raw ← getItem (ns key);
  safeJSON.parse raw fallback.

Definition set `{JSON} (key : string) (value : JSValue) : JS LocalStorage () :=
  setItem (ns key) (safeJSON.stringify value).

Definition remove (key : string) : JS LocalStorage () := removeItem (ns key).

Definition keys : JS LocalStorage (list string) := λ ls,
  if ls_enabled ls
  then (Return (filter (λ k, String.prefix (NAMESPACE +:+ ":") k = true)
                       (map_to_list (ls_items ls)).*1), ls)
  else (Throw SecurityError, ls).
End storage.

(** ** filters.js and store.js *)

Module Store.
(** The state has the type the source declares for it:
    [{ tasks: Array<{id:string,title:string,completed:boolean}>,
       filter: 'all'|'active'|'completed' }]. *)
Record Task := {
  task_id : string;
  task_title : string;
  task_completed : bool;
}.

Record State := {
  tasks : list Task;
  filter : string;
}.

Module Filters.
Definition All : string := "all".
Definition Active : string := "active".
Definition Completed : string := "completed".
End Filters.

Definition byFilter (filter : string) (task : Task) : bool :=
  if bool_decide (filter = Filters.Active) then negb (task_completed task)
  else if bool_decide (filter = Filters.Completed) then task_completed task
  else true.

Definition KEY : string := "state".

Definition initial : State := {| tasks := []; filter := Filters.All |}.

Definition task_to_js (t : Task) : JSValue :=
  JObj (<["id" := JStr (task_id t)]>
       (<["title" := JStr (task_title t)]>
       (<["completed" := JBool (task_completed t)]> ∅))).

Definition state_to_js (s : State) : JSValue :=
  JObj (<["tasks" := JArr (task_to_js <$> tasks s)]>
       (<["filter" := JStr (filter s)]> ∅)).

(** The module's variable [state] and the localStorage it persists to. *)
Record World := {
  state : State;
  ls : LocalStorage;
}.

Definition with_ls (l : LocalStorage) (w : World) : World :=
  {| state := state w; ls := l |}.
Definition with_tasks (ts : list Task) (w : World) : World :=
  {| state := {| tasks := ts; filter := filter (state w) |}; ls := ls w |}.
Definition with_filter (f : string) (w : World) : World :=
  {| state := {| tasks := tasks (state w); filter := f |}; ls := ls w |}.

Definition persist `{JSON} : JS World () :=
  s ← gets state;
  zoom ls with_ls (storage.set KEY (state_to_js s)).

Definition visible (w : World) : list Task :=
  base.filter (λ t, byFilter (filter (state w)) t = true) (tasks (state w)).

Record Stats := { total : nat; active : nat; completed : nat }.

Definition stats (w : World) : Stats :=
  let total := length (tasks (state w)) in
  let active := length (base.filter (λ t, task_completed t = false) (tasks (state w))) in
  {| total := total; active := active; completed := total - active |}.

(** [t.completed = !t.completed] on the first task with this id. *)
Fixpoint toggle_first (id : string) (ts : list Task) : option (list Task) :=
  match ts with
  | [] => None
  | t :: ts' =>
      if bool_decide (task_id t = id)
      then Some ({| task_id := task_id t; task_title := task_title t;
                    task_completed := negb (task_completed t) |} :: ts')
      else cons t <$> toggle_first id ts'
  end.

(** [add(title)]; [uid] is the value [crypto.randomUUID()] returns.
    The result is [None] where the source returns undefined. *)
Definition add `{JSON} (uid : string) (title : string) : JS World (option Task) :=
  let task := {| task_id := uid; task_title := trim title; task_completed := false |} in
  if bool_decide (task_title task = "") then mret None
  else
    modify (λ w, with_tasks (task :: tasks (state w)) w);;
    persist;;
    mret (Some task).

Definition toggle `{JSON} (id : string) : JS World () :=
  ts ← gets (λ w, tasks (state w));
  match toggle_first id ts with
  | Some ts' => modify (with_tasks ts');; persist
  | None => mret ()
  end.

Definition remove `{JSON} (id : string) : JS World () :=
  modify (λ w, with_tasks (base.filter (λ t, task_id t ≠ id) (tasks (state w))) w);;
  persist.

Definition clearCompleted `{JSON} : JS World () :=
  modify (λ w, with_tasks (base.filter (λ t, task_completed t = false) (tasks (state w))) w);;
  persist.

Definition setFilter `{JSON} (f : string) : JS World () :=
  modify (with_filter f);;
  persist.
End Store.

(** ** js/app.js: the single-file to-do list *)

Module App.
Record Task := {
  task_id : string;
  task_description : string;
  task_completed : bool;
}.

Definition STORAGE_KEY : string := "zenTaskerTasks".

Definition task_to_js (t : Task) : JSValue :=
  JObj (<["id" := JStr (task_id t)]>
       (<["description" := JStr (task_description t)]>
       (<["completed" := JBool (task_completed t)]> ∅))).

(** The variable [tasks], localStorage, and the messages shown by
    [alert].  Rendering to the DOM is not modelled. *)
Record World := {
  tasks : list Task;
  ls : LocalStorage;
  alerts : list string;
}.

Definition with_ls (l : LocalStorage) (w : World) : World :=
  {| tasks := tasks w; ls := l; alerts := alerts w |}.
Definition with_tasks (ts : list Task) (w : World) : World :=
  {| tasks := ts; ls := ls w; alerts := alerts w |}.

Definition alert (msg : string) : JS World () :=
  modify (λ w, {| tasks := tasks w; ls := ls w; alerts := alerts w ++ [msg] |}).

Definition saveTasks `{JSON} : JS World () :=
  ts ← gets tasks;
  zoom ls with_ls (setItem STORAGE_KEY (JSON_stringify (JArr (task_to_js <$> ts)))).

(** [`${Date.now()}-${Math.floor(Math.random() * 1000)}`] for the clock
    reading [now] and the draw [r] (0 ≤ r < 1000). *)
Definition make_id (now r : N) : string := pretty now +:+ "-" +:+ pretty r.

Definition addTask `{JSON} (now r : N) (description : string) : JS World () :=
  let descTrimmed := trim description in
  if bool_decide (descTrimmed = "")
  then alert "Masukkan deskripsi tugas sebelum menambah."
  else
    let newTask := {| task_id := make_id now r; task_description := descTrimmed;
                      task_completed := false |} in
    modify (λ w, with_tasks (tasks w ++ [newTask]) w);;
    saveTasks.

Definition deleteTask `{JSON} (taskId : string) : JS World () :=
  modify (λ w, with_tasks (base.filter (λ t, task_id t ≠ taskId) (tasks w)) w);;
  saveTasks.

Fixpoint toggle_first (id : string) (ts : list Task) : option (list Task) :=
  match ts with
  | [] => None
  | t :: ts' =>
      if bool_decide (task_id t = id)
      then Some ({| task_id := task_id t; task_description := task_description t;
                    task_completed := negb (task_completed t) |} :: ts')
      else cons t <$> toggle_first id ts'
  end.

Definition toggleTaskCompleted `{JSON} (taskId : string) : JS World () :=
  ts ← gets tasks;
  match toggle_first taskId ts with
  | Some ts' => modify (with_tasks ts');; saveTasks
  | None => mret ()
  end.
End App.

(** ** ZenStorage: localStorage operations with error handling *)

Module ZenStorage.
Record t := {
  storageKey : string;
  settingsKey : string;
  isStorageAvailable : bool;
}.

(** The body of the [try] in [checkStorageAvailability]: writes and
    immediately removes a probe key. *)
Definition probe : JS LocalStorage bool :=
  let test := "__storage_test__" in
  setItem test test;;
  removeItem test;;
  mret true.

Definition checkStorageAvailability : JS LocalStorage bool :=
  try_catch probe (λ _, mret false).

Definition constructor : JS LocalStorage t :=
  available ← checkStorageAvailability;
  mret {| storageKey := "zenTasker_tasks";
          settingsKey := "zenTasker_settings";
          isStorageAvailable := available |}.

(** [arr.filter(f)] where [arr] came out of [JSON.parse]: a TypeError
    unless it is an array. *)
Definition array_filter {W} (f : JSValue → bool) (arr : JSValue) : JS W (list JSValue) :=
  match arr with
  | JArr l => mret (filter (λ x, f x = true) l)
  | _ => throw TypeError
  end.

(** [task && typeof task.id === 'string' && typeof task.text === 'string'] *)
Definition loadable (task : JSValue) : bool :=
  truthy task && is_string (prop task "id") && is_string (prop task "text").

(** [task && task.id && task.text && typeof task.text === 'string'] *)
Definition savable (task : JSValue) : bool :=
  truthy task && truthy (prop task "id") && truthy (prop task "text")
  && is_string (prop task "text").

Definition getTasks `{JSON} (this : t) : JS LocalStorage (list JSValue) :=
  if negb (isStorageAvailable this) then mret []
  else
    try_catch
      (tasksJson ← getItem (storageKey this);
       tasks ← match tasksJson with
               | Some (String _ _ as raw) => parse_raw (Some raw)
               | _ => mret (JArr [])
               end;
       array_filter loadable tasks)
      (λ _, mret []).

Definition saveTasks `{JSON} (this : t) (tasks : list JSValue) : JS LocalStorage bool :=
  if negb (isStorageAvailable this) then mret false
  else
    try_catch
      (let validTasks := filter (λ task, savable task = true) tasks in
       setItem (storageKey this) (JSON_stringify (JArr validTasks));;
       mret true)
      (λ _, mret false).

Definition addTask `{JSON} (this : t) (task : JSValue) : JS LocalStorage bool :=
  tasks ← getTasks this;
  saveTasks this (tasks ++ [task]).

(** [task => task.id === taskId] *)
Definition has_id (taskId : JSValue) (task : JSValue) : bool :=
  strict_eq (prop task "id") taskId.

(** [tasks.findIndex(task => task.id === taskId)], [None] for -1. *)
Definition findIndex (taskId : JSValue) (tasks : list JSValue) : option nat :=
  fst <$> list_find (λ task, has_id taskId task = true) tasks.

(** [{ ...task, ...updates, id: taskId }] *)
Definition merge (task updates : JSValue) (taskId : JSValue) : JSValue :=
  JObj (<["id" := taskId]> (own_props updates ∪ own_props task)).

Definition updateTask `{JSON} (this : t) (taskId : JSValue) (updates : JSValue)
  : JS LocalStorage bool :=
  tasks ← getTasks this;
  match findIndex taskId tasks with
  | None => mret false
  | Some taskIndex =>
      let task := tasks !!! taskIndex in
      saveTasks this (<[taskIndex := merge task updates taskId]> tasks)
  end.

Definition deleteTask `{JSON} (this : t) (taskId : JSValue) : JS LocalStorage bool :=
  tasks ← getTasks this;
  saveTasks this (filter (λ task, has_id taskId task = false) tasks).

(** [tasks.find(task => task.id === taskId) || null] *)
Definition getTaskById `{JSON} (this : t) (taskId : JSValue) : JS LocalStorage JSValue :=
  tasks ← getTasks this;
  mret (default JNull (snd <$> list_find (λ task, has_id taskId task = true) tasks)).

(** The filter callback of [getTasksByCriteria].  A truthy
    [criteria.search] that is not a string has no [toLowerCase]. *)
Definition matches_criteria (criteria task : JSValue) : Outcome bool :=
  if negb (strict_eq (prop criteria "completed") JUndefined)
     && negb (strict_eq (prop task "completed") (prop criteria "completed"))
  then Return false
  else if truthy (prop criteria "priority")
          && negb (strict_eq (prop task "priority") (prop criteria "priority"))
  then Return false
  else if truthy (prop criteria "search")
  then match prop task "text", prop criteria "search" with
       | JStr text, JStr search =>
           Return (includes (toLowerCase text) (toLowerCase search))
       | _, _ => Throw TypeError
       end
  else Return true.

Fixpoint filter_by (criteria : JSValue) (tasks : list JSValue) : Outcome (list JSValue) :=
  match tasks with
  | [] => Return []
  | task :: rest =>
      match matches_criteria criteria task with
      | Throw e => Throw e
      | Return keep =>
          match filter_by criteria rest with
          | Throw e => Throw e
          | Return rest' => Return (if keep then task :: rest' else rest')
          end
      end
  end.

(** [getTasksByCriteria(criteria = {})] *)
Definition getTasksByCriteria `{JSON} (this : t) (criteria : JSValue)
  : JS LocalStorage (list JSValue) :=
  let criteria := match criteria with JUndefined => JObj ∅ | c => c end in
  tasks ← getTasks this;
  outcome (filter_by criteria tasks).

Definition getDefaultSettings : JSValue :=
  JObj (<["theme" := JStr "zen"]>
       (<["defaultPriority" := JStr "medium"]>
       (<["autoSort" := JBool true]>
       (<["showCompletedTasks" := JBool true]>
       (<["soundEnabled" := JBool false]>
       (<["animationsEnabled" := JBool true]> ∅)))))).

Definition getSettings `{JSON} (this : t) : JS LocalStorage JSValue :=
  if negb (isStorageAvailable this) then mret getDefaultSettings
  else
    try_catch
      (settingsJson ← getItem (settingsKey this);
       settings ← match settingsJson with
                  | Some (String _ _ as raw) => parse_raw (Some raw)
                  | _ => mret (JObj ∅)
                  end;
       mret (JObj (own_props settings ∪ own_props getDefaultSettings)))
      (λ _, mret getDefaultSettings).

Definition saveSettings `{JSON} (this : t) (settings : JSValue) : JS LocalStorage bool :=
  if negb (isStorageAvailable this) then mret false
  else
    try_catch
      (setItem (settingsKey this) (JSON_stringify settings);;
       mret true)
      (λ _, mret false).

Definition clearAll (this : t) : JS LocalStorage bool :=
  if negb (isStorageAvailable this) then mret false
  else
    try_catch
      (removeItem (storageKey this);;
       removeItem (settingsKey this);;
       mret true)
      (λ _, mret false).
(** [importTasks(jsonData)].  The Error thrown for data without a tasks
    array is caught by the surrounding [catch], which does not look at
    it. *)
Definition importTasks `{JSON} (this : t) (jsonData : string) : JS LocalStorage bool :=
  try_catch
    (importData ← parse_raw (Some jsonData);
     match prop importData "tasks" with
     | JArr tasks =>
         isTasksSaved ← saveTasks this tasks;
         (if truthy (prop importData "settings")
          then saveSettings this (prop importData "settings");; mret ()
          else mret ());;
         mret isTasksSaved
     | _ => throw TypeError
     end)
    (λ _, mret false).
End ZenStorage.

(** ** ZenTaskManager: validated CRUD over the in-memory collection *)

Module ZenTaskManager.
(** What [notifyObservers(event, data)] hands to the observers.
    ['tasksUpdated'] carries [getFilteredTasks()], a filtered and possibly
    sorted copy of the collection; that payload is not modelled. *)
Inductive Event :=
| tasksLoaded (tasks : list JSValue)
| error (message : string)
| taskCreated (task : JSValue)
| taskUpdated (task : JSValue)
| taskDeleted (task : JSValue)
| tasksUpdated.

(** The fields of the manager, the events emitted so far, the global
    [zenStorage] instance and the browser's localStorage. *)
Record World := {
  tasks : list JSValue;
  currentFilter : string;
  settings : JSValue;
  emitted : list Event;
  zenStorage : ZenStorage.t;
  ls : LocalStorage;
}.

Definition with_tasks (ts : list JSValue) (w : World) : World :=
  {| tasks := ts; currentFilter := currentFilter w; settings := settings w;
     emitted := emitted w; zenStorage := zenStorage w; ls := ls w |}.
Definition with_settings (st : JSValue) (w : World) : World :=
  {| tasks := tasks w; currentFilter := currentFilter w; settings := st;
     emitted := emitted w; zenStorage := zenStorage w; ls := ls w |}.
Definition with_ls (l : LocalStorage) (w : World) : World :=
  {| tasks := tasks w; currentFilter := currentFilter w; settings := settings w;
     emitted := emitted w; zenStorage := zenStorage w; ls := l |}.

Definition notifyObservers (e : Event) : JS World () :=
  modify (λ w, {| tasks := tasks w; currentFilter := currentFilter w;
                  settings := settings w; emitted := emitted w ++ [e];
                  zenStorage := zenStorage w; ls := ls w |}).

(** A call into the global [zenStorage]. *)
Definition storage_call {A} (m : ZenStorage.t → JS LocalStorage A) : JS World A :=
  zs ← gets zenStorage;
  zoom ls with_ls (m zs).

Definition loadTasks `{JSON} : JS World () :=
  try_catch
    (ts ← storage_call ZenStorage.getTasks;
     modify (with_tasks ts);;
     notifyObservers (tasksLoaded ts))
    (λ _, modify (with_tasks [])).

Definition loadSettings `{JSON} : JS World () :=
  st ← storage_call ZenStorage.getSettings;
  modify (with_settings st).

(** [validateTaskText]: [None] where the source returns null. *)
Definition validateTaskText (text : JSValue) : option string :=
  match text with
  | JStr text =>
      let trimmed := trim text in
      if bool_decide (String.length trimmed = 0) || (500 <? String.length trimmed)
      then None
      else Some (collapse_ws trimmed)
  | _ => None
  end.

Definition validatePriority (priority : JSValue) : string :=
  match priority with
  | JStr p => if bool_decide (p ∈ ["low"; "medium"; "high"]) then p else "medium"
  | _ => "medium"
  end.

(** [`task_${Date.now()}_${Math.random().toString(36).substr(2, 9)}`] for
    the clock reading [now] and the base-36 fragment [rnd] of the draw. *)
Definition generateId (now : N) (rnd : string) : string :=
  "task_" +:+ pretty now +:+ "_" +:+ rnd.

(** The task object [createTask] builds. *)
Definition new_task (id : JSValue) (text priority createdAt updatedAt : string) : JSValue :=
  JObj (<["id" := id]>
       (<["text" := JStr text]>
       (<["priority" := JStr priority]>
       (<["completed" := JBool false]>
       (<["createdAt" := JStr createdAt]>
       (<["updatedAt" := JStr updatedAt]>
       (<["completedAt" := JNull]> ∅))))))).

(** [createTask(text, priority = 'medium')].  [now] and [rnd] are what
    [Date.now()] and the random draw return; [isoC] and [isoU] are the two
    readings [new Date().toISOString()]. *)
Definition createTask `{JSON} (now : N) (rnd isoC isoU : string)
    (text priority : JSValue) : JS World JSValue :=
  let priority := match priority with JUndefined => JStr "medium" | p => p end in
  match validateTaskText text with
  | None | Some "" =>
      notifyObservers (error "Task text is required and must be valid");;
      mret JNull
  | Some validatedText =>
      let validatedPriority := validatePriority priority in
      let id := JStr (generateId now rnd) in
      let task := new_task id validatedText validatedPriority isoC isoU in
      modify (λ w, with_tasks (tasks w ++ [task]) w);;
      saved ← storage_call (λ zs, ZenStorage.addTask zs task);
      if negb saved then
        modify (λ w, with_tasks
                       (filter (λ t, ZenStorage.has_id id t = false) (tasks w)) w);;
        notifyObservers (error "Failed to save task");;
        mret JNull
      else
        notifyObservers (taskCreated task);;
        notifyObservers tasksUpdated;;
        mret task
  end.

(** [obj.k = v] on an object under construction. *)
Definition set_prop (k : string) (v : JSValue) (obj : gmap string JSValue)
  : gmap string JSValue := <[k := v]> obj.

(** The object [updatedTask] that [updateTask] builds from
    [currentTask] and [updates]: the spread, then the validated text and
    priority, then [completedAt] when the completion status changes.
    [None] where the supplied text is invalid.  [isoU] and [isoC] are the
    readings [new Date().toISOString()] for updatedAt and completedAt. *)
Definition updatedTask (isoU isoC : string) (taskId updates currentTask : JSValue)
  : option (gmap string JSValue) :=
  let updatedTask :=
    <["updatedAt" := JStr isoU]>
      (<["id" := taskId]> (own_props updates ∪ own_props currentTask)) in
  updatedTask ←
    (if negb (strict_eq (prop updates "text") JUndefined)
     then match validateTaskText (prop updates "text") with
          | None | Some "" => None
          | Some validatedText => Some (set_prop "text" (JStr validatedText) updatedTask)
          end
     else Some updatedTask);
  let updatedTask :=
    if negb (strict_eq (prop updates "priority") JUndefined)
    then set_prop "priority" (JStr (validatePriority (prop updates "priority")))
                  updatedTask
    else updatedTask in
  let updatedTask :=
    if negb (strict_eq (prop updates "completed") JUndefined)
       && negb (strict_eq (prop updates "completed") (prop currentTask "completed"))
    then set_prop "completedAt"
                  (if truthy (prop updates "completed") then JStr isoC else JNull)
                  updatedTask
    else updatedTask in
  Some updatedTask.

(** [updateTask(taskId, updates)].  Reading [updates.text] throws when
    [updates] is null or undefined. *)
Definition updateTask `{JSON} (isoU isoC : string) (taskId updates : JSValue)
  : JS World bool :=
  ts ← gets tasks;
  match ZenStorage.findIndex taskId ts with
  | None =>
      notifyObservers (error "Task not found");;
      mret false
  | Some taskIndex =>
      let currentTask := ts !!! taskIndex in
      match updates with
      | JUndefined | JNull => throw TypeError
      | _ =>
          match updatedTask isoU isoC taskId updates currentTask with
          | None =>
              notifyObservers (error "Invalid task text");;
              mret false
          | Some updatedTask =>
              modify (λ w, with_tasks (<[taskIndex := JObj updatedTask]> (tasks w)) w);;
              saved ← storage_call
                        (λ zs, ZenStorage.updateTask zs taskId (JObj updatedTask));
              if negb saved then
                modify (λ w, with_tasks (<[taskIndex := currentTask]> (tasks w)) w);;
                notifyObservers (error "Failed to update task");;
                mret false
              else
                notifyObservers (taskUpdated (JObj updatedTask));;
                notifyObservers tasksUpdated;;
                mret true
          end
      end
  end.

(** [arr.splice(i, 0, x)] *)
Definition splice_in {A} (i : nat) (x : A) (l : list A) : list A :=
  take i l ++ x :: drop i l.

Definition deleteTask `{JSON} (taskId : JSValue) : JS World bool :=
  ts ← gets tasks;
  match ZenStorage.findIndex taskId ts with
  | None =>
      notifyObservers (error "Task not found");;
      mret false
  | Some taskIndex =>
      let deletedTask := ts !!! taskIndex in
      modify (λ w, with_tasks
                     (filter (λ t, ZenStorage.has_id taskId t = false) (tasks w)) w);;
      deleted ← storage_call (λ zs, ZenStorage.deleteTask zs taskId);
      if negb deleted then
        modify (λ w, with_tasks (splice_in taskIndex deletedTask (tasks w)) w);;
        notifyObservers (error "Failed to delete task");;
        mret false
      else
        notifyObservers (taskDeleted deletedTask);;
        notifyObservers tasksUpdated;;
        mret true
  end.

(** [this.tasks.find(task => task.id === taskId) || null] *)
Definition getTaskById (taskId : JSValue) (w : World) : JSValue :=
  default JNull
    (snd <$> list_find (λ task, ZenStorage.has_id taskId task = true) (tasks w)).

Definition toggleTask `{JSON} (isoU isoC : string) (taskId : JSValue) : JS World bool :=
  task ← gets (getTaskById taskId);
  if negb (truthy task) then mret false
  else
    updateTask isoU isoC taskId
      (JObj {["completed" := JBool (negb (truthy (prop task "completed")))]}).
End ZenTaskManager.

(** ** ZenFilterManager: search *)

(** [new Date(v).toLocaleDateString()], which depends on the browser's
    locale and time zone. *)
Class Locale := {
  toLocaleDateString : JSValue → string;
}.

(** The platform's regular expressions: [new RegExp(pattern, flags)],
    [None] where it throws a SyntaxError, and [regex.test(text)]. *)
Class RegExp := {
  RegExp_object : Type;
  RegExp_new : string → string → option RegExp_object;
  RegExp_test : RegExp_object → string → bool;
}.

Module ZenFilterManager.
(** ToString, as [Array.prototype.join] applies it to an element. *)
Fixpoint toString (v : JSValue) : string :=
  match v with
  | JUndefined => "undefined"
  | JNull => "null"
  | JBool true => "true"
  | JBool false => "false"
  | JNum n => pretty n
  | JStr s => s
  | JArr l => join "," (map (λ x, match x with
                                  | JUndefined | JNull => ""
                                  | _ => toString x
                                  end) l)
  | JObj _ => "[object Object]"
  end.

(** [arr.join(sep)]: undefined and null elements give the empty string. *)
Definition array_join (sep : string) (l : list JSValue) : string :=
  join sep (map (λ x, match x with
                      | JUndefined | JNull => ""
                      | _ => toString x
                      end) l).

(** [term.split('')]: the code units of the term, each a string. *)
Definition split_units (term : string) : list JSValue :=
  (λ c, JStr (String c "")) <$> String.list_ascii_of_string term.

(** [fuzzyMatch(text, term)].  [new RegExp] throws a SyntaxError on a
    pattern that is not well formed. *)
Definition fuzzyMatch `{RegExp} (text term : string) : Outcome bool :=
  if String.length term <? 3 then Return false
  else
    match RegExp_new (array_join ".*" (split_units term)) "i" with
    | Some regex => Return (RegExp_test regex text)
    | None => Throw SyntaxError
    end.

(** [searchableText.includes(term) || this.fuzzyMatch(searchableText, term)] *)
Definition term_found `{RegExp} (searchableText term : string) : Outcome bool :=
  if includes searchableText term then Return true
  else fuzzyMatch searchableText term.

(** [searchTerms.every(...)], left to right, stopping at the first miss. *)
Fixpoint every_term `{RegExp} (searchableText : string) (searchTerms : list string)
  : Outcome bool :=
  match searchTerms with
  | [] => Return true
  | term :: rest =>
      match term_found searchableText term with
      | Return true => every_term searchableText rest
      | r => r
      end
  end.

Definition searchableText `{Locale} (task : JSValue) : string :=
  toLowerCase
    (array_join " "
       [prop task "text";
        prop task "priority";
        JStr (if truthy (prop task "completed") then "completed" else "active");
        JStr (toLocaleDateString (prop task "createdAt"))]).

Definition searchTerms (query : string) : list string :=
  split_ws (trim (toLowerCase query)).

(** [tasks.filter(task => ...)]: the callback runs on the tasks in their
    order, and an exception it throws ends the call. *)
Fixpoint filter_terms `{Locale} `{RegExp} (terms : list string) (tasks : list JSValue)
  : Outcome (list JSValue) :=
  match tasks with
  | [] => Return []
  | task :: rest =>
      match every_term (searchableText task) terms with
      | Throw e => Throw e
      | Return keep =>
          match filter_terms terms rest with
          | Throw e => Throw e
          | Return rest' => Return (if keep then task :: rest' else rest')
          end
      end
  end.

Definition applySearch `{Locale} `{RegExp} (tasks : list JSValue) (query : string)
  : Outcome (list JSValue) :=
  filter_terms (searchTerms query) tasks.
End ZenFilterManager.

(** ** A JSON instance to run the code on

    A serializer and a recursive-descent parser for the values of the
    model (integers for numbers, code units below 256).  Object members are
    written in the order the finite map enumerates them. *)

Module MiniJSON.
Definition dquote : ascii := "034"%char.

Definition hex_digit (n : nat) : ascii :=
  ascii_of_nat (if n <? 10 then 48 + n else 87 + n).

Definition escape_char (c : ascii) : string :=
  match c with
  | "034"%char => "\" +:+ String dquote ""
  | "\"%char => "\\"
  | "008"%char => "\b"
  | "012"%char => "\f"
  | "010"%char => "\n"
  | "013"%char => "\r"
  | "009"%char => "\t"
  | _ =>
      let n := nat_of_ascii c in
      if n <? 32
      then "\u00" +:+ String (hex_digit (n / 16)) (String (hex_digit (n mod 16)) "")
      else String c ""
  end.

Fixpoint escape (s : string) : string :=
  match s with
  | "" => ""
  | String c s' => escape_char c +:+ escape s'
  end.

Definition quote (s : string) : string :=
  String dquote (escape s) +:+ String dquote "".

Definition comma (acc piece : string) : string :=
  if bool_decide (acc = "") then piece else acc +:+ "," +:+ piece.

(** Inside an array undefined is written as null; inside an object a
    member whose value is undefined is left out. *)
Fixpoint stringify (v : JSValue) : string :=
  match v with
  | JUndefined => "undefined"
  | JNull => "null"
  | JBool true => "true"
  | JBool false => "false"
  | JNum n => pretty n
  | JStr s => quote s
  | JArr l =>
      "[" +:+ foldl (λ acc x, comma acc match x with
                                        | JUndefined => "null"
                                        | _ => stringify x
                                        end) "" l +:+ "]"
  | JObj o =>
      "{" +:+ map_fold (λ k x acc, match x with
                                   | JUndefined => acc
                                   | _ => comma acc (quote k +:+ ":" +:+ stringify x)
                                   end) "" o +:+ "}"
  end.

Fixpoint skip_ws (s : list ascii) : list ascii :=
  match s with
  | c :: s' =>
      match c with
      | " " | "009" | "010" | "013" => skip_ws s'
      | _ => s
      end%char
  | [] => []
  end.

Definition digit_of (c : ascii) : option Z :=
  let n := nat_of_ascii c in
  if (48 <=? n) && (n <=? 57) then Some (Z.of_nat (n - 48)) else None.

Definition hex_of (c : ascii) : option nat :=
  let n := nat_of_ascii c in
  if (48 <=? n) && (n <=? 57) then Some (n - 48)
  else if (97 <=? n) && (n <=? 102) then Some (n - 87)
  else if (65 <=? n) && (n <=? 70) then Some (n - 55)
  else None.

Fixpoint parse_digits (acc : Z) (s : list ascii) : Z * list ascii :=
  match s with
  | c :: s' =>
      match digit_of c with
      | Some d => parse_digits (10 * acc + d) s'
      | None => (acc, s)
      end
  | [] => (acc, [])
  end.

(** The characters of a string literal after its opening quote. *)
Fixpoint parse_chars (acc : string) (s : list ascii) : option (string * list ascii) :=
  match s with
  | [] => None
  | c :: s' =>
      if bool_decide (c = dquote) then Some (String.rev acc, s')
      else if bool_decide (c = "\"%char) then
        match s' with
        | e :: s'' =>
            let plain (x : ascii) := parse_chars (String x acc) s'' in
            if bool_decide (e = dquote) then plain dquote
            else match e with
                 | "\" => plain "\"
                 | "/" => plain "/"
                 | "b" => plain "008"
                 | "f" => plain "012"
                 | "n" => plain "010"
                 | "r" => plain "013"
                 | "t" => plain "009"
                 | "u" =>
                     match s'' with
                     | h1 :: h2 :: h3 :: h4 :: s3 =>
                         match hex_of h1, hex_of h2, hex_of h3, hex_of h4 with
                         | Some 0, Some 0, Some a, Some b =>
                             match s'' with
                             | _ :: _ :: _ :: _ :: rest =>
                                 parse_chars (String (ascii_of_nat (16 * a + b)) acc) rest
                             | _ => None
                             end
                         | _, _, _, _ => None
                         end
                     | _ => None
                     end
                 | _ => None
                 end%char
        | [] => None
        end
      else if nat_of_ascii c <? 32 then None
      else parse_chars (String c acc) s'
  end.

Definition expect (word : string) (v : JSValue) (s : list ascii)
  : option (JSValue * list ascii) :=
  let w := String.list_ascii_of_string word in
  if bool_decide (take (length w) s = w) then Some (v, drop (length w) s) else None.

Fixpoint parse_value (fuel : nat) (s : list ascii) : option (JSValue * list ascii) :=
  match fuel with
  | 0 => None
  | S fuel =>
      match skip_ws s with
      | [] => None
      | c :: s1 =>
          if bool_decide (c = dquote) then
            '(str, s2) ← parse_chars "" s1; Some (JStr str, s2)
          else match c with
               | "n"%char => expect "null" JNull (c :: s1)
               | "t"%char => expect "true" (JBool true) (c :: s1)
               | "f"%char => expect "false" (JBool false) (c :: s1)
               | "["%char =>
                   match skip_ws s1 with
                   | "]"%char :: s2 => Some (JArr [], s2)
                   | _ => parse_elements fuel [] s1
                   end
               | "{"%char =>
                   match skip_ws s1 with
                   | "}"%char :: s2 => Some (JObj ∅, s2)
                   | _ => parse_members fuel ∅ s1
                   end
               | "-"%char =>
                   match s1 with
                   | d :: _ =>
                       if is_Some_dec (digit_of d)
                       then let '(n, s2) := parse_digits 0 s1 in Some (JNum (- n), s2)
                       else None
                   | [] => None
                   end
               | _ =>
                   if is_Some_dec (digit_of c)
                   then let '(n, s2) := parse_digits 0 (c :: s1) in Some (JNum n, s2)
                   else None
               end
      end
  end
with parse_elements (fuel : nat) (acc : list JSValue) (s : list ascii)
  : option (JSValue * list ascii) :=
  match fuel with
  | 0 => None
  | S fuel =>
      '(v, s1) ← parse_value fuel s;
      match skip_ws s1 with
      | "," :: s2 => parse_elements fuel (v :: acc) s2
      | "]" :: s2 => Some (JArr (reverse (v :: acc)), s2)
      | _ => None
      end%char
  end
with parse_members (fuel : nat) (acc : gmap string JSValue) (s : list ascii)
  : option (JSValue * list ascii) :=
  match fuel with
  | 0 => None
  | S fuel =>
      match skip_ws s with
      | q :: s1 =>
          if bool_decide (q = dquote) then
            '(k, s2) ← parse_chars "" s1;
            match skip_ws s2 with
            | ":" :: s3 =>
                '(v, s4) ← parse_value fuel s3;
                match skip_ws s4 with
                | "," :: s5 => parse_members fuel (<[k := v]> acc) s5
                | "}" :: s5 => Some (JObj (<[k := v]> acc), s5)
                | _ => None
                end
            | _ => None
            end%char
          else None
      | [] => None
      end
  end.

Definition parse (text : string) : option JSValue :=
  let s := String.list_ascii_of_string text in
  '(v, rest) ← parse_value (2 * length s + 2) s;
  match skip_ws rest with
  | [] => Some v
  | _ => None
  end.

Definition json : JSON := {| JSON_stringify := stringify; JSON_parse := parse |}.
End MiniJSON.

(** ** Regular expressions: chains of literal characters

    What ECMAScript prescribes for the patterns [c1.*c2.*...cn] in which
    every [c] stands for itself, under the flag [i]. *)

(** SyntaxCharacter of the pattern grammar: every other character stands
    for itself. *)
Definition syntax_character (c : ascii) : bool :=
  match c with
  | "\" | "^" | "$" | "." | "|" | "?" | "*" | "+"
  | "(" | ")" | "[" | "]" | "{" | "}" => true
  | _ => false
  end%char.

(** Canonicalize, for the flag [i] without [u], on a code unit below 256:
    its upper-case mapping when that is one code unit.  Those of ÿ and µ lie
    above 255; ß, whose upper case is two code units, stays as it is. *)
Definition canonicalize (c : ascii) : N :=
  let n := N_of_ascii c in
  (if ((97 <=? n) && (n <=? 122)) || ((224 <=? n) && (n <=? 254) && negb (n =? 247))
   then n - 32
   else if n =? 255 then 376
   else if n =? 181 then 924
   else n)%N.

(** The rest of the chain after a character has matched: [.*] skips any
    run without line terminators, then the next character has to match. *)
Fixpoint gap_match (term text : list ascii) {struct text} : bool :=
  match term with
  | [] => true
  | c :: term' =>
      match text with
      | [] => false
      | a :: text' =>
          (bool_decide (canonicalize a = canonicalize c) && gap_match term' text')
          || (negb (is_line_terminator a) && gap_match term text')
      end
  end.

(** [test]: the chain may start at any position of the text. *)
Fixpoint chain_test (term text : list ascii) {struct text} : bool :=
  match term with
  | [] => true
  | c :: term' =>
      match text with
      | [] => false
      | a :: text' =>
          (bool_decide (canonicalize a = canonicalize c) && gap_match term' text')
          || chain_test term text'
      end
  end.

(** ** A RegExp instance to run the code on

    It knows the chains of literal characters under the flag [i], and
    nothing else: every other pattern and every other flag is refused, which
    the platform need not do. *)

Module MiniRegExp.
Fixpoint read_chain (pattern : list ascii) : option (list ascii) :=
  match pattern with
  | [] => None
  | c :: rest =>
      if syntax_character c then None
      else match rest with
           | [] => Some [c]
           | "."%char :: "*"%char :: rest' => cons c <$> read_chain rest'
           | _ => None
           end
  end.

Definition regexp : RegExp :=
  {| RegExp_object := list ascii;
     RegExp_new := λ pattern flags,
       if bool_decide (flags = "i")
       then read_chain (String.list_ascii_of_string pattern)
       else None;
     RegExp_test := λ regex text, chain_test regex (String.list_ascii_of_string text) |}.
End MiniRegExp.

(** ** Vocabulary of the claims *)

Abbreviation chars := String.list_ascii_of_string.

(** A text that is empty or consists only of whitespace. *)
Definition blank (s : string) : bool :=
  forallb is_ws (String.list_ascii_of_string s).

(** The ids of a collection, position by position. *)
Definition ids (ts : list JSValue) : list JSValue := (λ t, prop t "id") <$> ts.

(** The [zenStorage] instance after a successful probe. *)
Definition zenStorage_available : ZenStorage.t :=
  {| ZenStorage.storageKey := "zenTasker_tasks";
     ZenStorage.settingsKey := "zenTasker_settings";
     ZenStorage.isStorageAvailable := true |}.

(** A record with the shape [saveTasks] keeps: a non-null object with a
    truthy id and a non-empty string text. *)
Definition well_shaped (task : JSValue) : Prop :=
  ∃ o s, task = JObj o
         ∧ truthy (default JUndefined (o !! "id")) = true
         ∧ o !! "text" = Some (JStr s) ∧ s ≠ "".

(** Three states of the browser's storage: empty with the usual quota,
    without any capacity (every write exceeds the quota), and disabled. *)
Definition empty_storage : LocalStorage :=
  {| ls_items := ∅; ls_enabled := true; ls_quota := 5242880 |}.
Definition full_storage : LocalStorage :=
  {| ls_items := ∅; ls_enabled := true; ls_quota := 0 |}.
Definition disabled_storage : LocalStorage :=
  {| ls_items := ∅; ls_enabled := false; ls_quota := 5242880 |}.

(** localStorage after [saveTasks(tasks)] on an empty store. *)
Definition storage_with (tasks : list JSValue) : LocalStorage :=
  (ZenStorage.saveTasks (H:=MiniJSON.json) zenStorage_available tasks empty_storage).2.

(** A task as [createTask] builds it. *)
Definition milk : JSValue :=
  JObj (<["id" := JStr "task_1_abc"]>
       (<["text" := JStr "Buy milk"]>
       (<["priority" := JStr "low"]>
       (<["completed" := JBool false]>
       (<["createdAt" := JStr "2025-01-15T10:00:00.000Z"]>
       (<["updatedAt" := JStr "2025-01-15T10:00:00.000Z"]>
       (<["completedAt" := JNull]> ∅))))))).

(** A record with a numeric id. *)
Definition numbered : JSValue :=
  JObj (<["id" := JNum 1]> (<["text" := JStr "a"]> ∅)).

(** A sequence of [addTask] calls of app.js, each with the clock reading
    and the draw it gets; a call that throws leaves the world it reached. *)
Definition run_addTask `{JSON} (calls : list (N * N * string)) (w : App.World) : App.World :=
  foldl (λ w c, (App.addTask c.1.1 c.1.2 c.2 w).2) w calls.

Definition app_start : App.World :=
  {| App.tasks := []; App.ls := empty_storage; App.alerts := [] |}.

(** A storage filled to its quota: what it holds stays readable, and a
    write succeeds only if it needs no more room. *)
Definition filled (l : LocalStorage) : LocalStorage :=
  {| ls_items := ls_items l; ls_enabled := ls_enabled l;
     ls_quota := ls_used (ls_items l) |}.

(** The manager and the Store over a given localStorage. *)
Definition manager_on (l : LocalStorage) (ts : list JSValue) : ZenTaskManager.World :=
  {| ZenTaskManager.tasks := ts;
     ZenTaskManager.currentFilter := "all";
     ZenTaskManager.settings := ZenStorage.getDefaultSettings;
     ZenTaskManager.emitted := [];
     ZenTaskManager.zenStorage := zenStorage_available;
     ZenTaskManager.ls := l |}.

Definition store_on (l : LocalStorage) (ts : list Store.Task) : Store.World :=
  {| Store.state := {| Store.tasks := ts; Store.filter := "all" |}; Store.ls := l |}.

Definition non_null (v : JSValue) : bool :=
  match v with
  | JUndefined | JNull => false
  | _ => true
  end.

(** The completion invariant of a task: [completed] is a boolean, and it
    is true if and only if [completedAt] is not null. *)
Definition completion_invariant (task : JSValue) : bool :=
  match prop task "completed" with
  | JBool completed => bool_decide (completed = non_null (prop task "completedAt"))
  | _ => false
  end.

(** The operations of the manager that change the collection, with what
    the clock and the random draw give each call. *)
Inductive Op :=
| Create (now : N) (rnd isoC isoU : string) (text priority : JSValue)
| Update (isoU isoC : string) (taskId updates : JSValue)
| Toggle (isoU isoC : string) (taskId : JSValue)
| Delete (taskId : JSValue).

Definition run_op `{JSON} (w : ZenTaskManager.World) (op : Op) : ZenTaskManager.World :=
  match op with
  | Create now rnd isoC isoU text priority =>
      (ZenTaskManager.createTask now rnd isoC isoU text priority w).2
  | Update isoU isoC taskId updates =>
      (ZenTaskManager.updateTask isoU isoC taskId updates w).2
  | Toggle isoU isoC taskId => (ZenTaskManager.toggleTask isoU isoC taskId w).2
  | Delete taskId => (ZenTaskManager.deleteTask taskId w).2
  end.

Definition run_ops `{JSON} (ops : list Op) (w : ZenTaskManager.World)
  : ZenTaskManager.World := foldl run_op w ops.

(** Partial fields that leave [completedAt] alone and give [completed],
    if at all, as a boolean. *)
Definition plain_update (updates : JSValue) : Prop :=
  ∃ o, updates = JObj o
       ∧ o !! "completedAt" = None
       ∧ (o !! "completed" = None ∨ ∃ b, o !! "completed" = Some (JBool b)).

Definition plain_op (op : Op) : Prop :=
  match op with
  | Update _ _ _ updates => plain_update updates
  | _ => True
  end.

(** [term] occurs in [text]. *)
Definition occurs (term text : string) : Prop :=
  ∃ pre post, text = pre +:+ term +:+ post.

(** A locale that writes the date of an ISO timestamp as month/day/year,
    as en-US does (in UTC). *)
Definition strip_zero (s : string) : string :=
  match s with
  | String "0" (String d "") => String d ""
  | _ => s
  end.

Definition en_US : Locale :=
  {| toLocaleDateString := λ v,
       match v with
       | JStr iso =>
           if (10 <=? String.length iso)
           then strip_zero (String.substring 5 2 iso) +:+ "/"
                +:+ strip_zero (String.substring 8 2 iso) +:+ "/"
                +:+ String.substring 0 4 iso
           else "Invalid Date"
       | _ => "Invalid Date"
       end |}.

(** The task of the search example. *)
Definition shopping (createdAt : string) : JSValue :=
  JObj (<["id" := JStr "task_2_xyz"]>
       (<["text" := JStr "Buy shopping bags"]>
       (<["priority" := JStr "high"]>
       (<["completed" := JBool false]>
       (<["createdAt" := JStr createdAt]>
       (<["updatedAt" := JStr createdAt]>
       (<["completedAt" := JNull]> ∅))))))).

(** A term without syntax characters. *)
Definition literal (term : string) : Prop :=
  Forall (λ c, syntax_character c = false) (chars term).

(** The pattern [fuzzyMatch] builds from a term. *)
Definition chain_pattern (term : string) : string :=
  ZenFilterManager.array_join ".*" (ZenFilterManager.split_units term).

(** The platform follows ECMAScript on the chains of literal characters:
    the constructor accepts the pattern, and [test] tells whether the
    characters occur in the text in this order, compared by [canonicalize],
    with no line terminator between the first and the last of them. *)
Definition literal_chains `{RegExp} : Prop :=
  ∀ term text,
    term ≠ "" → literal term →
    ∃ regex, RegExp_new (chain_pattern term) "i" = Some regex
             ∧ RegExp_test regex text = chain_test (chars term) (chars text).

(** [Store.visible()] when the state holds the tasks [ts] and the filter
    [f]. *)
Definition listing (f : string) (ts : list Store.Task) (l : LocalStorage)
  : list Store.Task :=
  Store.visible {| Store.state := {| Store.tasks := ts; Store.filter := f |};
                   Store.ls := l |}.

(** ** Vocabulary of the further properties *)

(** Whitespace only as single spaces: [prev] tells whether the character
    before was whitespace. *)
Fixpoint single_spaced (prev : bool) (l : list ascii) : bool :=
  match l with
  | [] => true
  | c :: l' =>
      if is_ws c
      then bool_decide (c = " "%char) && negb prev && single_spaced true l'
      else single_spaced false l'
  end.

(** A text in the form [validateTaskText] returns: not empty, at most 500
    characters, no whitespace at either end, and inside only single
    spaces. *)
Definition normal_text (v : string) : Prop :=
  v ≠ ""
  ∧ String.length v ≤ 500
  ∧ (∀ c, head (chars v) = Some c → is_ws c = false)
  ∧ (∀ c, last (chars v) = Some c → is_ws c = false)
  ∧ single_spaced false (chars v) = true.

(** The Store after adding a first task. *)
Definition store_after_add : Store.World :=
  (Store.add (H:=MiniJSON.json) "u1" "Buy milk" (store_on empty_storage [])).2.

(** A record without text. *)
Definition untitled : JSValue :=
  JObj (<["id" := JStr "x"]> (<["text" := JStr ""]> ∅)).

(** [task.text.toLowerCase().includes(search.toLowerCase())] *)
Definition text_includes (search : string) (task : JSValue) : bool :=
  match prop task "text" with
  | JStr text => includes (toLowerCase text) (toLowerCase search)
  | _ => false
  end.

(** The manager after creating a first task on an empty storage. *)
Definition manager_after_create : ZenTaskManager.World :=
  (ZenTaskManager.createTask (H:=MiniJSON.json) 1 "abc"
     "2025-01-15T10:00:00.000Z" "2025-01-15T10:00:00.000Z"
     (JStr "Buy milk") (JStr "low") (manager_on empty_storage [])).2.

(** The manager's world with one more event emitted. *)
Definition with_event (e : ZenTaskManager.Event) (w : ZenTaskManager.World)
  : ZenTaskManager.World :=
  {| ZenTaskManager.tasks := ZenTaskManager.tasks w;
     ZenTaskManager.currentFilter := ZenTaskManager.currentFilter w;
     ZenTaskManager.settings := ZenTaskManager.settings w;
     ZenTaskManager.emitted := ZenTaskManager.emitted w ++ [e];
     ZenTaskManager.zenStorage := ZenTaskManager.zenStorage w;
     ZenTaskManager.ls := ZenTaskManager.ls w |}.

(** The Store after adding a first task, on a storage that this filled
    to its quota. *)
Definition store_filled : Store.World :=
  Store.with_ls (filled (Store.ls store_after_add)) store_after_add.

(** The to-do list of app.js after adding a first task. *)
Definition app_after_add : App.World :=
  (App.addTask (H:=MiniJSON.json) 1736935200000 417 " Buy milk " app_start).2.

(** A second stored task, and settings that override one default. *)
Definition call_bank : JSValue :=
  JObj (<["id" := JStr "task_2_def"]> (<["text" := JStr "Call the bank"]> ∅)).

Definition dark_theme : JSValue := JObj {["theme" := JStr "dark"]}.

(** * Properties *)

(** ** Filters (filters.js, Store.visible) *)

Section Store_filters.
Import Store.

Lemma visible_active ts l :
  listing Filters.Active ts l = base.filter (λ t, task_completed t = false) ts.
Proof.
  unfold listing, visible; simpl. apply list_filter_iff. intros t.
  unfold byFilter. rewrite bool_decide_eq_true_2 by done.
  by destruct (task_completed t).
Qed.

Lemma visible_completed ts l :
  listing Filters.Completed ts l = base.filter (λ t, task_completed t = true) ts.
Proof.
  unfold listing, visible; simpl. apply list_filter_iff. intros t.
  unfold byFilter. rewrite bool_decide_eq_false_2 by done.
  by rewrite bool_decide_eq_true_2 by done.
Qed.

Lemma visible_all ts l : listing Filters.All ts l = ts.
Proof.
  unfold listing, visible; simpl. induction ts as [|t ts IH]; [done|].
  rewrite filter_cons_True by done. by rewrite IH.
Qed.

(** C6.  For every task collection, the active listing is exactly the
    tasks with [completed = false], the completed listing exactly those
    with [completed = true], the listing for "all" is the whole
    collection; the active and the completed listing together are a
    rearrangement of the collection, and no task is in both. *)
Theorem filter_correctness (ts : list Task) (l : LocalStorage) :
  listing "active" ts l = base.filter (λ t, task_completed t = false) ts
  ∧ listing "completed" ts l = base.filter (λ t, task_completed t = true) ts
  ∧ listing "all" ts l = ts
  ∧ listing "active" ts l ++ listing "completed" ts l ≡ₚ ts
  ∧ ∀ t, ¬ (t ∈ listing "active" ts l ∧ t ∈ listing "completed" ts l).
Proof.
  pose proof (visible_active ts l) as Ha.
  pose proof (visible_completed ts l) as Hc.
  pose proof (visible_all ts l) as Hall.
  unfold Filters.Active, Filters.Completed, Filters.All in *.
  rewrite Ha, Hc. split_and!; try done.
  - rewrite <- (filter_app_complement (λ t, task_completed t = false) ts) at 3.
    f_equiv. apply reflexive_eq, list_filter_iff. intros t.
    by destruct (task_completed t).
  - intros t [H1 H2]. apply list_elem_of_filter in H1 as [H1 _], H2 as [H2 _].
    congruence.
Qed.
End Store_filters.

(** ** Rejection of empty text *)

Lemma trimStart_blank s : blank s = true → trimStart s = "".
Proof.
  induction s as [|c s IH]; [done|]. unfold blank; simpl.
  intros [Hc Hs]%andb_prop. rewrite Hc. by apply IH.
Qed.

Lemma trim_blank s : blank s = true → trim s = "".
Proof. intros Hs. unfold trim. rewrite (trimStart_blank s) by done. reflexivity. Qed.

Lemma validateTaskText_blank s :
  blank s = true → ZenTaskManager.validateTaskText (JStr s) = None.
Proof. intros Hs. unfold ZenTaskManager.validateTaskText. by rewrite trim_blank. Qed.

(** C8.  For every text that is empty or only whitespace, creation is
    rejected and neither the in-memory collection nor localStorage changes:
    [Store.add] returns undefined, [addTask] of app.js only shows an alert,
    [createTask] returns null and emits an error event. *)
Theorem empty_text_rejected `{JSON} (text : string) :
  blank text = true →
  (∀ uid w, Store.add uid text w = (Return None, w))
  ∧ (∀ now r w,
       App.addTask now r text w
       = (Return (),
          {| App.tasks := App.tasks w; App.ls := App.ls w;
             App.alerts := App.alerts w
                           ++ ["Masukkan deskripsi tugas sebelum menambah."] |}))
  ∧ (∀ now rnd isoC isoU priority w,
       ZenTaskManager.createTask now rnd isoC isoU (JStr text) priority w
       = (Return JNull,
          {| ZenTaskManager.tasks := ZenTaskManager.tasks w;
             ZenTaskManager.currentFilter := ZenTaskManager.currentFilter w;
             ZenTaskManager.settings := ZenTaskManager.settings w;
             ZenTaskManager.emitted :=
               ZenTaskManager.emitted w
               ++ [ZenTaskManager.error "Task text is required and must be valid"];
             ZenTaskManager.zenStorage := ZenTaskManager.zenStorage w;
             ZenTaskManager.ls := ZenTaskManager.ls w |})).
Proof.
  intros Hblank. split_and!.
  - intros uid w. unfold Store.add; simpl. by rewrite trim_blank.
  - intros now r w. unfold App.addTask. by rewrite trim_blank.
  - intros now rnd isoC isoU priority w. unfold ZenTaskManager.createTask.
    by rewrite validateTaskText_blank.
Qed.

Lemma empty_text_rejected_witness :
  blank "   " = true
  ∧ ∀ w, ZenTaskManager.tasks
           (ZenTaskManager.createTask (H:=MiniJSON.json) 0 "r" "c" "u"
              (JStr "   ") (JStr "high") w).2
         = ZenTaskManager.tasks w.
Proof.
  split; [reflexivity|]. intros w.
  destruct (empty_text_rejected (H:=MiniJSON.json) "   " eq_refl) as (_ & _ & Hc).
  by rewrite Hc.
Defined.

(** ** Unavailable storage *)

Section Unavailable.
Context `{JSON}.
Import ZenStorage.

Lemma unavailable_noop (zs : ZenStorage.t) :
  isStorageAvailable zs = false →
  ∀ l tasks settings,
    getTasks zs l = (Return [], l)
    ∧ getSettings zs l = (Return getDefaultSettings, l)
    ∧ saveTasks zs tasks l = (Return false, l)
    ∧ saveSettings zs settings l = (Return false, l)
    ∧ clearAll zs l = (Return false, l).
Proof.
  intros Hzs l tasks settings.
  unfold getTasks, getSettings, saveTasks, saveSettings, clearAll.
  by rewrite Hzs.
Qed.

(** C5.  If the startup probe (write, then remove, of the probe key)
    throws, the instance is built with [isStorageAvailable = false];
    no method assigns that field again, and from then on, whatever
    localStorage holds, [getTasks] returns the empty list, [getSettings]
    the default settings, and [saveTasks], [saveSettings] and [clearAll]
    return false; none of them throws or touches localStorage. *)
Theorem probe_failure_degrades (l0 : LocalStorage) :
  (∃ e l, probe l0 = (Throw e, l)) →
  ∃ zs l1,
    constructor l0 = (Return zs, l1)
    ∧ isStorageAvailable zs = false
    ∧ ∀ l tasks settings,
        getTasks zs l = (Return [], l)
        ∧ getSettings zs l = (Return getDefaultSettings, l)
        ∧ saveTasks zs tasks l = (Return false, l)
        ∧ saveSettings zs settings l = (Return false, l)
        ∧ clearAll zs l = (Return false, l).
Proof.
  intros (e & l & Hprobe).
  eexists _, l. split_and!.
  - unfold constructor, checkStorageAvailability, try_catch, mbind, JS_bind.
    rewrite Hprobe. reflexivity.
  - reflexivity.
  - by apply unavailable_noop.
Qed.
End Unavailable.

Lemma probe_failure_degrades_witness :
  (∃ e l, ZenStorage.probe full_storage = (Throw e, l))
  ∧ ∃ zs l1,
      ZenStorage.constructor full_storage = (Return zs, l1)
      ∧ ZenStorage.isStorageAvailable zs = false
      ∧ ∀ l tasks settings,
          ZenStorage.getTasks (H:=MiniJSON.json) zs l = (Return [], l)
          ∧ ZenStorage.getSettings (H:=MiniJSON.json) zs l
            = (Return ZenStorage.getDefaultSettings, l)
          ∧ ZenStorage.saveTasks (H:=MiniJSON.json) zs tasks l = (Return false, l)
          ∧ ZenStorage.saveSettings (H:=MiniJSON.json) zs settings l = (Return false, l)
          ∧ ZenStorage.clearAll zs l = (Return false, l).
Proof.
  assert (∃ e l, ZenStorage.probe full_storage = (Throw e, l)) as Hprobe.
  { exists QuotaExceededError, full_storage. vm_compute. reflexivity. }
  split; [exact Hprobe|].
  exact (probe_failure_degrades (H:=MiniJSON.json) full_storage Hprobe).
Defined.

(** ** Reading with a fallback (storage.js) *)

Section Fallback.
Context `{JSON}.

Lemma storage_get_malformed key fallback raw l :
  ls_enabled l = true →
  ls_items l !! storage.ns key = Some raw →
  JSON_parse raw = None →
  storage.get key fallback l
  = (Return (match fallback with JUndefined => JNull | v => v end), l).
Proof.
  intros Hen Hraw Hparse.
  unfold storage.get, storage.safeJSON.parse, getItem, try_catch, parse_raw,
    mbind, JS_bind.
  rewrite Hen, Hraw; simpl. rewrite Hparse. reflexivity.
Qed.

(** With no entry under the key, [getItem] gives null, [JSON.parse(null)]
    parses the text "null", and the fallback is never consulted. *)
Lemma storage_get_absent key fallback l :
  ls_enabled l = true →
  ls_items l !! storage.ns key = None →
  JSON_parse "null" = Some JNull →
  storage.get key fallback l = (Return JNull, l).
Proof.
  intros Hen Hraw Hparse.
  unfold storage.get, storage.safeJSON.parse, getItem, try_catch, parse_raw,
    mbind, JS_bind.
  rewrite Hen, Hraw; simpl. rewrite Hparse. reflexivity.
Qed.

(** [getItem] is called outside the [try]. *)
Lemma storage_get_disabled key fallback l :
  ls_enabled l = false →
  storage.get key fallback l = (Throw SecurityError, l).
Proof.
  intros Hen. unfold storage.get, getItem, mbind, JS_bind. by rewrite Hen.
Qed.

(** [ZenStorage.getTasks] always returns, and leaves localStorage as it
    is. *)
Lemma getTasks_total zs l : ∃ ts, ZenStorage.getTasks zs l = (Return ts, l).
Proof.
  unfold ZenStorage.getTasks.
  destruct (ZenStorage.isStorageAvailable zs); simpl; [|by eexists].
  unfold try_catch, getItem, mbind, JS_bind, parse_raw, ZenStorage.array_filter.
  destruct (ls_enabled l); [|by eexists].
  destruct (ls_items l !! ZenStorage.storageKey zs) as [[|c raw]|]; simpl;
    try by eexists.
  destruct (JSON_parse (String c raw)) as [[]|]; simpl; by eexists.
Qed.
End Fallback.

(** C3.  On a store with no entry for the key, [storage.get] returns null
    and not the caller's fallback ([Store] passes its initial state), and
    on a disabled store it throws; [ZenStorage.getTasks] returns its empty
    list in both situations. *)
Theorem storage_get_ignores_fallback :
  storage.get (H:=MiniJSON.json) Store.KEY (Store.state_to_js Store.initial) empty_storage
  = (Return JNull, empty_storage)
  ∧ storage.get (H:=MiniJSON.json) Store.KEY (Store.state_to_js Store.initial)
      disabled_storage
    = (Throw SecurityError, disabled_storage)
  ∧ (∀ zs, ZenStorage.getTasks (H:=MiniJSON.json) zs empty_storage
           = (Return [], empty_storage))
  ∧ (∀ zs, ZenStorage.getTasks (H:=MiniJSON.json) zs disabled_storage
           = (Return [], disabled_storage)).
Proof.
  split_and!.
  - by apply storage_get_absent.
  - by apply storage_get_disabled.
  - intros [k1 k2 []]; reflexivity.
  - intros [k1 k2 []]; reflexivity.
Qed.

(** ** Reasoning about computations *)

Ltac js_unfold :=
  unfold mbind, JS_bind, mret, JS_ret, gets, modify, zoom, throw, outcome,
    try_catch in *.

Lemma strict_eq_true a b : strict_eq a b = true → a = b.
Proof.
  destruct a, b; simpl; try done; intros ?%bool_decide_eq_true; congruence.
Qed.

Lemma has_id_true taskId t : ZenStorage.has_id taskId t = true → prop t "id" = taskId.
Proof. apply strict_eq_true. Qed.

Lemma findIndex_Some taskId ts i :
  ZenStorage.findIndex taskId ts = Some i →
  ∃ t, ts !! i = Some t ∧ ZenStorage.has_id taskId t = true
       ∧ ∀ j t', ts !! j = Some t' → j < i → ZenStorage.has_id taskId t' = false.
Proof.
  unfold ZenStorage.findIndex. intros Hfind.
  destruct (list_find _ ts) as [[i' t]|] eqn:Hlf; simplify_eq/=.
  apply list_find_Some in Hlf as (Hi & Ht & Hbefore).
  exists t. split_and!; [done..|].
  intros j t' Hj Hlt. specialize (Hbefore j t' Hj Hlt).
  by destruct (ZenStorage.has_id taskId t').
Qed.

Lemma findIndex_None taskId ts :
  ZenStorage.findIndex taskId ts = None →
  Forall (λ t, ZenStorage.has_id taskId t = false) ts.
Proof.
  unfold ZenStorage.findIndex. intros Hfind.
  destruct (list_find _ ts) as [[i' t]|] eqn:Hlf; simplify_eq/=.
  eapply list_find_None in Hlf. eapply Forall_impl; [exact Hlf|].
  intros t Ht; simpl in Ht. by destruct (ZenStorage.has_id taskId t).
Qed.

Lemma ids_insert ts i t t' :
  ts !! i = Some t → prop t' "id" = prop t "id" → ids (<[i := t']> ts) = ids ts.
Proof.
  intros Hi Hid. unfold ids. rewrite list_fmap_insert, Hid.
  apply list_insert_id. by rewrite list_lookup_fmap, Hi.
Qed.

(** ** The id of a task is immutable *)

Section Id_immutable.
Context `{JSON}.

Lemma prop_merge_id t updates taskId :
  prop (ZenStorage.merge t updates taskId) "id" = taskId.
Proof. unfold ZenStorage.merge, prop. by rewrite lookup_insert_eq. Qed.

Lemma updatedTask_id isoU isoC taskId updates cur o :
  ZenTaskManager.updatedTask isoU isoC taskId updates cur = Some o →
  o !! "id" = Some taskId.
Proof.
  unfold ZenTaskManager.updatedTask, ZenTaskManager.set_prop. intros Ho.
  repeat (case_match; simplify_eq/=); by simplify_map_eq.
Qed.

Lemma storage_updateTask_unfold zs taskId updates l tasks :
  ZenStorage.getTasks zs l = (Return tasks, l) →
  ZenStorage.updateTask zs taskId updates l
  = match ZenStorage.findIndex taskId tasks with
    | None => (Return false, l)
    | Some i =>
        ZenStorage.saveTasks zs
          (<[i := ZenStorage.merge (tasks !!! i) updates taskId]> tasks) l
    end.
Proof.
  intros Hget. unfold ZenStorage.updateTask. js_unfold. rewrite Hget.
  by destruct (ZenStorage.findIndex taskId tasks).
Qed.

Lemma saveTasks_total zs ts l :
  ∃ b l', ZenStorage.saveTasks zs ts l = (Return b, l') ∧ (b = false → l' = l).
Proof.
  unfold ZenStorage.saveTasks, setItem. js_unfold.
  destruct (ZenStorage.isStorageAvailable zs); simpl;
    [|eexists _, _; split; [reflexivity|done]].
  destruct (ls_enabled l); simpl; [|eexists _, _; split; [reflexivity|done]].
  destruct (N.leb _ _); simpl; eexists _, _; (split; [reflexivity|done]).
Qed.

Lemma storage_updateTask_total zs taskId updates l :
  ∃ b l', ZenStorage.updateTask zs taskId updates l = (Return b, l')
          ∧ (b = false → l' = l).
Proof.
  destruct (getTasks_total zs l) as [ts Hts].
  rewrite (storage_updateTask_unfold _ _ _ _ _ Hts).
  destruct (ZenStorage.findIndex taskId ts); [apply saveTasks_total|].
  eexists _, _; split; [reflexivity|done].
Qed.

Lemma storage_addTask_total zs task l :
  ∃ b l', ZenStorage.addTask zs task l = (Return b, l') ∧ (b = false → l' = l).
Proof.
  destruct (getTasks_total zs l) as [ts Hts].
  unfold ZenStorage.addTask. js_unfold. rewrite Hts. apply saveTasks_total.
Qed.

Lemma storage_deleteTask_total zs taskId l :
  ∃ b l', ZenStorage.deleteTask zs taskId l = (Return b, l') ∧ (b = false → l' = l).
Proof.
  destruct (getTasks_total zs l) as [ts Hts].
  unfold ZenStorage.deleteTask. js_unfold. rewrite Hts. apply saveTasks_total.
Qed.

(** What [updateTask] of the manager leaves in memory: either the
    collection as it was, with a result other than true, or, with the
    result true, the collection with [updatedTask] in place of the
    first task that has the id. *)
Lemma manager_updateTask_cases isoU isoC taskId updates w r w' :
  ZenTaskManager.updateTask isoU isoC taskId updates w = (r, w') →
  (ZenTaskManager.tasks w' = ZenTaskManager.tasks w
   ∧ (r = Return false
      ∨ r = Throw TypeError ∧ (updates = JUndefined ∨ updates = JNull)))
  ∨ ∃ i t o l',
      ZenStorage.findIndex taskId (ZenTaskManager.tasks w) = Some i
      ∧ ZenTaskManager.tasks w !! i = Some t
      ∧ ZenTaskManager.updatedTask isoU isoC taskId updates t = Some o
      ∧ ZenStorage.updateTask (ZenTaskManager.zenStorage w) taskId (JObj o)
          (ZenTaskManager.ls w) = (Return true, l')
      ∧ r = Return true
      ∧ ZenTaskManager.tasks w' = <[i := JObj o]> (ZenTaskManager.tasks w).
Proof.
  unfold ZenTaskManager.updateTask, ZenTaskManager.notifyObservers,
    ZenTaskManager.storage_call.
  js_unfold; simpl.
  destruct (ZenStorage.findIndex taskId (ZenTaskManager.tasks w)) as [i|] eqn:Hfind;
    [|intros [= <- <-]; left; auto].
  pose proof Hfind as (t & Hi & Hid%has_id_true & _)%findIndex_Some.
  rewrite (list_lookup_total_correct _ _ _ Hi).
  destruct (ZenTaskManager.updatedTask isoU isoC taskId updates t) as [o|] eqn:Ho.
  - destruct (storage_updateTask_total (ZenTaskManager.zenStorage w) taskId (JObj o)
                (ZenTaskManager.ls w)) as (b & l' & Hsave & _).
    destruct updates; try (intros [= <- <-]; left; by auto); simpl;
      rewrite Hsave; destruct b; simpl; intros [= <- <-]; simpl;
      try (right; by eexists i, t, o, l');
      left; (split; [|by auto]);
      rewrite list_insert_insert_eq; by apply list_insert_id.
  - destruct updates; intros [= <- <-]; left; auto.
Qed.

Lemma manager_updateTask_ids isoU isoC taskId updates w :
  ids (ZenTaskManager.tasks (ZenTaskManager.updateTask isoU isoC taskId updates w).2)
  = ids (ZenTaskManager.tasks w).
Proof.
  destruct (ZenTaskManager.updateTask isoU isoC taskId updates w) as [r w'] eqn:Hup.
  apply manager_updateTask_cases in Hup
    as [[Hts _]|(i & t & o & l' & Hfind & Hi & Ho & _ & _ & Hts)];
    simpl; rewrite Hts; [done|].
  apply (ids_insert _ _ t); [done|].
  apply findIndex_Some in Hfind as (t' & Hi' & Hid%has_id_true & _).
  simplify_eq. unfold prop at 1. by rewrite (updatedTask_id _ _ _ _ _ _ Ho).
Qed.

(** C9.  [ZenStorage.updateTask] hands to [saveTasks] the stored
    collection with the merged record in place of the first task found
    under the id; that record has the id of the task it replaces, whatever
    the updates contain, so the ids of the collection are the same position
    by position.  The same holds for the collection the manager keeps in
    memory, whatever [updateTask] returns. *)
Theorem update_keeps_id zs taskId updates l tasks i :
  ZenStorage.getTasks zs l = (Return tasks, l) →
  ZenStorage.findIndex taskId tasks = Some i →
  (∃ t, tasks !! i = Some t
        ∧ ZenStorage.updateTask zs taskId updates l
          = ZenStorage.saveTasks zs
              (<[i := ZenStorage.merge t updates taskId]> tasks) l
        ∧ prop (ZenStorage.merge t updates taskId) "id" = prop t "id"
        ∧ ids (<[i := ZenStorage.merge t updates taskId]> tasks) = ids tasks)
  ∧ ∀ isoU isoC w,
      ids (ZenTaskManager.tasks
             (ZenTaskManager.updateTask isoU isoC taskId updates w).2)
      = ids (ZenTaskManager.tasks w).
Proof.
  intros Hget Hfind. split; [|intros; apply manager_updateTask_ids].
  pose proof Hfind as (t & Hi & Hid%has_id_true & _)%findIndex_Some.
  exists t. rewrite (storage_updateTask_unfold _ _ _ _ _ Hget), Hfind.
  rewrite (list_lookup_total_correct _ _ _ Hi).
  assert (prop (ZenStorage.merge t updates taskId) "id" = prop t "id") as Hsame
    by (by rewrite prop_merge_id).
  split_and!; [done..|]. by apply (ids_insert _ _ t).
Qed.
End Id_immutable.

Lemma update_keeps_id_witness :
  ZenStorage.getTasks (H:=MiniJSON.json) zenStorage_available (storage_with [milk])
  = (Return [milk], storage_with [milk])
  ∧ ZenStorage.findIndex (JStr "task_1_abc") [milk] = Some 0
  ∧ prop (ZenStorage.merge milk (JObj {["id" := JStr "other"]}) (JStr "task_1_abc")) "id"
    = prop milk "id".
Proof.
  assert (ZenStorage.getTasks (H:=MiniJSON.json) zenStorage_available
            (storage_with [milk]) = (Return [milk], storage_with [milk])) as Hget
    by (vm_compute; reflexivity).
  assert (ZenStorage.findIndex (JStr "task_1_abc") [milk] = Some 0) as Hfind
    by reflexivity.
  split; [exact Hget|]. split; [exact Hfind|].
  destruct (update_keeps_id (H:=MiniJSON.json) zenStorage_available
              (JStr "task_1_abc") (JObj {["id" := JStr "other"]})
              (storage_with [milk]) [milk] 0 Hget Hfind)
    as [(t & Ht & _ & Hid & _) _].
  change (Some milk = Some t) in Ht. injection Ht as <-. exact Hid.
Defined.

(** ** What [getTasks] returns after [saveTasks] *)

Section Save_then_load.
Context `{JSON}.
Import ZenStorage.

Lemma savable_well_shaped task : savable task = true ↔ well_shaped task.
Proof.
  unfold savable, well_shaped, is_string, prop. split.
  - destruct task as [| | | | |?|o]; simpl; try done;
      rewrite ?andb_false_r; try done.
    intros [[Hid Htext]%andb_prop Hstr]%andb_prop.
    destruct (o !! "text") as [[| | | |s| |]|] eqn:Ho; simplify_eq/=.
    exists o, s. split_and!; [done..|].
    intros ->. done.
  - intros (o & s & -> & Hid & Htext & Hs); simpl. rewrite Hid, Htext; simpl.
    by rewrite bool_decide_eq_false_2.
Qed.

Lemma saveTasks_true zs tasks l l' :
  saveTasks zs tasks l = (Return true, l') →
  isStorageAvailable zs = true
  ∧ ls_enabled l' = true
  ∧ ls_items l' !! storageKey zs
    = Some (JSON_stringify (JArr (filter (λ t, savable t = true) tasks))).
Proof.
  unfold saveTasks, setItem. js_unfold.
  destruct (isStorageAvailable zs); simpl; [|done].
  destruct (ls_enabled l) eqn:Hen; simpl; [|done].
  destruct (N.leb _ _); simpl; [|done].
  intros [= <-]; simpl. by rewrite lookup_insert_eq.
Qed.

Lemma getTasks_stored zs l raw arr :
  isStorageAvailable zs = true →
  ls_enabled l = true →
  ls_items l !! storageKey zs = Some raw →
  raw ≠ "" →
  JSON_parse raw = Some (JArr arr) →
  getTasks zs l = (Return (filter (λ t, loadable t = true) arr), l).
Proof.
  intros Hzs Hen Hraw Hne Hparse.
  unfold getTasks, getItem, parse_raw, array_filter. js_unfold.
  rewrite Hzs; simpl. rewrite Hen, Hraw. destruct raw; [done|]; simpl.
  by rewrite Hparse.
Qed.

(** C10.  [saveTasks] persists exactly the records that are non-null
    objects with a truthy id and a non-empty string text, in their order.
    When the write succeeds and the platform's JSON reads back what it
    wrote, a following [getTasks] returns, in their order, those of them
    whose id is a string: [getTasks] has its own check,
    [typeof task.id === 'string']. *)
Theorem save_then_load zs tasks l l' :
  saveTasks zs tasks l = (Return true, l') →
  let written := filter (λ t, savable t = true) tasks in
  JSON_stringify (JArr written) ≠ "" →
  JSON_parse (JSON_stringify (JArr written)) = Some (JArr written) →
  (∀ t, t ∈ written ↔ t ∈ tasks ∧ well_shaped t)
  ∧ ls_items l' !! storageKey zs = Some (JSON_stringify (JArr written))
  ∧ getTasks zs l'
    = (Return (filter (λ t, is_string (prop t "id") = true) written), l').
Proof.
  intros Hsave written Hne Hparse.
  apply saveTasks_true in Hsave as (Hzs & Hen & Hraw).
  split_and!; [|done|].
  - intros t. unfold written. rewrite list_elem_of_filter, savable_well_shaped.
    tauto.
  - rewrite (getTasks_stored zs l' _ written Hzs Hen Hraw Hne Hparse).
    do 2 f_equal. unfold written. rewrite !list_filter_filter.
    apply list_filter_iff. intros t. unfold loadable, savable.
    destruct (truthy t), (is_string (prop t "id")), (is_string (prop t "text"));
      simpl; rewrite ?andb_false_r; naive_solver.
Qed.
End Save_then_load.

Lemma save_then_load_witness :
  ZenStorage.saveTasks (H:=MiniJSON.json) zenStorage_available
    [milk; JNull; numbered] empty_storage
  = (Return true, storage_with [milk; JNull; numbered])
  ∧ ZenStorage.getTasks (H:=MiniJSON.json) zenStorage_available
      (storage_with [milk; JNull; numbered])
    = (Return [milk], storage_with [milk; JNull; numbered]).
Proof.
  assert (ZenStorage.saveTasks (H:=MiniJSON.json) zenStorage_available
            [milk; JNull; numbered] empty_storage
          = (Return true, storage_with [milk; JNull; numbered])) as Hsave
    by (vm_compute; reflexivity).
  split; [exact Hsave|].
  destruct (save_then_load (H:=MiniJSON.json) _ _ _ _ Hsave) as (_ & _ & ->).
  - vm_compute. discriminate.
  - vm_compute. reflexivity.
  - vm_compute. reflexivity.
Defined.

(** The claim that [getTasks] returns every record [saveTasks] kept fails
    on a record with a numeric id: it is written, and dropped on reading. *)
Lemma numeric_id_saved_not_loaded :
  well_shaped numbered
  ∧ ZenStorage.saveTasks (H:=MiniJSON.json) zenStorage_available [numbered] empty_storage
    = (Return true, storage_with [numbered])
  ∧ ls_items (storage_with [numbered]) !! "zenTasker_tasks"
    = Some (MiniJSON.stringify (JArr [numbered]))
  ∧ ZenStorage.getTasks (H:=MiniJSON.json) zenStorage_available (storage_with [numbered])
    = (Return [], storage_with [numbered]).
Proof.
  split_and!.
  - apply savable_well_shaped. reflexivity.
  - vm_compute. reflexivity.
  - vm_compute. reflexivity.
  - vm_compute. reflexivity.
Qed.

(** ** Distinct ids *)

Lemma pretty_N_go_no_dash x s :
  "-"%char ∉ String.list_ascii_of_string s →
  "-"%char ∉ String.list_ascii_of_string (pretty_N_go x s).
Proof.
  revert s. induction (N.lt_wf_0 x) as [x _ IH]; intros s Hs.
  assert (x = 0 ∨ 0 < x)%N as [->|Hx] by lia.
  - by rewrite pretty_N_go_0.
  - rewrite pretty_N_go_step by done. apply IH.
    { by apply N.div_lt. }
    simpl. intros [Hc|Hin]%elem_of_cons; [|done].
    revert Hc. unfold pretty_N_char. by repeat case_match.
Qed.

Lemma pretty_N_no_dash (x : N) : "-"%char ∉ String.list_ascii_of_string (pretty x).
Proof.
  unfold pretty, pretty_N. case_decide.
  - simpl. set_solver.
  - apply pretty_N_go_no_dash. simpl. set_solver.
Qed.

(** A string is cut at its first dash in one way only. *)
Lemma cut_at_dash s1 s2 t1 t2 :
  "-"%char ∉ String.list_ascii_of_string s1 →
  "-"%char ∉ String.list_ascii_of_string s2 →
  s1 +:+ "-" +:+ t1 = s2 +:+ "-" +:+ t2 →
  s1 = s2 ∧ t1 = t2.
Proof.
  revert s2. induction s1 as [|c s1 IH]; intros [|d s2] H1 H2 Heq; simpl in *.
  - by simplify_eq.
  - simplify_eq. set_solver.
  - simplify_eq. set_solver.
  - injection Heq as -> Heq.
    destruct (IH s2) as [-> ->]; [set_solver..|done|done].
Qed.

Lemma make_id_inj now r now' r' :
  App.make_id now r = App.make_id now' r' → now = now' ∧ r = r'.
Proof.
  unfold App.make_id. intros Heq.
  apply cut_at_dash in Heq as [Hn Hr]; [|apply pretty_N_no_dash..].
  split; by apply (inj pretty).
Qed.

Lemma NoDup_submseteq_inv {A} (l k : list A) : l ⊆+ k → NoDup k → NoDup l.
Proof.
  intros [k' Hk]%submseteq_Permutation. rewrite Hk.
  by intros [? _]%NoDup_app.
Qed.

Section Distinct_ids.
Context `{JSON}.

Lemma addTask_tasks now r d w :
  App.tasks (App.addTask now r d w).2 = App.tasks w
  ∨ App.tasks (App.addTask now r d w).2
    = App.tasks w ++ [{| App.task_id := App.make_id now r;
                         App.task_description := trim d;
                         App.task_completed := false |}].
Proof.
  unfold App.addTask, App.alert, App.saveTasks. js_unfold.
  case_bool_decide; simpl; [by left|].
  right. by destruct (setItem _ _ _) as [[] ?].
Qed.

Lemma run_addTask_ids calls w :
  App.task_id <$> App.tasks (run_addTask calls w)
  ⊆+ (App.task_id <$> App.tasks w) ++ ((λ c, App.make_id c.1 c.2) <$> calls.*1).
Proof.
  revert w. induction calls as [|[[now r] d] calls IH]; intros w; simpl.
  { by rewrite app_nil_r. }
  etrans; [apply IH|]. simpl.
  destruct (addTask_tasks now r d w) as [-> | ->].
  - apply submseteq_app; [done|]. by apply submseteq_cons.
  - rewrite fmap_app; simpl. by rewrite <- app_assoc.
Qed.

(** X28.  The id [addTask] of app.js builds determines the clock
    reading and the draw it was built from: two calls get the same id only
    in the same millisecond with the same draw.  So for every sequence of
    [addTask] calls on an empty collection, the ids of the resulting tasks
    are pairwise distinct whenever the pairs (clock reading, random draw) of
    the calls are. *)
Theorem ids_distinct_for_distinct_draws :
  (∀ now r now' r', App.make_id now r = App.make_id now' r' ↔ now = now' ∧ r = r')
  ∧ (∀ (calls : list (N * N * string)) w,
       App.tasks w = [] → NoDup calls.*1 →
       NoDup (App.task_id <$> App.tasks (run_addTask calls w))).
Proof.
  split.
  - intros now r now' r'. split; [apply make_id_inj|by intros [-> ->]].
  - intros calls w Hw Hdraws.
    eapply NoDup_submseteq_inv; [apply run_addTask_ids|].
    rewrite Hw; simpl. apply (NoDup_fmap_2_strong _); [|done].
    intros [now r] [now' r'] _ _ Heq; simpl in Heq.
    by apply make_id_inj in Heq as [-> ->].
Qed.
End Distinct_ids.

Lemma ids_distinct_for_distinct_draws_witness :
  NoDup [(1736935200000, 417); (1736935200000, 418)]%N
  ∧ NoDup (App.task_id <$> App.tasks
             (run_addTask (H:=MiniJSON.json)
                [(1736935200000, 417, "a"); (1736935200000, 418, "b")]%N app_start)).
Proof.
  assert (NoDup [(1736935200000, 417); (1736935200000, 418)]%N) as Hdraws.
  { apply NoDup_cons. split; [|apply NoDup_singleton].
    intros [=]%list_elem_of_singleton. }
  split; [exact Hdraws|].
  exact (proj2 (ids_distinct_for_distinct_draws (H:=MiniJSON.json))
           [(1736935200000, 417, "a"); (1736935200000, 418, "b")]%N app_start
           eq_refl Hdraws).
Defined.

(** C7.  The ids of the tasks that a sequence of [addTask] calls creates
    are not always pairwise distinct, although the code announces a unique
    id ("id unik timestamp + random"): the id is the clock reading and a
    draw below 1000, and it is never compared with the ids in the
    collection.  Two calls in the same millisecond with the same draw give
    two tasks with one id, and [deleteTask] of that id then removes
    both. *)
Theorem same_draw_same_id :
  App.task_id <$> App.tasks
    (run_addTask (H:=MiniJSON.json)
       [(1736935200000, 417, "a"); (1736935200000, 417, "b")]%N app_start)
  = ["1736935200000-417"; "1736935200000-417"]
  ∧ ¬ NoDup (App.task_id <$> App.tasks
               (run_addTask (H:=MiniJSON.json)
                  [(1736935200000, 417, "a"); (1736935200000, 417, "b")]%N app_start))
  ∧ App.tasks
      (App.deleteTask (H:=MiniJSON.json) "1736935200000-417"
         (run_addTask (H:=MiniJSON.json)
            [(1736935200000, 417, "a"); (1736935200000, 417, "b")]%N app_start)).2
    = [].
Proof.
  assert (App.task_id <$> App.tasks
            (run_addTask (H:=MiniJSON.json)
               [(1736935200000, 417, "a"); (1736935200000, 417, "b")]%N app_start)
          = ["1736935200000-417"; "1736935200000-417"]) as Hids
    by (vm_compute; reflexivity).
  split; [exact Hids|]. split.
  - rewrite Hids. intros [Hnotin _]%NoDup_cons. apply Hnotin. by left.
  - vm_compute. reflexivity.
Qed.

(** ** What the operations leave in memory *)

Lemma filter_fresh id task ts :
  Forall (λ t, ZenStorage.has_id id t = false) ts →
  ZenStorage.has_id id task = true →
  filter (λ t, ZenStorage.has_id id t = false) (ts ++ [task]) = ts.
Proof.
  intros Hts Htask. rewrite filter_app, filter_cons_False, filter_nil, app_nil_r
    by (by rewrite Htask).
  induction Hts as [|t ts Ht _ IH]; [done|].
  by rewrite filter_cons_True, IH by done.
Qed.

Lemma filter_all {A} (P : A → Prop) `{∀ x, Decision (P x)} (l : list A) :
  Forall P l → filter P l = l.
Proof.
  induction 1 as [|x l Hx _ IH]; [done|]. by rewrite filter_cons_True, IH.
Qed.

Lemma Forall_filter_keep {A} (P Q : A → Prop) `{∀ x, Decision (Q x)} (l : list A) :
  Forall P l → Forall P (filter Q l).
Proof.
  rewrite !Forall_forall. intros Hl x [_ Hx]%list_elem_of_filter. by apply Hl.
Qed.

(** With unique ids, putting the deleted task back at its index restores
    the collection. *)
Lemma splice_restores taskId ts i t :
  NoDup (ids ts) →
  ZenStorage.findIndex taskId ts = Some i →
  ts !! i = Some t →
  ZenTaskManager.splice_in i t (filter (λ t, ZenStorage.has_id taskId t = false) ts) = ts.
Proof.
  intros Hnodup Hfind Hi.
  apply findIndex_Some in Hfind as (t' & Hi' & Hid & Hbefore).
  rewrite Hi in Hi'. injection Hi' as <-.
  pose proof (lookup_lt_Some _ _ _ Hi) as Hlen.
  assert (filter (λ t, ZenStorage.has_id taskId t = false) (take i ts) = take i ts)
    as Htake.
  { apply filter_all, Forall_lookup. intros j x [Hj Hlt]%lookup_take_Some. eauto. }
  assert (filter (λ t, ZenStorage.has_id taskId t = false) (drop (S i) ts)
          = drop (S i) ts) as Hdrop.
  { apply filter_all, Forall_lookup. intros j x Hj. rewrite lookup_drop in Hj.
    destruct (ZenStorage.has_id taskId x) eqn:Hx; [|done]. exfalso.
    apply has_id_true in Hid, Hx.
    assert (i = S i + j); [|lia].
    apply (NoDup_lookup (ids ts) _ _ taskId); [done|..]; unfold ids;
      rewrite list_lookup_fmap; [by rewrite Hi; simpl; rewrite Hid
                                |by rewrite Hj; simpl; rewrite Hx]. }
  rewrite <- (take_drop_middle ts i t Hi) at 1.
  rewrite filter_app, filter_cons_False, Htake, Hdrop by (by rewrite Hid).
  unfold ZenTaskManager.splice_in.
  rewrite take_app_length', drop_app_length' by (rewrite length_take; lia).
  by apply take_drop_middle.
Qed.

Section Failed_write.
Context `{JSON}.
Import ZenTaskManager.

(** What [createTask] leaves in memory, by the result of the storage
    call. *)
Lemma manager_createTask_cases now rnd isoC isoU text priority w r w' :
  createTask now rnd isoC isoU text priority w = (r, w') →
  (tasks w' = tasks w ∧ r = Return JNull ∧ ls w' = ls w)
  ∨ ∃ vt p saved l',
      let id := JStr (generateId now rnd) in
      let task := new_task id vt p isoC isoU in
      validateTaskText text = Some vt
      ∧ ZenStorage.addTask (zenStorage w) task (ls w) = (Return saved, l')
      ∧ ls w' = l'
      ∧ if saved
        then r = Return task ∧ tasks w' = tasks w ++ [task]
        else r = Return JNull
             ∧ tasks w' = filter (λ t, ZenStorage.has_id id t = false) (tasks w ++ [task]).
Proof.
  unfold createTask, notifyObservers, storage_call. js_unfold.
  destruct (validateTaskText text) as [[|c vt]|] eqn:Hvt;
    try (intros [= <- <-]; by left).
  simpl.
  match goal with |- context [ZenStorage.addTask ?zs ?t ?l] =>
    destruct (storage_addTask_total zs t l) as (saved & l' & Hadd & _) end.
  rewrite Hadd. intros Hr. right. eexists _, _, saved, l'. split; [done|].
  split; [exact Hadd|].
  destruct saved; simpl in Hr; by simplify_eq.
Qed.

Lemma manager_deleteTask_cases taskId w r w' :
  deleteTask taskId w = (r, w') →
  (ZenStorage.findIndex taskId (tasks w) = None
   ∧ tasks w' = tasks w ∧ r = Return false ∧ ls w' = ls w)
  ∨ ∃ i t deleted l',
      ZenStorage.findIndex taskId (tasks w) = Some i
      ∧ tasks w !! i = Some t
      ∧ ZenStorage.deleteTask (zenStorage w) taskId (ls w) = (Return deleted, l')
      ∧ ls w' = l'
      ∧ r = Return deleted
      ∧ tasks w'
        = if deleted
          then filter (λ t, ZenStorage.has_id taskId t = false) (tasks w)
          else splice_in i t (filter (λ t, ZenStorage.has_id taskId t = false) (tasks w)).
Proof.
  unfold deleteTask, notifyObservers, storage_call. js_unfold; simpl.
  destruct (ZenStorage.findIndex taskId (tasks w)) as [i|] eqn:Hfind;
    [|intros [= <- <-]; by left].
  pose proof Hfind as (t & Hi & _)%findIndex_Some.
  rewrite (list_lookup_total_correct _ _ _ Hi).
  destruct (storage_deleteTask_total (zenStorage w) taskId (ls w))
    as (deleted & l' & Hdel & _).
  rewrite Hdel. intros Hr. right. exists i, t, deleted, l'.
  destruct deleted; simpl in Hr; by simplify_eq.
Qed.

Lemma manager_toggleTask_cases isoU isoC taskId w r w' :
  toggleTask isoU isoC taskId w = (r, w') →
  (tasks w' = tasks w ∧ r = Return false)
  ∨ ∃ i t o l',
      let updates := JObj {["completed" := JBool (negb (truthy (prop t "completed")))]} in
      ZenStorage.findIndex taskId (tasks w) = Some i
      ∧ tasks w !! i = Some t
      ∧ updatedTask isoU isoC taskId updates t = Some o
      ∧ ZenStorage.updateTask (zenStorage w) taskId (JObj o) (ls w) = (Return true, l')
      ∧ r = Return true
      ∧ tasks w' = <[i := JObj o]> (tasks w).
Proof.
  unfold toggleTask, getTaskById. js_unfold.
  destruct (list_find _ (tasks w)) as [[i t]|] eqn:Hfind; simpl;
    [|intros [= <- <-]; by left].
  destruct (truthy t); simpl; [|intros [= <- <-]; by left].
  intros Hup. pose proof Hup as Hup'.
  apply manager_updateTask_cases in Hup
    as [[Hts [->|[_ [[=]|[=]]]]]|(i' & t' & o & l' & Hfi & Hi & Ho & Hst & -> & Hts)];
    [by left|].
  right. exists i', t', o, l'.
  unfold ZenStorage.findIndex in Hfi. rewrite Hfind in Hfi. simplify_eq/=.
  pose proof Hfind as (Hi' & _)%list_find_Some.
  rewrite Hi in Hi'. injection Hi' as ->.
  split_and!; try done. unfold ZenStorage.findIndex. by rewrite Hfind.
Qed.

End Failed_write.

(** ** The completion invariant *)

Section Completion.
Context `{JSON}.
Import ZenTaskManager.

(** What [updatedTask] holds under "completed" and "completedAt". *)
Lemma updatedTask_completion isoU isoC taskId u cur o :
  updatedTask isoU isoC taskId (JObj u) cur = Some o →
  o !! "completed" = (u ∪ own_props cur) !! "completed"
  ∧ o !! "completedAt"
    = if negb (strict_eq (prop (JObj u) "completed") JUndefined)
         && negb (strict_eq (prop (JObj u) "completed") (prop cur "completed"))
      then Some (if truthy (prop (JObj u) "completed") then JStr isoC else JNull)
      else (u ∪ own_props cur) !! "completedAt".
Proof.
  unfold updatedTask, set_prop. cbn [own_props]. intros Ho.
  repeat (case_match; simplify_eq/=); by simplify_map_eq.
Qed.

Lemma updatedTask_invariant isoU isoC taskId updates cur o :
  plain_update updates →
  completion_invariant cur = true →
  updatedTask isoU isoC taskId updates cur = Some o →
  completion_invariant (JObj o) = true.
Proof.
  intros (u & -> & HcompletedAt & Hcompleted) Hcur Ho.
  apply updatedTask_completion in Ho as [Hc Hat].
  unfold completion_invariant in *.
  destruct cur as [| | | | | |c]; try done. cbn [own_props prop] in *.
  rewrite (lookup_union_r u c "completedAt") in Hat by done.
  rewrite Hc, Hat. clear Hc Hat.
  destruct Hcompleted as [Hnone|[b Hb]].
  - rewrite Hnone; simpl. by rewrite (lookup_union_r u c) by done.
  - rewrite Hb, (lookup_union_l' u c) by done. rewrite Hb; simpl.
    destruct (c !! "completed") as [[| |b'| | | |]|] eqn:Hc'; simpl in *; try done.
    destruct b, b'; simpl; try done.
Qed.

Lemma new_task_invariant id text priority isoC isoU :
  completion_invariant (new_task id text priority isoC isoU) = true.
Proof. reflexivity. Qed.

Lemma run_op_invariant op w :
  plain_op op →
  Forall (λ t, completion_invariant t = true) (tasks w) →
  Forall (λ t, completion_invariant t = true) (tasks (run_op w op)).
Proof.
  intros Hop Hw. destruct op as [now rnd isoC isoU text priority
                                |isoU isoC taskId updates|isoU isoC taskId|taskId];
    simpl in *.
  - destruct (createTask now rnd isoC isoU text priority w) as [r w'] eqn:Hc; simpl.
    apply manager_createTask_cases in Hc
      as [(-> & _)|(vt & p & saved & l' & _ & _ & _ & Hcase)]; [done|].
    assert (Forall (λ t, completion_invariant t = true)
              (tasks w ++ [new_task (JStr (generateId now rnd)) vt p isoC isoU])) as Hall.
    { apply Forall_app. split; [done|]. by apply Forall_singleton. }
    destruct saved; destruct Hcase as [_ ->]; [done|]. by apply Forall_filter_keep.
  - destruct (updateTask isoU isoC taskId updates w) as [r w'] eqn:Hu; simpl.
    apply manager_updateTask_cases in Hu
      as [[-> _]|(i & t & o & l' & _ & Hi & Ho & _ & _ & ->)]; [done|].
    apply Forall_insert; [done|].
    eapply updatedTask_invariant; [done| |done].
    by eapply (Forall_lookup_1 _ _ _ _ Hw).
  - destruct (toggleTask isoU isoC taskId w) as [r w'] eqn:Ht; simpl.
    apply manager_toggleTask_cases in Ht
      as [[-> _]|(i & t & o & l' & _ & Hi & Ho & _ & _ & ->)]; [done|].
    apply Forall_insert; [done|].
    eapply updatedTask_invariant; [| |done].
    + eexists. split; [done|]. split; [done|]. right. eexists.
      by rewrite lookup_singleton_eq.
    + by eapply (Forall_lookup_1 _ _ _ _ Hw).
  - destruct (deleteTask taskId w) as [r w'] eqn:Hd; simpl.
    apply manager_deleteTask_cases in Hd
      as [(_ & -> & _)|(i & t & deleted & l' & _ & Hi & _ & _ & _ & ->)]; [done|].
    assert (Forall (λ t, completion_invariant t = true)
              (filter (λ t, ZenStorage.has_id taskId t = false) (tasks w))) as Hf
      by (by apply Forall_filter_keep).
    destruct deleted; [done|]. unfold splice_in.
    apply Forall_app. split; [by apply Forall_take|].
    apply Forall_cons. split; [|by apply Forall_drop].
    by eapply (Forall_lookup_1 _ _ _ _ Hw).
Qed.

Lemma toggle_sets_completedAt isoU isoC taskId w w' :
  toggleTask isoU isoC taskId w = (Return true, w') →
  ∃ i t t',
    ZenStorage.findIndex taskId (tasks w) = Some i
    ∧ tasks w !! i = Some t
    ∧ tasks w' !! i = Some t'
    ∧ prop t' "completed" = JBool (negb (truthy (prop t "completed")))
    ∧ prop t' "completedAt"
      = if truthy (prop t "completed") then JNull else JStr isoC.
Proof.
  intros Ht. apply manager_toggleTask_cases in Ht
    as [[_ [=]]|(i & t & o & l' & Hfind & Hi & Ho & _ & _ & Hts)].
  exists i, t, (JObj o). split_and!; [done..| | |].
  - rewrite Hts. apply list_lookup_insert_eq. by eapply lookup_lt_Some.
  - apply updatedTask_completion in Ho as [Hc _]. unfold prop at 1.
    rewrite Hc, (lookup_union_l' _ _ "completed") by (by rewrite lookup_singleton_eq).
    by rewrite lookup_singleton_eq.
  - apply updatedTask_completion in Ho as [_ Hat]. unfold prop at 1. rewrite Hat.
    unfold prop at 1 2 3. rewrite lookup_singleton_eq; simpl.
    destruct (prop t "completed") as [| |[]| | | |]; simpl; try done;
      by repeat case_match.
Qed.

(** C2.  In [ZenTaskManager], starting from a collection in which every
    task satisfies the invariant ([completed] is true if and only if
    [completedAt] is not null), every task still satisfies it after any
    sequence of create, toggle and delete operations and of updates whose
    partial fields leave [completedAt] alone and give [completed], if at
    all, as a boolean.  A toggle that succeeds flips [completed], sets
    [completedAt] when the task becomes complete and clears it when it
    becomes incomplete.  The tasks of [Store] have no [completedAt] at
    all. *)
Theorem completion_invariant_kept :
  (∀ ops w,
     Forall plain_op ops →
     Forall (λ t, completion_invariant t = true) (tasks w) →
     Forall (λ t, completion_invariant t = true) (tasks (run_ops ops w)))
  ∧ (∀ isoU isoC taskId w w',
       toggleTask isoU isoC taskId w = (Return true, w') →
       ∃ i t t',
         ZenStorage.findIndex taskId (tasks w) = Some i
         ∧ tasks w !! i = Some t
         ∧ tasks w' !! i = Some t'
         ∧ prop t' "completed" = JBool (negb (truthy (prop t "completed")))
         ∧ prop t' "completedAt"
           = if truthy (prop t "completed") then JNull else JStr isoC)
  ∧ (∀ t : Store.Task, prop (Store.task_to_js t) "completedAt" = JUndefined).
Proof.
  split_and!.
  - intros ops. induction ops as [|op ops IH]; intros w Hops Hw; [done|].
    apply Forall_cons in Hops as [Hop Hops]. simpl.
    apply IH; [done|]. by apply run_op_invariant.
  - apply toggle_sets_completedAt.
  - done.
Qed.
End Completion.

Lemma completion_invariant_kept_witness :
  Forall plain_op
    [Create 1 "abc" "2025-01-15T10:00:00.000Z" "2025-01-15T10:00:00.000Z"
       (JStr "Buy milk") (JStr "low");
     Toggle "2025-01-15T10:05:00.000Z" "2025-01-15T10:05:00.000Z" (JStr "task_1_abc")]
  ∧ Forall (λ t, completion_invariant t = true)
      (ZenTaskManager.tasks (manager_on empty_storage []))
  ∧ Forall (λ t, completion_invariant t = true)
      (ZenTaskManager.tasks
         (run_ops (H:=MiniJSON.json)
            [Create 1 "abc" "2025-01-15T10:00:00.000Z" "2025-01-15T10:00:00.000Z"
               (JStr "Buy milk") (JStr "low");
             Toggle "2025-01-15T10:05:00.000Z" "2025-01-15T10:05:00.000Z"
               (JStr "task_1_abc")]
            (manager_on empty_storage []))).
Proof.
  assert (Forall plain_op
    [Create 1 "abc" "2025-01-15T10:00:00.000Z" "2025-01-15T10:00:00.000Z"
       (JStr "Buy milk") (JStr "low");
     Toggle "2025-01-15T10:05:00.000Z" "2025-01-15T10:05:00.000Z" (JStr "task_1_abc")])
    as Hops by (repeat constructor).
  assert (Forall (λ t, completion_invariant t = true)
            (ZenTaskManager.tasks (manager_on empty_storage []))) as Hw
    by constructor.
  split; [exact Hops|]. split; [exact Hw|].
  exact (proj1 (completion_invariant_kept (H:=MiniJSON.json)) _ _ Hops Hw).
Defined.

(** An update that supplies [completedAt] alone leaves an incomplete task
    with a completion time; a task that [Store.toggle] completes has no
    completion time. *)
Lemma completedAt_without_completed :
  (ZenTaskManager.updateTask (H:=MiniJSON.json)
     "2025-01-15T10:05:00.000Z" "2025-01-15T10:05:00.000Z" (JStr "task_1_abc")
     (JObj {["completedAt" := JStr "2020-01-01T00:00:00.000Z"]})
     (manager_on (storage_with [milk]) [milk])).1 = Return true
  ∧ (λ t, (prop t "completed", prop t "completedAt")) <$>
      ZenTaskManager.tasks
        (run_ops (H:=MiniJSON.json)
           [Update "2025-01-15T10:05:00.000Z" "2025-01-15T10:05:00.000Z"
              (JStr "task_1_abc")
              (JObj {["completedAt" := JStr "2020-01-01T00:00:00.000Z"]})]
           (manager_on (storage_with [milk]) [milk]))
    = [(JBool false, JStr "2020-01-01T00:00:00.000Z")]
  ∧ (λ t, (prop t "completed", prop t "completedAt")) <$>
      (Store.task_to_js <$>
         Store.tasks (Store.state
           (Store.toggle (H:=MiniJSON.json) "u1"
              (store_on empty_storage
                 [{| Store.task_id := "u1"; Store.task_title := "Buy milk";
                     Store.task_completed := false |}])).2))
    = [(JBool true, JUndefined)].
Proof. split_and!; vm_compute; reflexivity. Qed.

(** ** Prefixes and occurrences *)

Lemma string_app_cons c s t : String c s +:+ t = String c (s +:+ t).
Proof. reflexivity. Qed.


Lemma prefix_spec term text :
  String.prefix term text = true ↔ ∃ post, text = term +:+ post.
Proof.
  revert text. induction term as [|c term IH]; intros [|d text]; simpl.
  - split; [by exists ""|done].
  - split; [by exists (String d text)|done].
  - split; [done|by intros [? [=]]].
  - destruct (ascii_dec c d) as [->|Hne].
    + rewrite IH. split; intros [post Hpost]; exists post;
        rewrite string_app_cons in *; by simplify_eq.
    + split; [done|]. intros [post [=]]. done.
Qed.

Lemma includes_nil term : includes "" term = String.prefix term "" || false.
Proof. reflexivity. Qed.

Lemma includes_cons d text term :
  includes (String d text) term = String.prefix term (String d text) || includes text term.
Proof. reflexivity. Qed.

Lemma includes_occurs text term : includes text term = true ↔ occurs term text.
Proof.
  unfold occurs. induction text as [|d text IH].
  - rewrite includes_nil, orb_false_r, prefix_spec. split.
    + intros [post Hpost]. by exists "", post.
    + intros ([|? pre] & post & Hpost); [by exists post|done].
  - rewrite includes_cons, orb_true_iff, prefix_spec, IH. split.
    + intros [[post Hpost]|(pre & post & ->)]; [by exists "", post|].
      by exists (String d pre), post.
    + intros ([|c pre] & post & Hpost); [left; by exists post|].
      right. exists pre, post. rewrite string_app_cons in Hpost. by simplify_eq.
Qed.


Lemma list_ascii_app a b :
  String.list_ascii_of_string (a +:+ b)
  = String.list_ascii_of_string a ++ String.list_ascii_of_string b.
Proof. induction a as [|c a IH]; simpl; [done|]. by rewrite IH. Qed.


(** * Further properties of the code *)

(** ** Validation (ZenTaskManager) *)

(** X1.  [validatePriority] always returns one of "low", "medium" and
    "high": the priority it is given when that is one of the three, and
    "medium" for everything else. *)
Theorem validatePriority_valid (priority : JSValue) :
  ZenTaskManager.validatePriority priority ∈ ["low"; "medium"; "high"]
  ∧ (priority = JStr (ZenTaskManager.validatePriority priority)
     ∨ ZenTaskManager.validatePriority priority = "medium"
       ∧ priority ∉ [JStr "low"; JStr "medium"; JStr "high"]).
Proof.
  unfold ZenTaskManager.validatePriority.
  destruct priority as [| | | |p| |]; try (split; [set_solver|right; split; [done|]];
    intros Hin; repeat (apply elem_of_cons in Hin as [[=]|Hin]);
    by apply elem_of_nil in Hin).
  case_bool_decide as Hp; [by split; [|left]|].
  split; [set_solver|]. right. split; [done|]. set_solver.
Qed.

Lemma chars_rev_app s acc :
  chars (String.rev_app s acc) = reverse (chars s) ++ chars acc.
Proof.
  revert acc. induction s as [|c s IH]; intros acc; simpl; [done|].
  by rewrite IH, reverse_cons, <- app_assoc.
Qed.

Lemma chars_rev s : chars (String.rev s) = reverse (chars s).
Proof. unfold String.rev. by rewrite chars_rev_app, app_nil_r. Qed.

Lemma chars_inj s t : chars s = chars t → s = t.
Proof.
  intros Heq. rewrite <- (String.string_of_list_ascii_of_string s),
    <- (String.string_of_list_ascii_of_string t). by rewrite Heq.
Qed.

Lemma string_rev_involutive s : String.rev (String.rev s) = s.
Proof. apply chars_inj. by rewrite !chars_rev, reverse_involutive. Qed.

Lemma length_chars s : length (chars s) = String.length s.
Proof. induction s; simpl; by f_equal. Qed.

(** [trimStart] removes a run of whitespace and stops at the first other
    character. *)
Lemma trimStart_split s :
  ∃ l, chars s = l ++ chars (trimStart s)
       ∧ Forall (λ c, is_ws c = true) l
       ∧ ∀ c, head (chars (trimStart s)) = Some c → is_ws c = false.
Proof.
  induction s as [|c s (l & Hs & Hl & Hhead)]; simpl.
  - exists []. by split_and!.
  - destruct (is_ws c) eqn:Hc.
    + exists (c :: l). split_and!; [by rewrite Hs|by constructor|done].
    + exists []. split_and!; [done|done|]. simpl. by intros ? [= <-].
Qed.

Lemma trimStart_fixed s :
  (∀ c, head (chars s) = Some c → is_ws c = false) → trimStart s = s.
Proof.
  destruct s as [|c s]; [done|]. simpl. intros Hhead.
  by rewrite (Hhead c eq_refl).
Qed.

Lemma head_reverse {A} (l : list A) : head (reverse l) = last l.
Proof.
  induction l as [|x l IH] using rev_ind; [done|].
  by rewrite reverse_snoc, last_snoc.
Qed.

Lemma last_reverse {A} (l : list A) : last (reverse l) = head l.
Proof. by rewrite <- head_reverse, reverse_involutive. Qed.

Lemma last_app_nonempty {A} (l k : list A) x : last k = Some x → last (l ++ k) = Some x.
Proof.
  intros Hk. destruct k as [|y k] using rev_ind; [done|].
  rewrite last_snoc in Hk. by rewrite app_assoc, last_snoc.
Qed.

(** [trim] cuts whitespace off both ends and nothing else. *)
Lemma trim_split s :
  ∃ l r, chars s = l ++ chars (trim s) ++ r
         ∧ Forall (λ c, is_ws c = true) l
         ∧ Forall (λ c, is_ws c = true) r
         ∧ (∀ c, head (chars (trim s)) = Some c → is_ws c = false)
         ∧ (∀ c, last (chars (trim s)) = Some c → is_ws c = false).
Proof.
  destruct (trimStart_split s) as (l & Hs & Hl & Hhead).
  destruct (trimStart_split (String.rev (trimStart s))) as (r & Hr & Hrws & Hlast).
  unfold trim. set (mid := trimStart s) in *.
  set (end_ := trimStart (String.rev mid)) in *.
  rewrite chars_rev in Hr.
  assert (chars mid = reverse (chars end_) ++ reverse r) as Hmid.
  { by rewrite <- reverse_app, <- Hr, reverse_involutive. }
  exists l, (reverse r). rewrite chars_rev. split_and!.
  - by rewrite Hs, Hmid.
  - done.
  - by apply Forall_reverse.
  - intros c Hc. apply Hhead. rewrite Hmid.
    destruct (reverse (chars end_)); [done|]. done.
  - intros c Hc. rewrite last_reverse in Hc. by apply Hlast.
Qed.

Lemma trim_fixed s :
  (∀ c, head (chars s) = Some c → is_ws c = false) →
  (∀ c, last (chars s) = Some c → is_ws c = false) →
  trim s = s.
Proof.
  intros Hhead Hlast. unfold trim. rewrite (trimStart_fixed s) by done.
  rewrite trimStart_fixed, string_rev_involutive; [done|].
  intros c. rewrite chars_rev, head_reverse. apply Hlast.
Qed.

Lemma collapse_single_spaced in_ws s :
  single_spaced in_ws (chars (collapse_ws_go in_ws s)) = true.
Proof.
  revert in_ws. induction s as [|c s IH]; intros in_ws; simpl; [done|].
  destruct (is_ws c) eqn:Hc.
  - destruct in_ws; [apply IH|]. simpl. by rewrite IH.
  - simpl. by rewrite Hc.
Qed.

Lemma collapse_fixed in_ws s :
  single_spaced in_ws (chars s) = true → collapse_ws_go in_ws s = s.
Proof.
  revert in_ws. induction s as [|c s IH]; intros in_ws; simpl; [done|].
  destruct (is_ws c) eqn:Hc.
  - intros [[->%bool_decide_eq_true Hprev]%andb_prop Hrest]%andb_prop.
    destruct in_ws; [done|]. by rewrite IH.
  - intros Hrest. by rewrite IH.
Qed.

Lemma collapse_length in_ws s :
  String.length (collapse_ws_go in_ws s) ≤ String.length s.
Proof.
  revert in_ws. induction s as [|c s IH]; intros in_ws; simpl; [done|].
  destruct (is_ws c); [destruct in_ws|]; simpl;
    [specialize (IH true)|specialize (IH true)|specialize (IH false)]; lia.
Qed.

Lemma collapse_head in_ws s c :
  head (chars s) = Some c → is_ws c = false →
  head (chars (collapse_ws_go in_ws s)) = Some c.
Proof.
  destruct s as [|d s]; [done|]. simpl. intros [= ->] Hc. by rewrite Hc.
Qed.

Lemma last_cons_nonempty {A} (x : A) (l : list A) y :
  last l = Some y → last (x :: l) = Some y.
Proof. by destruct l. Qed.

Lemma collapse_last in_ws s c :
  last (chars s) = Some c → is_ws c = false →
  last (chars (collapse_ws_go in_ws s)) = Some c.
Proof.
  revert in_ws. induction s as [|d s IH]; intros in_ws; [done|].
  intros Hlast Hc. destruct (chars s) as [|e es] eqn:Hs.
  - destruct s; [|done]. simpl in *. injection Hlast as ->.
    by rewrite Hc.
  - assert (last (chars s) = Some c) as Hlast'.
    { simpl in Hlast. by rewrite Hs in *. }
    rewrite <- Hs in *. clear Hs.
    simpl. destruct (is_ws d); [destruct in_ws|].
    + by apply IH.
    + simpl. apply last_cons_nonempty. by apply IH.
    + simpl. apply last_cons_nonempty. by apply IH.
Qed.

Lemma validateTaskText_normal v :
  normal_text v → ZenTaskManager.validateTaskText (JStr v) = Some v.
Proof.
  intros (Hne & Hlen & Hhead & Hlast & Hspaced).
  unfold ZenTaskManager.validateTaskText. rewrite trim_fixed by done.
  rewrite bool_decide_eq_false_2 by (destruct v; [done|simpl; lia]).
  rewrite (proj2 (Nat.ltb_ge _ _)) by done. simpl.
  unfold collapse_ws. by rewrite collapse_fixed.
Qed.

(** The text [validateTaskText] accepts is a string, and what it returns
    is in normal form. *)
Lemma validateTaskText_result text v :
  ZenTaskManager.validateTaskText text = Some v → is_string text = true ∧ normal_text v.
Proof.
  intros Hv. unfold ZenTaskManager.validateTaskText in Hv.
  destruct text as [| | | |s| |]; try done. split; [done|].
  destruct (trim_split s) as (l & r & _ & _ & _ & Hhead & Hlast).
  case_bool_decide as Hlen0; [done|].
  destruct (500 <? String.length (trim s)) eqn:Hlen; [done|].
  apply Nat.ltb_ge in Hlen. simpl in Hv. injection Hv as <-.
  destruct (trim s) as [|c t] eqn:Htrim; [done|].
  pose proof (Hhead c eq_refl) as Hc.
  unfold normal_text, collapse_ws. split_and!.
  - simpl. by rewrite Hc.
  - etrans; [apply collapse_length|done].
  - intros c'. rewrite (collapse_head false (String c t) c) by done. by intros [= <-].
  - intros c' Hc'. destruct (last (chars (String c t))) as [d|] eqn:Hd.
    + rewrite (collapse_last false _ d Hd) in Hc' by (by apply Hlast).
      injection Hc' as <-. by apply Hlast.
    + by apply last_None in Hd.
  - apply collapse_single_spaced.
Qed.

(** X2.  What [validateTaskText] returns is never empty, has at most 500
    characters, no whitespace at either end and inside only single spaces;
    validating it again returns it unchanged.  Values that are not strings
    are rejected. *)
Theorem validateTaskText_normalizes (text : JSValue) (v : string) :
  ZenTaskManager.validateTaskText text = Some v →
  is_string text = true
  ∧ normal_text v
  ∧ ZenTaskManager.validateTaskText (JStr v) = Some v.
Proof.
  intros Hv. destruct (validateTaskText_result _ _ Hv) as [Hstr Hnormal].
  by auto using validateTaskText_normal.
Qed.

Lemma validateTaskText_normalizes_witness :
  ZenTaskManager.validateTaskText (JStr "  Buy   milk ") = Some "Buy milk"
  ∧ normal_text "Buy milk".
Proof.
  assert (ZenTaskManager.validateTaskText (JStr "  Buy   milk ") = Some "Buy milk")
    as Hv by reflexivity.
  split; [exact Hv|].
  exact (proj1 (proj2 (validateTaskText_normalizes _ _ Hv))).
Defined.

(** ** The Store (store.js) *)

Section Store_operations.
Context `{JSON}.
Import Store.

Lemma completed_split (ts : list Task) :
  length (base.filter (λ t, task_completed t = false) ts)
  + length (base.filter (λ t, task_completed t = true) ts) = length ts.
Proof.
  induction ts as [|t ts IH]; [done|].
  destruct (task_completed t) eqn:Ht.
  - rewrite filter_cons_False, filter_cons_True by congruence. simpl. lia.
  - rewrite filter_cons_True, filter_cons_False by congruence. simpl. lia.
Qed.

(** X3.  [stats()] counts every task once: [active] is the number of tasks
    that are not completed, [completed] (computed as the difference) is the
    number of completed ones, and together they make [total]. *)
Theorem stats_counts (w : World) :
  total (stats w) = length (tasks (state w))
  ∧ active (stats w)
    = length (base.filter (λ t, task_completed t = false) (tasks (state w)))
  ∧ completed (stats w)
    = length (base.filter (λ t, task_completed t = true) (tasks (state w)))
  ∧ total (stats w) = active (stats w) + completed (stats w).
Proof.
  unfold stats; simpl. pose proof (completed_split (tasks (state w))) as Hlen.
  split_and!; lia.
Qed.

(** X4.  After [clearCompleted()], whether or not the write to storage
    succeeds, the collection is exactly the tasks that were not completed,
    in their order; none is completed, the active count is unchanged, and
    clearing again changes nothing. *)
Theorem clearCompleted_keeps_active (w : World) :
  let w' := (clearCompleted w).2 in
  tasks (state w') = base.filter (λ t, task_completed t = false) (tasks (state w))
  ∧ filter (state w') = filter (state w)
  ∧ completed (stats w') = 0
  ∧ active (stats w') = active (stats w)
  ∧ tasks (state (clearCompleted w').2) = tasks (state w').
Proof.
  assert (∀ w, tasks (state (clearCompleted w).2)
               = base.filter (λ t, task_completed t = false) (tasks (state w))
               ∧ filter (state (clearCompleted w).2) = filter (state w)) as Hclear.
  { intros w0. unfold clearCompleted, persist, storage.set. js_unfold; simpl.
    by destruct (setItem _ _ _) as [[] ?]. }
  intros w'. destruct (Hclear w) as [Hts Hf]. fold w' in Hts, Hf.
  assert (base.filter (λ t, task_completed t = false) (tasks (state w'))
          = tasks (state w')) as Hidem.
  { rewrite Hts, list_filter_filter. apply list_filter_iff. tauto. }
  split_and!; [done|done| | |].
  - unfold stats; simpl. rewrite Hidem. lia.
  - unfold stats; simpl. by rewrite Hidem, Hts.
  - by rewrite (proj1 (Hclear w')).
Qed.

Lemma toggle_first_twice id ts ts' :
  toggle_first id ts = Some ts' → toggle_first id ts' = Some ts.
Proof.
  revert ts'. induction ts as [|t ts IH]; intros ts'; simpl; [done|].
  case_bool_decide as Hid.
  - intros [= <-]. simpl. rewrite bool_decide_eq_true_2 by done.
    destruct t as [i ti c]; simpl. by rewrite negb_involutive.
  - destruct (toggle_first id ts) as [ts0|] eqn:Hts; [|done].
    intros [= <-]. simpl. rewrite bool_decide_eq_false_2 by done.
    by rewrite (IH ts0).
Qed.

Lemma toggle_first_None id ts :
  toggle_first id ts = None ↔ Forall (λ t, task_id t ≠ id) ts.
Proof.
  induction ts as [|t ts IH]; simpl; [by split|].
  case_bool_decide as Hid.
  - split; [done|]. by intros [? _]%Forall_cons.
  - destruct (toggle_first id ts); simpl.
    + split; [done|]. intros [_ Hts]%Forall_cons. by apply IH in Hts.
    + split; [|done]. intros _. apply Forall_cons. split; [done|]. by apply IH.
Qed.

Lemma toggle_tasks id w :
  tasks (state (toggle id w).2)
  = default (tasks (state w)) (toggle_first id (tasks (state w)))
  ∧ filter (state (toggle id w).2) = filter (state w).
Proof.
  unfold toggle, persist, storage.set. js_unfold; simpl.
  destruct (toggle_first id (tasks (state w))); simpl; [|done].
  by destruct (setItem _ _ _) as [[] ?].
Qed.

(** X5.  Toggling the same id twice leaves the collection as it was,
    whether or not the writes to storage succeed; toggling an id that no
    task has changes nothing and does not write to storage. *)
Theorem toggle_twice (id : string) (w : World) :
  tasks (state (toggle id (toggle id w).2).2) = tasks (state w)
  ∧ (toggle_first id (tasks (state w)) = None → toggle id w = (Return (), w)).
Proof.
  split.
  - rewrite (proj1 (toggle_tasks id _)), (proj1 (toggle_tasks id w)).
    destruct (toggle_first id (tasks (state w))) as [ts'|] eqn:Hts; simpl.
    + by rewrite (toggle_first_twice _ _ _ Hts).
    + by rewrite Hts.
  - intros Hnone. unfold toggle. js_unfold. by rewrite Hnone.
Qed.

(** X6.  Adding a task under an id that no task has and then removing
    that id gives back the collection as it was, whatever the title and
    whether or not the writes to storage succeed. *)
Theorem add_then_remove (uid title : string) (w : World) :
  Forall (λ t, task_id t ≠ uid) (tasks (state w)) →
  tasks (state (remove uid (add uid title w).2).2) = tasks (state w).
Proof.
  intros Hfresh.
  assert (∀ w0, tasks (state (remove uid w0).2)
                = base.filter (λ t, task_id t ≠ uid) (tasks (state w0))) as Hremove.
  { intros w0. unfold remove, persist, storage.set. js_unfold; simpl.
    by destruct (setItem _ _ _) as [[] ?]. }
  rewrite Hremove.
  assert (tasks (state (add uid title w).2) = tasks (state w)
          ∨ ∃ t, task_id t = uid
                 ∧ tasks (state (add uid title w).2) = t :: tasks (state w)) as [->| (t & Ht & ->)].
  { unfold add, persist, storage.set. js_unfold; simpl.
    case_bool_decide; simpl; [by left|].
    right. eexists. split; [|by destruct (setItem _ _ _) as [[] ?]]. done. }
  - by apply filter_all.
  - rewrite filter_cons_False by (by intros ?). by apply filter_all.
Qed.

Lemma persist_returns w w' :
  persist w = (Return (), w') →
  state w' = state w
  ∧ ls_items (ls w') !! storage.ns KEY = Some (JSON_stringify (state_to_js (state w))).
Proof.
  unfold persist, storage.set, setItem, storage.safeJSON.stringify. js_unfold.
  destruct (ls_enabled (ls w)); [|done].
  destruct (N.leb _ _); [|done].
  intros [= <-]; simpl. by rewrite lookup_insert_eq.
Qed.

(** X7.  Whenever [add], [toggle], [remove], [clearCompleted] or
    [setFilter] returns normally after changing the state, localStorage
    holds under "zen-tasker:state" the serialization of the state that is
    then in memory. *)
Theorem store_persists_state (w w' : World) :
  ((∃ uid title task, add uid title w = (Return (Some task), w'))
   ∨ (∃ id, is_Some (toggle_first id (tasks (state w))) ∧ toggle id w = (Return (), w'))
   ∨ (∃ id, remove id w = (Return (), w'))
   ∨ clearCompleted w = (Return (), w')
   ∨ (∃ f, setFilter f w = (Return (), w'))) →
  ls_items (ls w') !! "zen-tasker:state" = Some (JSON_stringify (state_to_js (state w'))).
Proof.
  intros Hop.
  assert (∀ w0, persist w0 = (Return (), w') →
                ls_items (ls w') !! "zen-tasker:state"
                = Some (JSON_stringify (state_to_js (state w')))) as Hpersist.
  { intros w0 Hp. apply persist_returns in Hp as [-> Hitems]. done. }
  destruct Hop as [(uid & title & task & Hadd)|[(id & [ts' Hts] & Htoggle)
                  |[(id & Hremove)|[Hclear|(f & Hset)]]]].
  - unfold add in Hadd. js_unfold. simpl in Hadd.
    case_bool_decide; [done|]. simpl in Hadd.
    destruct (persist _) as [[[]|] w0] eqn:Hp; simplify_eq/=. by eapply Hpersist.
  - unfold toggle in Htoggle. js_unfold. rewrite Hts in Htoggle. simpl in Htoggle.
    by eapply Hpersist.
  - unfold remove in Hremove. js_unfold. simpl in Hremove.
    by eapply Hpersist.
  - unfold clearCompleted in Hclear. js_unfold. simpl in Hclear.
    by eapply Hpersist.
  - unfold setFilter in Hset. js_unfold. simpl in Hset.
    by eapply Hpersist.
Qed.
End Store_operations.

Lemma toggle_twice_witness :
  Store.toggle_first "nobody" (Store.tasks (Store.state store_after_add)) = None
  ∧ Store.toggle (H:=MiniJSON.json) "nobody" store_after_add
    = (Return (), store_after_add)
  ∧ Store.tasks (Store.state
      (Store.toggle (H:=MiniJSON.json) "u1"
         (Store.toggle (H:=MiniJSON.json) "u1" store_after_add).2).2)
    = Store.tasks (Store.state store_after_add).
Proof.
  assert (Store.toggle_first "nobody" (Store.tasks (Store.state store_after_add))
          = None) as Hnone by (vm_compute; reflexivity).
  split; [exact Hnone|]. split.
  - exact (proj2 (toggle_twice (H:=MiniJSON.json) "nobody" store_after_add) Hnone).
  - exact (proj1 (toggle_twice (H:=MiniJSON.json) "u1" store_after_add)).
Defined.

Lemma add_then_remove_witness :
  Forall (λ t, Store.task_id t ≠ "u2") (Store.tasks (Store.state store_after_add))
  ∧ Store.tasks (Store.state
      (Store.remove (H:=MiniJSON.json) "u2"
         (Store.add (H:=MiniJSON.json) "u2" "Walk" store_after_add).2).2)
    = Store.tasks (Store.state store_after_add).
Proof.
  assert (Forall (λ t, Store.task_id t ≠ "u2")
            (Store.tasks (Store.state store_after_add))) as Hfresh.
  { change (Store.tasks (Store.state store_after_add))
      with [{| Store.task_id := "u1"; Store.task_title := "Buy milk";
               Store.task_completed := false |}].
    by repeat constructor. }
  split; [exact Hfresh|].
  exact (add_then_remove (H:=MiniJSON.json) "u2" "Walk" store_after_add Hfresh).
Defined.

Lemma store_persists_state_witness :
  Store.add (H:=MiniJSON.json) "u1" "Buy milk" (store_on empty_storage [])
  = (Return (Some {| Store.task_id := "u1"; Store.task_title := "Buy milk";
                     Store.task_completed := false |}), store_after_add)
  ∧ ls_items (Store.ls store_after_add) !! "zen-tasker:state"
    = Some (MiniJSON.stringify (Store.state_to_js (Store.state store_after_add))).
Proof.
  assert (Store.add (H:=MiniJSON.json) "u1" "Buy milk" (store_on empty_storage [])
          = (Return (Some {| Store.task_id := "u1"; Store.task_title := "Buy milk";
                             Store.task_completed := false |}), store_after_add))
    as Hadd by (vm_compute; reflexivity).
  split; [exact Hadd|].
  exact (store_persists_state (H:=MiniJSON.json) _ _
           (or_introl (ex_intro _ _ (ex_intro _ _ (ex_intro _ _ Hadd))))).
Defined.

(** ** The storage wrapper (storage.js) *)

Section Storage_wrapper.
Context `{JSON}.

Lemma ns_inj key key' : storage.ns key = storage.ns key' → key = key'.
Proof. unfold storage.ns. intros Heq. by repeat apply (inj (String.app _)) in Heq. Qed.

Lemma storage_set_returns key value l l' :
  storage.set key value l = (Return (), l') →
  ls_enabled l = true
  ∧ l' = ls_with_items (<[storage.ns key := JSON_stringify value]> (ls_items l)) l.
Proof.
  unfold storage.set, storage.safeJSON.stringify, setItem.
  destruct (ls_enabled l); [|done]. destruct (N.leb _ _); [|done].
  by intros [= <-].
Qed.

(** X8.  A value written with [storage.set] is what [storage.get]
    returns for that key afterwards (when the platform's JSON reads back
    what it wrote), whatever the fallback; entries under other keys read
    as before. *)
Theorem storage_set_get (key : string) (value : JSValue) (l l' : LocalStorage) :
  storage.set key value l = (Return (), l') →
  JSON_parse (JSON_stringify value) = Some value →
  (∀ fallback, storage.get key fallback l' = (Return value, l'))
  ∧ (∀ key' fallback,
       key' ≠ key →
       (storage.get key' fallback l').1 = (storage.get key' fallback l).1).
Proof.
  intros [Hen ->]%storage_set_returns Hparse. split.
  - intros fallback.
    unfold storage.get, storage.safeJSON.parse, getItem, parse_raw. js_unfold; simpl.
    rewrite Hen, lookup_insert_eq; simpl. by rewrite Hparse.
  - intros key' fallback Hne.
    unfold storage.get, storage.safeJSON.parse, getItem, parse_raw. js_unfold; simpl.
    rewrite Hen, lookup_insert_ne by (intros ?%ns_inj; done).
    destruct (JSON_parse (default "null" (ls_items l !! storage.ns key')));
      reflexivity.
Qed.

(** X9.  [storage.keys()] lists exactly the stored keys that begin with
    "zen-tasker:"; after [set(key, value)] returns it contains
    "zen-tasker:" followed by the key, after [remove(key)] it does not. *)
Theorem storage_keys_namespaced (l : LocalStorage) :
  ls_enabled l = true →
  (∃ ks, storage.keys l = (Return ks, l)
         ∧ ∀ k, k ∈ ks ↔ is_Some (ls_items l !! k)
                         ∧ ∃ rest, k = "zen-tasker:" +:+ rest)
  ∧ (∀ key value l' ks,
       storage.set key value l = (Return (), l') →
       storage.keys l' = (Return ks, l') → "zen-tasker:" +:+ key ∈ ks)
  ∧ (∀ key l' ks,
       storage.remove key l = (Return (), l') →
       storage.keys l' = (Return ks, l') → "zen-tasker:" +:+ key ∉ ks).
Proof.
  intros Hen.
  assert (∀ l0 ks, ls_enabled l0 = true →
            storage.keys l0 = (Return ks, l0) →
            ∀ k, k ∈ ks ↔ is_Some (ls_items l0 !! k)
                            ∧ ∃ rest, k = "zen-tasker:" +:+ rest) as Hkeys.
  { intros l0 ks Hen0. unfold storage.keys. rewrite Hen0. intros [= <-] k.
    rewrite list_elem_of_filter, prefix_spec, list_elem_of_fmap.
    split.
    - intros [Hpre ([k' v] & -> & Hin%elem_of_map_to_list)]. split; [by eexists|done].
    - intros [[v Hv] Hpre]. split; [done|]. exists (k, v). split; [done|].
      by apply elem_of_map_to_list. }
  split_and!.
  - eexists. split; [unfold storage.keys; by rewrite Hen|].
    apply Hkeys; [done|]. unfold storage.keys. by rewrite Hen.
  - intros key value l' ks [_ ->]%storage_set_returns Hks.
    change (ls_enabled (ls_with_items
              (<[storage.ns key := JSON_stringify value]> (ls_items l)) l) = true)
      in Hen.
    apply (Hkeys _ ks Hen Hks). split; [|by eexists].
    simpl. change ("zen-tasker:" +:+ key) with (storage.ns key).
    by rewrite lookup_insert_eq.
  - intros key l' ks Hrm Hks. unfold storage.remove, removeItem in Hrm.
    rewrite Hen in Hrm. injection Hrm as <-.
    change (ls_enabled (ls_with_items (delete (storage.ns key) (ls_items l)) l) = true)
      in Hen.
    intros Hin. apply (Hkeys _ ks Hen Hks) in Hin as [[v Hv] _].
    simpl in Hv.
    change ("zen-tasker:" +:+ key) with (storage.ns key) in Hv.
    by rewrite lookup_delete_eq in Hv.
Qed.
End Storage_wrapper.

Lemma storage_set_get_witness :
  storage.set (H:=MiniJSON.json) "state" (Store.state_to_js Store.initial) empty_storage
  = (Return (),
     (storage.set (H:=MiniJSON.json) "state" (Store.state_to_js Store.initial)
        empty_storage).2)
  ∧ MiniJSON.parse (MiniJSON.stringify (Store.state_to_js Store.initial))
    = Some (Store.state_to_js Store.initial)
  ∧ storage.get (H:=MiniJSON.json) "state" JNull
      (storage.set (H:=MiniJSON.json) "state" (Store.state_to_js Store.initial)
         empty_storage).2
    = (Return (Store.state_to_js Store.initial),
       (storage.set (H:=MiniJSON.json) "state" (Store.state_to_js Store.initial)
          empty_storage).2).
Proof.
  assert (storage.set (H:=MiniJSON.json) "state" (Store.state_to_js Store.initial)
            empty_storage
          = (Return (),
             (storage.set (H:=MiniJSON.json) "state" (Store.state_to_js Store.initial)
                empty_storage).2)) as Hset by (vm_compute; reflexivity).
  assert (MiniJSON.parse (MiniJSON.stringify (Store.state_to_js Store.initial))
          = Some (Store.state_to_js Store.initial)) as Hparse
    by (vm_compute; reflexivity).
  split; [exact Hset|]. split; [exact Hparse|].
  exact (proj1 (storage_set_get (H:=MiniJSON.json) _ _ _ _ Hset Hparse) JNull).
Defined.

Lemma storage_keys_namespaced_witness :
  ls_enabled (Store.ls store_after_add) = true
  ∧ ∃ ks, storage.keys (Store.ls store_after_add) = (Return ks, Store.ls store_after_add)
          ∧ ∀ k, k ∈ ks ↔ is_Some (ls_items (Store.ls store_after_add) !! k)
                          ∧ ∃ rest, k = "zen-tasker:" +:+ rest.
Proof.
  assert (ls_enabled (Store.ls store_after_add) = true) as Hen
    by (vm_compute; reflexivity).
  split; [exact Hen|].
  exact (proj1 (storage_keys_namespaced (H:=MiniJSON.json) (Store.ls store_after_add)
                  Hen)).
Defined.

(** ** ZenStorage *)

Section Zen_storage.
Context `{JSON}.
Import ZenStorage.

(** X10.  Building the instance always returns.  The storage is marked
    available exactly when the probe write succeeds; in that case the only
    change to localStorage is that the entry under the probe key is gone
    (also one that was there before), and otherwise nothing changes. *)
Theorem constructor_effect (l0 : LocalStorage) :
  ∃ zs l1,
    constructor l0 = (Return zs, l1)
    ∧ storageKey zs = "zenTasker_tasks"
    ∧ settingsKey zs = "zenTasker_settings"
    ∧ isStorageAvailable zs
      = match (setItem "__storage_test__" "__storage_test__" l0).1 with
        | Return _ => true
        | Throw _ => false
        end
    ∧ l1 = if isStorageAvailable zs
           then ls_with_items (delete "__storage_test__" (ls_items l0)) l0
           else l0.
Proof.
  unfold constructor, checkStorageAvailability, probe, setItem, removeItem.
  js_unfold; simpl.
  destruct l0 as [items [] quota]; simpl; [|by eexists _, _].
  destruct (N.leb _ _); simpl; eexists _, _; split_and!; try done; simpl.
  unfold ls_with_items; simpl. by rewrite delete_insert_eq.
Qed.

(** X11.  [getSettings] always returns, leaves localStorage as it is,
    and gives an object in which every default setting is present.  When
    storage holds under the settings key a text that parses, the result is
    the parsed settings laid over the defaults: a stored key has its stored
    value, any other key its default.  When storage is unavailable or
    disabled, holds nothing or the empty text under the key, or holds text
    that does not parse, the result is the defaults. *)
Theorem getSettings_has_defaults (zs : ZenStorage.t) (l : LocalStorage) :
  (∃ loaded,
     getSettings zs l = (Return (JObj loaded), l)
     ∧ ∀ k, is_Some (own_props getDefaultSettings !! k) → is_Some (loaded !! k))
  ∧ (∀ raw settings,
       isStorageAvailable zs = true →
       ls_enabled l = true →
       ls_items l !! settingsKey zs = Some raw →
       raw ≠ "" →
       JSON_parse raw = Some settings →
       ∃ loaded,
         getSettings zs l = (Return loaded, l)
         ∧ (∀ k v, own_props settings !! k = Some v → prop loaded k = v)
         ∧ (∀ k, own_props settings !! k = None →
                 prop loaded k = prop getDefaultSettings k))
  ∧ (isStorageAvailable zs = false
     ∨ ls_enabled l = false
     ∨ ls_items l !! settingsKey zs = None
     ∨ ls_items l !! settingsKey zs = Some ""
     ∨ (∃ raw, ls_items l !! settingsKey zs = Some raw ∧ JSON_parse raw = None) →
     getSettings zs l = (Return getDefaultSettings, l)).
Proof.
  assert (JObj (∅ ∪ own_props getDefaultSettings) = getDefaultSettings) as Hempty.
  { by rewrite (left_id ∅ (∪)). }
  split_and!.
  - assert (∃ loaded, (Return getDefaultSettings, l) = (Return (JObj loaded), l)
                      ∧ ∀ k, is_Some (own_props getDefaultSettings !! k)
                             → is_Some (loaded !! k)) as Hdefault.
    { eexists. split; [reflexivity|]. done. }
    assert (∀ stored : gmap string JSValue,
              ∃ loaded,
                (Return (JObj (stored ∪ own_props getDefaultSettings)), l)
                = (Return (JObj loaded), l)
                ∧ ∀ k, is_Some (own_props getDefaultSettings !! k)
                       → is_Some (loaded !! k)) as Hover.
    { intros stored. eexists. split; [reflexivity|].
      intros k [v Hk]. rewrite lookup_union. rewrite Hk.
      destruct (stored !! k); by eexists. }
    unfold getSettings, getItem, parse_raw. js_unfold.
    destruct (isStorageAvailable zs); simpl; [|apply Hdefault].
    destruct (ls_enabled l); simpl; [|apply Hdefault].
    destruct (ls_items l !! settingsKey zs) as [[|c raw]|]; simpl;
      [apply Hover| |apply Hover].
    destruct (JSON_parse (String c raw)); simpl; [apply Hover|apply Hdefault].
  - intros raw settings Hzs Hen Hraw Hne Hparse.
    exists (JObj (own_props settings ∪ own_props getDefaultSettings)). split_and!.
    + unfold getSettings, getItem, parse_raw. js_unfold. rewrite Hzs; simpl.
      rewrite Hen, Hraw. destruct raw as [|c raw]; [done|]; simpl.
      by rewrite Hparse.
    + intros k v Hk. unfold prop. by rewrite (lookup_union_Some_l _ _ _ _ Hk).
    + intros k Hk. unfold prop at 1. by rewrite lookup_union_r.
  - unfold getSettings, getItem, parse_raw. js_unfold.
    intros [Hzs|[Hen|[Hraw|[Hraw|(raw & Hraw & Hparse)]]]].
    + by rewrite Hzs.
    + destruct (isStorageAvailable zs); simpl; [|done]. by rewrite Hen.
    + destruct (isStorageAvailable zs); simpl; [|done].
      destruct (ls_enabled l); simpl; [|done]. rewrite Hraw; simpl.
      exact (f_equal (λ v, (Return v, l)) Hempty).
    + destruct (isStorageAvailable zs); simpl; [|done].
      destruct (ls_enabled l); simpl; [|done]. rewrite Hraw; simpl.
      exact (f_equal (λ v, (Return v, l)) Hempty).
    + destruct (isStorageAvailable zs); simpl; [|done].
      destruct (ls_enabled l); simpl; [|done]. rewrite Hraw.
      destruct raw as [|c raw]; simpl;
        [exact (f_equal (λ v, (Return v, l)) Hempty)|].
      by rewrite Hparse.
Qed.

(** X12.  On an available, enabled storage [clearAll] returns true and
    removes the entries under the two keys and nothing else; [getTasks]
    then returns the empty list and [getSettings] the defaults. *)
Theorem clearAll_clears (zs : ZenStorage.t) (l : LocalStorage) :
  isStorageAvailable zs = true →
  ls_enabled l = true →
  let l' := ls_with_items (delete (settingsKey zs) (delete (storageKey zs) (ls_items l))) l in
  clearAll zs l = (Return true, l')
  ∧ getTasks zs l' = (Return [], l')
  ∧ getSettings zs l' = (Return getDefaultSettings, l').
Proof.
  intros Hzs Hen l'. split_and!.
  - unfold clearAll, removeItem. js_unfold. rewrite Hzs; simpl.
    rewrite Hen; simpl. by rewrite Hen.
  - unfold getTasks, getItem. js_unfold. rewrite Hzs; simpl.
    subst l'; simpl. rewrite Hen; simpl.
    destruct (decide (settingsKey zs = storageKey zs)) as [->|Hne].
    + by rewrite lookup_delete_eq.
    + by rewrite lookup_delete_ne, lookup_delete_eq.
  - unfold getSettings, getItem. js_unfold. rewrite Hzs; simpl.
    subst l'; simpl. rewrite Hen; simpl.
    by rewrite lookup_delete_eq.
Qed.

(** X13.  [addTask] of a record that fails the shape check of
    [saveTasks] (no id, no text, or a text that is not a string) writes
    what saving the stored tasks alone would write, and returns what that
    returns: the record is dropped without any sign to the caller. *)
Theorem addTask_drops_unsavable (zs : ZenStorage.t) (task : JSValue)
    (l : LocalStorage) (stored : list JSValue) :
  savable task = false →
  getTasks zs l = (Return stored, l) →
  addTask zs task l = saveTasks zs stored l.
Proof.
  intros Htask Hget. unfold addTask. js_unfold. rewrite Hget.
  unfold saveTasks. destruct (isStorageAvailable zs); simpl; [|done].
  by rewrite filter_app, filter_cons_False, filter_nil, app_nil_r by (by rewrite Htask).
Qed.

Lemma getTasks_loadable zs l stored :
  getTasks zs l = (Return stored, l) → Forall (λ t, loadable t = true) stored.
Proof.
  unfold getTasks, getItem, parse_raw, array_filter. js_unfold.
  destruct (isStorageAvailable zs); simpl; [|by intros [= <-]].
  destruct (ls_enabled l); simpl; [|by intros [= <-]].
  destruct (ls_items l !! storageKey zs) as [[|c raw]|]; simpl;
    try by intros [= <-].
  destruct (JSON_parse (String c raw)) as [[| | | | |arr|]|]; simpl;
    try by intros [= <-].
  intros [= <-]. apply Forall_forall. by intros t [? _]%list_elem_of_filter.
Qed.

Lemma filter_by_search search stored :
  search ≠ "" →
  Forall (λ t, loadable t = true) stored →
  filter_by (JObj {["search" := JStr search]}) stored
  = Return (filter (λ t, text_includes search t = true) stored).
Proof.
  intros Hsearch. induction 1 as [|t stored Ht _ IH]; [done|].
  cbn [filter_by]. rewrite IH.
  unfold matches_criteria, text_includes.
  unfold prop at 1 2 3 4 5 6 7. simplify_map_eq. simpl.
  rewrite bool_decide_eq_false_2 by done. simpl.
  unfold loadable, is_string in Ht.
  destruct (prop t "text") as [| | | |text| |] eqn:Htext;
    try (by rewrite !andb_false_r in Ht).
  destruct (includes (toLowerCase text) (toLowerCase search)) eqn:Hinc.
  - by rewrite filter_cons_True by (by rewrite Htext).
  - by rewrite filter_cons_False by (by rewrite Htext, Hinc).
Qed.

Lemma filter_by_empty stored : filter_by (JObj ∅) stored = Return stored.
Proof. induction stored as [|t stored IH]; [done|]. cbn [filter_by]. by rewrite IH. Qed.

(** X14.  [getTasksByCriteria] with only a non-empty [search] string
    returns, in their order, the stored tasks whose lower-cased text
    contains the whole lower-cased search string as one piece; with no
    criteria it returns every stored task. *)
Theorem getTasksByCriteria_search (zs : ZenStorage.t) (l : LocalStorage)
    (stored : list JSValue) (search : string) :
  getTasks zs l = (Return stored, l) →
  search ≠ "" →
  getTasksByCriteria zs (JObj {["search" := JStr search]}) l
  = (Return (filter (λ t, text_includes search t = true) stored), l)
  ∧ (∀ task,
       task ∈ filter (λ t, text_includes search t = true) stored
       ↔ task ∈ stored
         ∧ ∃ text, prop task "text" = JStr text
                   ∧ occurs (toLowerCase search) (toLowerCase text))
  ∧ getTasksByCriteria zs JUndefined l = (Return stored, l)
  ∧ getTasksByCriteria zs (JObj ∅) l = (Return stored, l).
Proof.
  intros Hget Hsearch. pose proof (getTasks_loadable _ _ _ Hget) as Hload.
  unfold getTasksByCriteria. js_unfold. rewrite Hget. split_and!.
  - by rewrite filter_by_search.
  - intros task. rewrite list_elem_of_filter. unfold text_includes.
    split.
    + intros [Hinc Hin]. split; [done|].
      destruct (prop task "text") as [| | | |text| |]; try done.
      exists text. split; [done|]. by apply includes_occurs.
    + intros [Hin (text & -> & Hocc)]. split; [|done]. by apply includes_occurs.
  - by rewrite filter_by_empty.
  - by rewrite filter_by_empty.
Qed.

Lemma saveSettings_total zs settings l :
  ∃ b l', saveSettings zs settings l = (Return b, l').
Proof.
  unfold saveSettings, setItem. js_unfold.
  destruct (isStorageAvailable zs); simpl; [|by eexists _, _].
  destruct (ls_enabled l); simpl; [|by eexists _, _].
  destruct (N.leb _ _); simpl; by eexists _, _.
Qed.

(** X15.  [importTasks] returns false and leaves localStorage as it is
    when the text does not parse or the parsed data has no [tasks] array;
    otherwise it returns what [saveTasks] returns for that array, whether
    or not the settings that came with it could be saved. *)
Theorem importTasks_result (zs : ZenStorage.t) (jsonData : string) (l : LocalStorage) :
  (JSON_parse jsonData = None → importTasks zs jsonData l = (Return false, l))
  ∧ (∀ importData,
       JSON_parse jsonData = Some importData →
       (∀ tasks, prop importData "tasks" ≠ JArr tasks) →
       importTasks zs jsonData l = (Return false, l))
  ∧ (∀ importData tasks,
       JSON_parse jsonData = Some importData →
       prop importData "tasks" = JArr tasks →
       (importTasks zs jsonData l).1 = (saveTasks zs tasks l).1).
Proof.
  unfold importTasks, parse_raw. js_unfold; simpl. split_and!.
  - by intros ->.
  - intros importData -> Htasks. simpl.
    destruct (prop importData "tasks"); try done. by destruct (Htasks l0).
  - intros importData tasks -> ->. simpl.
    destruct (saveTasks_total zs tasks l) as (b & l' & -> & _). simpl.
    destruct (truthy (prop importData "settings")); simpl; [|done].
    by destruct (saveSettings_total zs (prop importData "settings") l')
      as (b' & l'' & ->).
Qed.
End Zen_storage.

Lemma getSettings_has_defaults_witness :
  ls_items (ZenStorage.saveSettings (H:=MiniJSON.json) zenStorage_available dark_theme
              empty_storage).2 !! "zenTasker_settings"
  = Some (MiniJSON.stringify dark_theme)
  ∧ MiniJSON.stringify dark_theme ≠ ""
  ∧ MiniJSON.parse (MiniJSON.stringify dark_theme) = Some dark_theme
  ∧ ∃ loaded,
      ZenStorage.getSettings (H:=MiniJSON.json) zenStorage_available
        (ZenStorage.saveSettings (H:=MiniJSON.json) zenStorage_available dark_theme
           empty_storage).2
      = (Return loaded,
         (ZenStorage.saveSettings (H:=MiniJSON.json) zenStorage_available dark_theme
            empty_storage).2)
      ∧ prop loaded "theme" = JStr "dark"
      ∧ prop loaded "soundEnabled" = JBool false.
Proof.
  assert (ls_items (ZenStorage.saveSettings (H:=MiniJSON.json) zenStorage_available
                      dark_theme empty_storage).2 !! "zenTasker_settings"
          = Some (MiniJSON.stringify dark_theme)) as Hraw by (vm_compute; reflexivity).
  assert (MiniJSON.stringify dark_theme ≠ "") as Hne by (vm_compute; discriminate).
  assert (MiniJSON.parse (MiniJSON.stringify dark_theme) = Some dark_theme) as Hparse
    by (vm_compute; reflexivity).
  split; [exact Hraw|]. split; [exact Hne|]. split; [exact Hparse|].
  destruct (proj1 (proj2 (getSettings_has_defaults (H:=MiniJSON.json)
                            zenStorage_available
                            (ZenStorage.saveSettings (H:=MiniJSON.json)
                               zenStorage_available dark_theme empty_storage).2))
              (MiniJSON.stringify dark_theme) dark_theme eq_refl eq_refl Hraw Hne Hparse)
    as (loaded & Hget & Hsaved & Hdefault).
  exists loaded. split; [exact Hget|]. split.
  - apply Hsaved. reflexivity.
  - rewrite Hdefault by reflexivity. reflexivity.
Defined.

Lemma clearAll_clears_witness :
  ZenStorage.isStorageAvailable zenStorage_available = true
  ∧ ls_enabled (storage_with [milk]) = true
  ∧ ZenStorage.getTasks (H:=MiniJSON.json) zenStorage_available
      (ZenStorage.clearAll zenStorage_available (storage_with [milk])).2
    = (Return [], (ZenStorage.clearAll zenStorage_available (storage_with [milk])).2).
Proof.
  assert (ls_enabled (storage_with [milk]) = true) as Hen by (vm_compute; reflexivity).
  split; [reflexivity|]. split; [exact Hen|].
  destruct (clearAll_clears (H:=MiniJSON.json) zenStorage_available
              (storage_with [milk]) eq_refl Hen) as (-> & Hget & _).
  exact Hget.
Defined.

Lemma addTask_drops_unsavable_witness :
  ZenStorage.savable untitled = false
  ∧ ZenStorage.getTasks (H:=MiniJSON.json) zenStorage_available (storage_with [milk])
    = (Return [milk], storage_with [milk])
  ∧ ZenStorage.addTask (H:=MiniJSON.json) zenStorage_available untitled
      (storage_with [milk])
    = ZenStorage.saveTasks (H:=MiniJSON.json) zenStorage_available [milk]
        (storage_with [milk]).
Proof.
  assert (ZenStorage.getTasks (H:=MiniJSON.json) zenStorage_available
            (storage_with [milk]) = (Return [milk], storage_with [milk])) as Hget
    by (vm_compute; reflexivity).
  split; [reflexivity|]. split; [exact Hget|].
  exact (addTask_drops_unsavable (H:=MiniJSON.json) zenStorage_available untitled
           (storage_with [milk]) [milk] eq_refl Hget).
Defined.

Lemma getTasksByCriteria_search_witness :
  ZenStorage.getTasks (H:=MiniJSON.json) zenStorage_available (storage_with [milk])
  = (Return [milk], storage_with [milk])
  ∧ "MILK" ≠ ""
  ∧ ZenStorage.getTasksByCriteria (H:=MiniJSON.json) zenStorage_available
      (JObj {["search" := JStr "MILK"]}) (storage_with [milk])
    = (Return (filter (λ t, text_includes "MILK" t = true) [milk]), storage_with [milk]).
Proof.
  assert (ZenStorage.getTasks (H:=MiniJSON.json) zenStorage_available
            (storage_with [milk]) = (Return [milk], storage_with [milk])) as Hget
    by (vm_compute; reflexivity).
  assert ("MILK" ≠ "") as Hne by discriminate.
  split; [exact Hget|]. split; [exact Hne|].
  exact (proj1 (getTasksByCriteria_search (H:=MiniJSON.json) zenStorage_available
                  (storage_with [milk]) [milk] "MILK" Hget Hne)).
Defined.

Lemma importTasks_result_witness :
  MiniJSON.parse "{oops" = None
  ∧ ZenStorage.importTasks (H:=MiniJSON.json) zenStorage_available "{oops"
      (storage_with [milk])
    = (Return false, storage_with [milk]).
Proof.
  assert (MiniJSON.parse "{oops" = None) as Hparse by reflexivity.
  split; [exact Hparse|].
  exact (proj1 (importTasks_result (H:=MiniJSON.json) zenStorage_available "{oops"
                  (storage_with [milk])) Hparse).
Defined.

(** ** ZenTaskManager *)

Section Zen_task_manager.
Context `{JSON}.
Import ZenTaskManager.

Lemma loadable_object t :
  ZenStorage.loadable t = true →
  ∃ o id text, t = JObj o ∧ o !! "id" = Some (JStr id) ∧ o !! "text" = Some (JStr text).
Proof.
  unfold ZenStorage.loadable, is_string, prop.
  destruct t as [| | | | | |o]; simpl; rewrite ?andb_false_r; try done.
  destruct (o !! "id") as [[| | | |id| |]|] eqn:Hid; simpl; try done.
  destruct (o !! "text") as [[| | | |text| |]|] eqn:Htext; simpl; try done.
  intros _. by exists o, id, text.
Qed.

(** X16.  [loadTasks] always returns, leaves localStorage as it is, and
    puts in memory what [getTasks] gives: every task it loads is an object
    whose id and text are strings, whatever localStorage held. *)
Theorem loadTasks_well_formed (w : World) :
  ∃ stored,
    ZenStorage.getTasks (zenStorage w) (ls w) = (Return stored, ls w)
    ∧ loadTasks w
      = (Return (),
         {| tasks := stored; currentFilter := currentFilter w; settings := settings w;
            emitted := emitted w ++ [tasksLoaded stored];
            zenStorage := zenStorage w; ls := ls w |})
    ∧ Forall (λ t, ∃ o id text,
                t = JObj o ∧ o !! "id" = Some (JStr id) ∧ o !! "text" = Some (JStr text))
        stored.
Proof.
  destruct (getTasks_total (zenStorage w) (ls w)) as [stored Hget].
  exists stored. split_and!; [done| |].
  - unfold loadTasks, storage_call, notifyObservers. js_unfold; simpl.
    rewrite Hget. by destruct w.
  - eapply Forall_impl; [by eapply getTasks_loadable|]. apply loadable_object.
Qed.

Lemma validatePriority_default priority :
  validatePriority (match priority with JUndefined => JStr "medium" | p => p end)
  = validatePriority priority.
Proof. by destruct priority. Qed.

(** X17.  When [createTask] returns a task, the task is the last one of
    the collection in memory; its text is the validated text, its priority
    a valid one, it is not completed and has no completion time; it passes
    the shape checks of both [saveTasks] and [getTasks]; localStorage holds
    the stored tasks followed by it; and the events emitted are
    'taskCreated' and 'tasksUpdated'. *)
Theorem createTask_success now rnd isoC isoU text priority w task w' :
  createTask now rnd isoC isoU text priority w = (Return task, w') →
  task ≠ JNull →
  ∃ vt stored,
    ZenTaskManager.validateTaskText text = Some vt
    ∧ normal_text vt
    ∧ task = new_task (JStr (generateId now rnd)) vt (validatePriority priority) isoC isoU
    ∧ ZenStorage.savable task = true
    ∧ ZenStorage.loadable task = true
    ∧ tasks w' = tasks w ++ [task]
    ∧ emitted w' = emitted w ++ [taskCreated task; tasksUpdated]
    ∧ ZenStorage.getTasks (zenStorage w) (ls w) = (Return stored, ls w)
    ∧ ls_items (ls w') !! ZenStorage.storageKey (zenStorage w)
      = Some (JSON_stringify
                (JArr (filter (λ t, ZenStorage.savable t = true) stored ++ [task]))).
Proof.
  unfold createTask, notifyObservers, storage_call. js_unfold.
  rewrite validatePriority_default.
  destruct (ZenTaskManager.validateTaskText text) as [vt|] eqn:Hvt;
    [|by intros [= <- <-]].
  destruct (validateTaskText_result _ _ Hvt) as [_ Hnormal].
  destruct vt as [|c vt]; [by intros [= <- <-]|]. simpl.
  set (task0 := new_task _ _ _ _ _).
  destruct (getTasks_total (zenStorage w) (ls w)) as [stored Hget].
  assert (ZenStorage.savable task0 = true) as Hsav by reflexivity.
  assert (ZenStorage.loadable task0 = true) as Hload by reflexivity.
  destruct (ZenStorage.addTask (zenStorage w) task0 (ls w)) as [[[]|e] l'] eqn:Hadd;
    simpl; intros [= <- <-]; try done.
  intros _. exists (String c vt), stored. split_and!; try done.
  { simpl. by rewrite <- app_assoc. }
  simpl. unfold ZenStorage.addTask in Hadd. js_unfold. rewrite Hget in Hadd.
  apply saveTasks_true in Hadd as (_ & _ & ->). do 3 f_equal.
  by rewrite filter_app, filter_cons_True, filter_nil by done.
Qed.
End Zen_task_manager.

Lemma createTask_success_witness :
  ZenTaskManager.createTask (H:=MiniJSON.json) 1 "abc"
    "2025-01-15T10:00:00.000Z" "2025-01-15T10:00:00.000Z"
    (JStr "Buy milk") (JStr "low") (manager_on empty_storage [])
  = (Return milk, manager_after_create)
  ∧ milk ≠ JNull
  ∧ ZenTaskManager.tasks manager_after_create = [milk].
Proof.
  assert (ZenTaskManager.createTask (H:=MiniJSON.json) 1 "abc"
            "2025-01-15T10:00:00.000Z" "2025-01-15T10:00:00.000Z"
            (JStr "Buy milk") (JStr "low") (manager_on empty_storage [])
          = (Return milk, manager_after_create)) as Hc by (vm_compute; reflexivity).
  assert (milk ≠ JNull) as Hne by discriminate.
  split; [exact Hc|]. split; [exact Hne|].
  destruct (createTask_success (H:=MiniJSON.json) _ _ _ _ _ _ _ _ _ Hc Hne)
    as (vt & stored & _ & _ & _ & _ & _ & Hts & _).
  exact Hts.
Defined.

Section Zen_task_manager_failures.
Context `{JSON}.
Import ZenTaskManager.

(** X18.  For an id that no task in memory has, [updateTask] and
    [deleteTask] return false and emit the error 'Task not found', and
    [toggleTask] returns false without any event; none of them reads or
    writes localStorage or changes the collection. *)
Theorem unknown_id_rejected isoU isoC taskId updates w :
  ZenStorage.findIndex taskId (tasks w) = None →
  updateTask isoU isoC taskId updates w
  = (Return false, with_event (error "Task not found") w)
  ∧ deleteTask taskId w = (Return false, with_event (error "Task not found") w)
  ∧ toggleTask isoU isoC taskId w = (Return false, w).
Proof.
  intros Hfind. split_and!.
  - unfold updateTask, notifyObservers. js_unfold; simpl. by rewrite Hfind.
  - unfold deleteTask, notifyObservers. js_unfold; simpl. by rewrite Hfind.
  - unfold toggleTask, getTaskById. js_unfold.
    unfold ZenStorage.findIndex in Hfind.
    by destruct (list_find _ (tasks w)).
Qed.

(** X19.  When [deleteTask] returns true, the collection in memory is the
    former one without the tasks that had the id, in the same order; it is
    shorter, no task in it has the id, and the events emitted are
    'taskDeleted' with the task found and 'tasksUpdated'. *)
Theorem deleteTask_success taskId w w' :
  deleteTask taskId w = (Return true, w') →
  tasks w' = filter (λ t, ZenStorage.has_id taskId t = false) (tasks w)
  ∧ Forall (λ t, ZenStorage.has_id taskId t = false) (tasks w')
  ∧ length (tasks w') < length (tasks w)
  ∧ ∃ i t, ZenStorage.findIndex taskId (tasks w) = Some i
           ∧ tasks w !! i = Some t
           ∧ emitted w' = emitted w ++ [taskDeleted t; tasksUpdated].
Proof.
  intros Hd.
  assert (∃ i t, ZenStorage.findIndex taskId (tasks w) = Some i
                 ∧ tasks w !! i = Some t
                 ∧ ZenStorage.has_id taskId t = true
                 ∧ tasks w' = filter (λ t, ZenStorage.has_id taskId t = false) (tasks w)
                 ∧ emitted w' = emitted w ++ [taskDeleted t; tasksUpdated])
    as (i & t & Hfind & Hi & Hid & Hts & Hev).
  { revert Hd. unfold deleteTask, notifyObservers, storage_call. js_unfold; simpl.
    destruct (ZenStorage.findIndex taskId (tasks w)) as [i|] eqn:Hfind; [|done].
    pose proof Hfind as (t & Hi & Hid & _)%findIndex_Some.
    rewrite (list_lookup_total_correct _ _ _ Hi).
    destruct (ZenStorage.deleteTask _ _ _) as [[[]|e] l']; simpl; intros [= <-]; simpl.
    exists i, t. split_and!; try done. by rewrite <- app_assoc. }
  split_and!; [done| | |by exists i, t].
  - rewrite Hts. apply Forall_forall. by intros x [? _]%list_elem_of_filter.
  - rewrite Hts. eapply (length_filter_lt _ _ t).
    + by eapply list_elem_of_lookup_2.
    + by rewrite Hid.
Qed.
End Zen_task_manager_failures.

Lemma unknown_id_rejected_witness :
  ZenStorage.findIndex (JStr "nobody") (ZenTaskManager.tasks manager_after_create) = None
  ∧ ZenTaskManager.toggleTask (H:=MiniJSON.json) "u" "c" (JStr "nobody")
      manager_after_create
    = (Return false, manager_after_create).
Proof.
  assert (ZenStorage.findIndex (JStr "nobody")
            (ZenTaskManager.tasks manager_after_create) = None) as Hfind
    by (vm_compute; reflexivity).
  split; [exact Hfind|].
  exact (proj2 (proj2 (unknown_id_rejected (H:=MiniJSON.json) "u" "c" (JStr "nobody")
                         JNull manager_after_create Hfind))).
Defined.

Lemma deleteTask_success_witness :
  ZenTaskManager.deleteTask (H:=MiniJSON.json) (JStr "task_1_abc") manager_after_create
  = (Return true,
     (ZenTaskManager.deleteTask (H:=MiniJSON.json) (JStr "task_1_abc")
        manager_after_create).2)
  ∧ ZenTaskManager.tasks
      (ZenTaskManager.deleteTask (H:=MiniJSON.json) (JStr "task_1_abc")
         manager_after_create).2
    = filter (λ t, ZenStorage.has_id (JStr "task_1_abc") t = false)
        (ZenTaskManager.tasks manager_after_create).
Proof.
  assert (ZenTaskManager.deleteTask (H:=MiniJSON.json) (JStr "task_1_abc")
            manager_after_create
          = (Return true,
             (ZenTaskManager.deleteTask (H:=MiniJSON.json) (JStr "task_1_abc")
                manager_after_create).2)) as Hd by (vm_compute; reflexivity).
  split; [exact Hd|].
  exact (proj1 (deleteTask_success (H:=MiniJSON.json) _ _ _ Hd)).
Defined.

(** ** Lower case and whitespace *)

Lemma lower_char_ws c : is_ws (lower_char c) = is_ws c.
Proof. by destruct c as [[] [] [] [] [] [] [] []]. Qed.

Lemma toLowerCase_blank s : blank s = true → blank (toLowerCase s) = true.
Proof.
  unfold blank. induction s as [|c s IH]; simpl; [done|].
  intros [Hc Hs]%andb_prop. by rewrite lower_char_ws, Hc, IH.
Qed.

(** ** What the manager hands to storage *)

Section Update_agrees.
Context `{JSON}.
Import ZenTaskManager.

Lemma updatedTask_keeps_keys isoU isoC taskId updates cur o k :
  updatedTask isoU isoC taskId updates cur = Some o →
  is_Some (own_props cur !! k) → is_Some (o !! k).
Proof.
  unfold updatedTask, set_prop. intros Ho Hk.
  assert (is_Some ((own_props updates ∪ own_props cur) !! k)) as Hbase.
  { rewrite lookup_union. destruct (own_props updates !! k), Hk as [v ->]; by eexists. }
  assert (∀ k' v (m : gmap string JSValue), is_Some (m !! k) → is_Some (<[k' := v]> m !! k))
    as Hins.
  { intros k' v m Hm. rewrite lookup_insert. by case_decide. }
  repeat (case_match; simplify_eq/=); repeat apply Hins; done.
Qed.

(** X23.  The object [updateTask] of the manager hands to
    [zenStorage.updateTask] is stored as it is when storage holds the task
    as memory does: merging it over the current task gives back the object
    itself. *)
Theorem update_stores_updatedTask isoU isoC taskId updates cur o :
  updatedTask isoU isoC taskId updates cur = Some o →
  ZenStorage.merge cur (JObj o) taskId = JObj o.
Proof.
  intros Ho. unfold ZenStorage.merge. cbn [own_props]. f_equal.
  apply map_eq. intros k.
  destruct (decide (k = "id")) as [->|Hk].
  - rewrite lookup_insert_eq. by rewrite (updatedTask_id _ _ _ _ _ _ Ho).
  - rewrite lookup_insert_ne, lookup_union by done.
    destruct (o !! k) as [v|] eqn:Hok; [by destruct (own_props cur !! k)|].
    destruct (own_props cur !! k) as [v|] eqn:Hck; [|done].
    destruct (updatedTask_keeps_keys _ _ _ _ _ _ k Ho) as [v' Hv']; [by eexists|].
    congruence.
Qed.
End Update_agrees.

Lemma update_stores_updatedTask_witness :
  ZenTaskManager.updatedTask "2025-01-15T10:05:00.000Z" "2025-01-15T10:05:00.000Z"
    (JStr "task_1_abc") (JObj {["completed" := JBool true]}) milk
  = Some (<["completedAt" := JStr "2025-01-15T10:05:00.000Z"]>
         (<["updatedAt" := JStr "2025-01-15T10:05:00.000Z"]>
         (<["completed" := JBool true]> (own_props milk))))
  ∧ ZenStorage.merge milk
      (JObj (<["completedAt" := JStr "2025-01-15T10:05:00.000Z"]>
            (<["updatedAt" := JStr "2025-01-15T10:05:00.000Z"]>
            (<["completed" := JBool true]> (own_props milk)))))
      (JStr "task_1_abc")
    = JObj (<["completedAt" := JStr "2025-01-15T10:05:00.000Z"]>
           (<["updatedAt" := JStr "2025-01-15T10:05:00.000Z"]>
           (<["completed" := JBool true]> (own_props milk)))).
Proof.
  assert (ZenTaskManager.updatedTask "2025-01-15T10:05:00.000Z"
            "2025-01-15T10:05:00.000Z" (JStr "task_1_abc")
            (JObj {["completed" := JBool true]}) milk
          = Some (<["completedAt" := JStr "2025-01-15T10:05:00.000Z"]>
                 (<["updatedAt" := JStr "2025-01-15T10:05:00.000Z"]>
                 (<["completed" := JBool true]> (own_props milk))))) as Ho
    by (vm_compute; reflexivity).
  split; [exact Ho|].
  exact (update_stores_updatedTask _ _ _ _ _ _ Ho).
Defined.

(** ** The single-file to-do list (js/app.js) *)

Section App_operations.
Context `{JSON}.
Import App.

Lemma saveTasks_returns w w' :
  saveTasks w = (Return (), w') →
  tasks w' = tasks w
  ∧ alerts w' = alerts w
  ∧ ls_items (ls w') !! STORAGE_KEY = Some (JSON_stringify (JArr (task_to_js <$> tasks w))).
Proof.
  unfold saveTasks, setItem. js_unfold.
  destruct (ls_enabled (ls w)); [|done]. destruct (N.leb _ _); [|done].
  intros [= <-]; simpl. by rewrite lookup_insert_eq.
Qed.

Lemma app_toggle_first_twice id ts ts' :
  toggle_first id ts = Some ts' → toggle_first id ts' = Some ts.
Proof.
  revert ts'. induction ts as [|t ts IH]; intros ts'; simpl; [done|].
  case_bool_decide as Hid.
  - intros [= <-]. simpl. rewrite bool_decide_eq_true_2 by done.
    destruct t as [i d c]; simpl. by rewrite negb_involutive.
  - destruct (toggle_first id ts) as [ts0|] eqn:Hts; [|done].
    intros [= <-]. simpl. rewrite bool_decide_eq_false_2 by done.
    by rewrite (IH ts0).
Qed.

(** X24.  When [addTask] is given a description that is not blank and
    returns normally, the collection is the former one followed by a task
    that is not completed, has the trimmed description and the id made of
    the clock reading and the draw; no alert is shown, and localStorage
    holds under 'zenTaskerTasks' the serialization of the whole
    collection. *)
Theorem addTask_appends now r description w w' :
  blank description = false →
  addTask now r description w = (Return (), w') →
  tasks w' = tasks w ++ [{| task_id := make_id now r;
                            task_description := trim description;
                            task_completed := false |}]
  ∧ alerts w' = alerts w
  ∧ ls_items (ls w') !! "zenTaskerTasks"
    = Some (JSON_stringify (JArr (task_to_js <$> tasks w'))).
Proof.
  intros Hblank. unfold addTask. js_unfold; simpl.
  case_bool_decide as Htrim.
  - intros _. exfalso. destruct (trim_split description) as (l & r' & Hd & Hl & Hr & _).
    rewrite Htrim in Hd. simpl in Hd.
    assert (blank description = true); [|congruence].
    unfold blank. rewrite Hd. apply forallb_forall. intros c Hc.
    apply list_elem_of_In, elem_of_app in Hc as [Hc|Hc];
      [by eapply (proj1 (Forall_forall _ _) Hl)|by eapply (proj1 (Forall_forall _ _) Hr)].
  - intros (Hts & Hal & Hitems)%saveTasks_returns. simpl in *.
    by rewrite Hts.
Qed.

(** X25.  [toggleTaskCompleted] applied twice to the same id leaves the
    collection as it was, whether or not the writes to storage succeed, and
    for an id that no task has it changes nothing and writes nothing;
    [deleteTask] leaves exactly the tasks with another id, in their
    order. *)
Theorem app_toggle_twice_delete (taskId : string) (w : World) :
  tasks (toggleTaskCompleted taskId (toggleTaskCompleted taskId w).2).2 = tasks w
  ∧ (toggle_first taskId (tasks w) = None → toggleTaskCompleted taskId w = (Return (), w))
  ∧ tasks (deleteTask taskId w).2 = filter (λ t, task_id t ≠ taskId) (tasks w).
Proof.
  assert (∀ w0, tasks (toggleTaskCompleted taskId w0).2
                = default (tasks w0) (toggle_first taskId (tasks w0))) as Htoggle.
  { intros w0. unfold toggleTaskCompleted, saveTasks. js_unfold; simpl.
    destruct (toggle_first taskId (tasks w0)); simpl; [|done].
    by destruct (setItem _ _ _) as [[] ?]. }
  split_and!.
  - rewrite !Htoggle.
    destruct (toggle_first taskId (tasks w)) as [ts'|] eqn:Hts; simpl.
    + by rewrite (app_toggle_first_twice _ _ _ Hts).
    + by rewrite Hts.
  - intros Hnone. unfold toggleTaskCompleted. js_unfold. by rewrite Hnone.
  - unfold deleteTask, saveTasks. js_unfold; simpl.
    by destruct (setItem _ _ _) as [[] ?].
Qed.
End App_operations.

Lemma addTask_appends_witness :
  blank " Buy milk " = false
  ∧ App.addTask (H:=MiniJSON.json) 1736935200000 417 " Buy milk " app_start
    = (Return (), app_after_add)
  ∧ App.tasks app_after_add
    = [{| App.task_id := "1736935200000-417"; App.task_description := "Buy milk";
          App.task_completed := false |}].
Proof.
  assert (App.addTask (H:=MiniJSON.json) 1736935200000 417 " Buy milk " app_start
          = (Return (), app_after_add)) as Hadd by (vm_compute; reflexivity).
  split; [reflexivity|]. split; [exact Hadd|].
  exact (proj1 (addTask_appends (H:=MiniJSON.json) 1736935200000 417 " Buy milk "
                  app_start app_after_add eq_refl Hadd)).
Defined.

Lemma app_toggle_twice_delete_witness :
  App.toggle_first "nobody" (App.tasks app_after_add) = None
  ∧ App.toggleTaskCompleted (H:=MiniJSON.json) "nobody" app_after_add
    = (Return (), app_after_add)
  ∧ App.tasks
      (App.toggleTaskCompleted (H:=MiniJSON.json) "1736935200000-417"
         (App.toggleTaskCompleted (H:=MiniJSON.json) "1736935200000-417"
            app_after_add).2).2
    = App.tasks app_after_add.
Proof.
  assert (App.toggle_first "nobody" (App.tasks app_after_add) = None) as Hnone
    by (vm_compute; reflexivity).
  split; [exact Hnone|]. split.
  - exact (proj1 (proj2 (app_toggle_twice_delete (H:=MiniJSON.json) "nobody"
                           app_after_add)) Hnone).
  - exact (proj1 (app_toggle_twice_delete (H:=MiniJSON.json) "1736935200000-417"
                    app_after_add)).
Defined.

(** ** ZenStorage: reading back what was written *)

Section Zen_storage_round_trips.
Context `{JSON}.
Import ZenStorage.

Lemma getTaskById_absent zs taskId l stored :
  getTasks zs l = (Return stored, l) →
  Forall (λ t, has_id taskId t = false) stored →
  getTaskById zs taskId l = (Return JNull, l).
Proof.
  intros Hget Hall. unfold getTaskById. js_unfold. rewrite Hget.
  destruct (list_find _ stored) as [[i t]|] eqn:Hfind; [|done].
  apply list_find_Some in Hfind as (Hi & Ht & _).
  rewrite Forall_lookup in Hall. by rewrite (Hall _ _ Hi) in Ht.
Qed.

(** X26.  When [deleteTask] returns true and the platform's JSON reads
    back what it wrote, the stored tasks are afterwards the former ones
    that have another id and pass the shape check of [saveTasks], in their
    order, and [getTaskById] returns null for the deleted id.  A stored
    task with an empty text is dropped along with the deleted one. *)
Theorem deleteTask_then_lookup (zs : ZenStorage.t) (taskId : JSValue)
    (l l' : LocalStorage) (stored : list JSValue) :
  getTasks zs l = (Return stored, l) →
  deleteTask zs taskId l = (Return true, l') →
  let kept := filter (λ t, savable t = true)
                (filter (λ t, has_id taskId t = false) stored) in
  JSON_stringify (JArr kept) ≠ "" →
  JSON_parse (JSON_stringify (JArr kept)) = Some (JArr kept) →
  getTasks zs l' = (Return kept, l')
  ∧ getTaskById zs taskId l' = (Return JNull, l')
  ∧ (∀ t, t ∈ kept ↔ t ∈ stored ∧ has_id taskId t = false ∧ savable t = true).
Proof.
  intros Hget Hdel kept Hne Hparse.
  pose proof (getTasks_loadable _ _ _ Hget) as Hload.
  unfold deleteTask in Hdel. js_unfold. rewrite Hget in Hdel.
  apply saveTasks_true in Hdel as (Hzs & Hen & Hraw).
  assert (getTasks zs l' = (Return kept, l')) as Hget'.
  { rewrite (getTasks_stored zs l' _ kept Hzs Hen Hraw Hne Hparse).
    do 2 f_equal. apply filter_all. unfold kept.
    by do 2 apply Forall_filter_keep. }
  assert (∀ t, t ∈ kept ↔ t ∈ stored ∧ has_id taskId t = false ∧ savable t = true)
    as Hkept.
  { intros t. unfold kept. rewrite !list_elem_of_filter. tauto. }
  split_and!; [done| |done].
  apply (getTaskById_absent _ _ _ kept Hget'). apply Forall_forall.
  intros t Ht. by apply Hkept in Ht as (_ & Hid & _).
Qed.

(** X27.  When [saveSettings] returns true and the platform's JSON reads
    back what it wrote, [getSettings] afterwards returns the saved
    settings laid over the defaults: a saved key has its saved value, any
    other key its default.  The stored tasks are not touched. *)
Theorem saveSettings_then_getSettings (zs : ZenStorage.t) (settings : JSValue)
    (l l' : LocalStorage) :
  saveSettings zs settings l = (Return true, l') →
  JSON_stringify settings ≠ "" →
  JSON_parse (JSON_stringify settings) = Some settings →
  ∃ loaded,
    getSettings zs l' = (Return loaded, l')
    ∧ (∀ k v, own_props settings !! k = Some v → prop loaded k = v)
    ∧ (∀ k, own_props settings !! k = None →
            prop loaded k = prop getDefaultSettings k)
    ∧ (storageKey zs ≠ settingsKey zs →
       ∀ stored, getTasks zs l = (Return stored, l) →
                 getTasks zs l' = (Return stored, l')).
Proof.
  intros Hsave Hne Hparse.
  unfold saveSettings, setItem in Hsave. js_unfold.
  destruct (isStorageAvailable zs) eqn:Hzs; simpl in Hsave; [|done].
  destruct (ls_enabled l) eqn:Hen; simpl in Hsave; [|done].
  destruct (N.leb _ _); simpl in Hsave; [|done].
  injection Hsave as <-.
  exists (JObj (own_props settings ∪ own_props getDefaultSettings)).
  split_and!.
  - unfold getSettings, getItem, parse_raw. js_unfold. rewrite Hzs; simpl.
    rewrite Hen, lookup_insert_eq.
    destruct (JSON_stringify settings) as [|c raw] eqn:Hraw; [done|]; simpl.
    by rewrite Hparse.
  - intros k v Hk. unfold prop.
    by rewrite (lookup_union_Some_l _ _ _ _ Hk).
  - intros k Hk. unfold prop at 1.
    rewrite lookup_union_r by done. done.
  - intros Hkeys stored.
    unfold getTasks, getItem. js_unfold. rewrite Hzs; simpl.
    rewrite Hen, lookup_insert_ne by done.
    destruct (ls_items l !! storageKey zs) as [[|c raw]|]; simpl.
    + intros Heq. by simplify_eq.
    + unfold parse_raw, array_filter. js_unfold. simpl.
      destruct (JSON_parse (String c raw)) as [[| | | | |arr|]|]; simpl;
        intros Heq; by simplify_eq.
    + intros Heq. by simplify_eq.
Qed.
End Zen_storage_round_trips.

Lemma deleteTask_then_lookup_witness :
  ZenStorage.getTasks (H:=MiniJSON.json) zenStorage_available
    (storage_with [milk; call_bank])
  = (Return [milk; call_bank], storage_with [milk; call_bank])
  ∧ ZenStorage.deleteTask (H:=MiniJSON.json) zenStorage_available (JStr "task_1_abc")
      (storage_with [milk; call_bank])
    = (Return true, storage_with [call_bank])
  ∧ ZenStorage.getTasks (H:=MiniJSON.json) zenStorage_available
      (storage_with [call_bank])
    = (Return [call_bank], storage_with [call_bank])
  ∧ ZenStorage.getTaskById (H:=MiniJSON.json) zenStorage_available (JStr "task_1_abc")
      (storage_with [call_bank])
    = (Return JNull, storage_with [call_bank]).
Proof.
  assert (ZenStorage.getTasks (H:=MiniJSON.json) zenStorage_available
            (storage_with [milk; call_bank])
          = (Return [milk; call_bank], storage_with [milk; call_bank]))
    as Hget by (vm_compute; reflexivity).
  assert (ZenStorage.deleteTask (H:=MiniJSON.json) zenStorage_available
            (JStr "task_1_abc") (storage_with [milk; call_bank])
          = (Return true, storage_with [call_bank]))
    as Hdel by (vm_compute; reflexivity).
  split; [exact Hget|]. split; [exact Hdel|].
  destruct (deleteTask_then_lookup (H:=MiniJSON.json) _ _ _ _ _ Hget Hdel)
    as (Hget' & Hnull & _).
  - vm_compute. discriminate.
  - vm_compute. reflexivity.
  - split; [exact Hget'|exact Hnull].
Defined.

Lemma saveSettings_then_getSettings_witness :
  ZenStorage.saveSettings (H:=MiniJSON.json) zenStorage_available dark_theme
    (storage_with [milk])
  = (Return true,
     (ZenStorage.saveSettings (H:=MiniJSON.json) zenStorage_available dark_theme
        (storage_with [milk])).2)
  ∧ MiniJSON.stringify dark_theme ≠ ""
  ∧ MiniJSON.parse (MiniJSON.stringify dark_theme) = Some dark_theme
  ∧ ∃ loaded,
      ZenStorage.getSettings (H:=MiniJSON.json) zenStorage_available
        (ZenStorage.saveSettings (H:=MiniJSON.json) zenStorage_available dark_theme
           (storage_with [milk])).2
      = (Return loaded,
         (ZenStorage.saveSettings (H:=MiniJSON.json) zenStorage_available dark_theme
            (storage_with [milk])).2)
      ∧ prop loaded "theme" = JStr "dark"
      ∧ prop loaded "autoSort" = JBool true.
Proof.
  assert (ZenStorage.saveSettings (H:=MiniJSON.json) zenStorage_available dark_theme
            (storage_with [milk])
          = (Return true,
             (ZenStorage.saveSettings (H:=MiniJSON.json) zenStorage_available dark_theme
                (storage_with [milk])).2)) as Hsave by (vm_compute; reflexivity).
  assert (MiniJSON.stringify dark_theme ≠ "") as Hne by (vm_compute; discriminate).
  assert (MiniJSON.parse (MiniJSON.stringify dark_theme) = Some dark_theme) as Hparse
    by (vm_compute; reflexivity).
  split; [exact Hsave|]. split; [exact Hne|]. split; [exact Hparse|].
  destruct (saveSettings_then_getSettings (H:=MiniJSON.json) _ _ _ _ Hsave Hne Hparse)
    as (loaded & Hget & Hsaved & Hdefault & _).
  exists loaded. split; [exact Hget|]. split.
  - apply Hsaved. reflexivity.
  - rewrite Hdefault by reflexivity. reflexivity.
Defined.

(** * Failed writes and search

    The two properties that rest on the lemmas about strings above. *)

(** ** A write that fails *)

Lemma validateTaskText_nonempty text vt :
  ZenTaskManager.validateTaskText text = Some vt → vt ≠ "".
Proof. by intros (_ & Hne & _)%validateTaskText_result. Qed.

Section Failed_write_reported.
Context `{JSON}.
Import ZenTaskManager.

Lemma saveTasks_false zs ts l :
  (ZenStorage.saveTasks zs ts l).1 = Return false
  ↔ ZenStorage.isStorageAvailable zs = false
    ∨ ∃ e, (setItem (ZenStorage.storageKey zs)
              (JSON_stringify (JArr (filter (λ t, ZenStorage.savable t = true) ts)))
              l).1 = Throw e.
Proof.
  unfold ZenStorage.saveTasks. js_unfold.
  destruct (ZenStorage.isStorageAvailable zs); simpl; [|by split; [left|]].
  destruct (setItem _ _ l) as [[[]|e] l']; simpl.
  - split; [done|]. by intros [|[? ?]].
  - split; [|done]. intros _. right. by exists e.
Qed.

(** C1.  In [ZenTaskManager], when the write of an operation fails (the
    call into [zenStorage] returns false, as it does when storage is
    unavailable or [localStorage.setItem] throws), the in-memory collection
    after the operation is the collection before it, localStorage is as it
    was, and the failure is reported: [createTask] (for an id not yet in the
    collection) returns null, [updateTask], [toggleTask] and [deleteTask]
    (on a collection with unique ids) return false, each after emitting an
    error event.  In [Store], when [storage.set] throws, the exception
    reaches the caller of [add], [toggle] and [remove], but the change made
    in memory is kept. *)
Theorem failed_write_reported :
  (∀ zs ts l,
     (ZenStorage.saveTasks zs ts l).1 = Return false
     ↔ ZenStorage.isStorageAvailable zs = false
       ∨ ∃ e, (setItem (ZenStorage.storageKey zs)
                 (JSON_stringify (JArr (filter (λ t, ZenStorage.savable t = true) ts)))
                 l).1 = Throw e)
  ∧ (∀ w now rnd isoC isoU text priority vt,
       validateTaskText text = Some vt →
       Forall (λ t, ZenStorage.has_id (JStr (generateId now rnd)) t = false) (tasks w) →
       (ZenStorage.addTask (zenStorage w)
          (new_task (JStr (generateId now rnd)) vt (validatePriority priority) isoC isoU)
          (ls w)).1 = Return false →
       createTask now rnd isoC isoU text priority w
       = (Return JNull, with_event (error "Failed to save task") w))
  ∧ (∀ w isoU isoC taskId updates i t o,
       ZenStorage.findIndex taskId (tasks w) = Some i →
       tasks w !! i = Some t →
       updates ≠ JUndefined →
       updates ≠ JNull →
       updatedTask isoU isoC taskId updates t = Some o →
       (ZenStorage.updateTask (zenStorage w) taskId (JObj o) (ls w)).1 = Return false →
       updateTask isoU isoC taskId updates w
       = (Return false, with_event (error "Failed to update task") w))
  ∧ (∀ w isoU isoC taskId i t o,
       ZenStorage.findIndex taskId (tasks w) = Some i →
       tasks w !! i = Some t →
       truthy t = true →
       updatedTask isoU isoC taskId
         (JObj {["completed" := JBool (negb (truthy (prop t "completed")))]}) t
       = Some o →
       (ZenStorage.updateTask (zenStorage w) taskId (JObj o) (ls w)).1 = Return false →
       toggleTask isoU isoC taskId w
       = (Return false, with_event (error "Failed to update task") w))
  ∧ (∀ w taskId i,
       ZenStorage.findIndex taskId (tasks w) = Some i →
       NoDup (ids (tasks w)) →
       (ZenStorage.deleteTask (zenStorage w) taskId (ls w)).1 = Return false →
       deleteTask taskId w
       = (Return false, with_event (error "Failed to delete task") w))
  ∧ (∀ w uid title e,
       trim title ≠ "" →
       let task := {| Store.task_id := uid; Store.task_title := trim title;
                      Store.task_completed := false |} in
       let changed := Store.with_tasks (task :: Store.tasks (Store.state w)) w in
       (storage.set Store.KEY (Store.state_to_js (Store.state changed)) (Store.ls w)).1
       = Throw e →
       Store.add uid title w = (Throw e, changed))
  ∧ (∀ w id ts' e,
       Store.toggle_first id (Store.tasks (Store.state w)) = Some ts' →
       let changed := Store.with_tasks ts' w in
       (storage.set Store.KEY (Store.state_to_js (Store.state changed)) (Store.ls w)).1
       = Throw e →
       Store.toggle id w = (Throw e, changed))
  ∧ (∀ w id e,
       let changed :=
         Store.with_tasks
           (filter (λ t, Store.task_id t ≠ id) (Store.tasks (Store.state w))) w in
       (storage.set Store.KEY (Store.state_to_js (Store.state changed)) (Store.ls w)).1
       = Throw e →
       Store.remove id w = (Throw e, changed)).
Proof.
  split_and!.
  - apply saveTasks_false.
  - intros w now rnd isoC isoU text priority vt Hvt Hfresh Hfail.
    pose proof (validateTaskText_nonempty _ _ Hvt) as Hne.
    destruct (storage_addTask_total (zenStorage w)
                (new_task (JStr (generateId now rnd)) vt (validatePriority priority)
                   isoC isoU) (ls w)) as (b & l' & Hadd & Hl').
    rewrite Hadd in Hfail. injection Hfail as ->. rewrite (Hl' eq_refl) in Hadd.
    unfold createTask, notifyObservers, storage_call. js_unfold.
    rewrite Hvt, validatePriority_default. destruct vt as [|c vt]; [done|]. simpl.
    rewrite Hadd. simpl. unfold with_event, with_tasks; simpl. do 2 f_equal.
    destruct w as [wts wcf wst wem wzs wl]; simpl in *. f_equal.
    apply filter_fresh; [done|].
    unfold ZenStorage.has_id, new_task, prop. rewrite lookup_insert_eq; simpl.
    by rewrite bool_decide_eq_true_2.
  - intros w isoU isoC taskId updates i t o Hfind Hi Hu1 Hu2 Ho Hfail.
    destruct (storage_updateTask_total (zenStorage w) taskId (JObj o) (ls w))
      as (b & l' & Hup & Hl').
    rewrite Hup in Hfail. injection Hfail as ->. rewrite (Hl' eq_refl) in Hup.
    unfold updateTask, notifyObservers, storage_call. js_unfold. simpl.
    rewrite Hfind, (list_lookup_total_correct _ _ _ Hi), Ho.
    destruct updates; try done; simpl; rewrite Hup; simpl;
      unfold with_event, with_tasks; simpl; do 2 f_equal;
      destruct w as [wts wcf wst wem wzs wl]; simpl in *; f_equal;
      rewrite list_insert_insert_eq; by apply list_insert_id.
  - intros w isoU isoC taskId i t o Hfind Hi Ht Ho Hfail.
    destruct (storage_updateTask_total (zenStorage w) taskId (JObj o) (ls w))
      as (b & l' & Hup & Hl').
    rewrite Hup in Hfail. injection Hfail as ->. rewrite (Hl' eq_refl) in Hup.
    unfold toggleTask, getTaskById, updateTask, notifyObservers, storage_call.
    js_unfold. simpl.
    unfold ZenStorage.findIndex in Hfind.
    destruct (list_find _ (tasks w)) as [[i' t']|] eqn:Hlf; [|done].
    simpl in Hfind. injection Hfind as ->.
    pose proof Hlf as (Hi' & _)%list_find_Some.
    rewrite Hi in Hi'. injection Hi' as <-. simpl. rewrite Ht. simpl.
    unfold ZenStorage.findIndex. rewrite Hlf. simpl.
    rewrite (list_lookup_total_correct _ _ _ Hi), Ho, Hup. simpl.
    unfold with_event, with_tasks; simpl. do 2 f_equal.
    destruct w as [wts wcf wst wem wzs wl]; simpl in *. f_equal.
    rewrite list_insert_insert_eq. by apply list_insert_id.
  - intros w taskId i Hfind Hnodup Hfail.
    destruct (storage_deleteTask_total (zenStorage w) taskId (ls w))
      as (b & l' & Hdel & Hl').
    rewrite Hdel in Hfail. injection Hfail as ->. rewrite (Hl' eq_refl) in Hdel.
    pose proof Hfind as (t & Hi & _)%findIndex_Some.
    unfold deleteTask, notifyObservers, storage_call. js_unfold. simpl.
    rewrite Hfind, (list_lookup_total_correct _ _ _ Hi), Hdel. simpl.
    unfold with_event, with_tasks; simpl. do 2 f_equal.
    destruct w as [wts wcf wst wem wzs wl]; simpl in *. f_equal.
    by apply splice_restores.
  - intros w uid title e Htitle task changed Hset.
    unfold Store.add, Store.persist. js_unfold; simpl.
    rewrite bool_decide_eq_false_2 by done; simpl.
    fold task. fold changed.
    destruct (storage.set _ _ _) as [r l'] eqn:Hs. simpl in Hset. subst r.
    f_equal. unfold storage.set, setItem in Hs.
    destruct (ls_enabled (Store.ls w)); [destruct (N.leb _ _)|]; by simplify_eq.
  - intros w id ts' e Htoggle changed Hset.
    unfold Store.toggle, Store.persist. js_unfold; simpl. rewrite Htoggle; simpl.
    fold changed.
    destruct (storage.set _ _ _) as [r l'] eqn:Hs. simpl in Hset. subst r.
    f_equal. unfold storage.set, setItem in Hs.
    destruct (ls_enabled (Store.ls w)); [destruct (N.leb _ _)|]; by simplify_eq.
  - intros w id e changed Hset.
    unfold Store.remove, Store.persist. js_unfold; simpl. fold changed.
    destruct (storage.set _ _ _) as [r l'] eqn:Hs. simpl in Hset. subst r.
    f_equal. unfold storage.set, setItem in Hs.
    destruct (ls_enabled (Store.ls w)); [destruct (N.leb _ _)|]; by simplify_eq.
Qed.
End Failed_write_reported.

Lemma failed_write_reported_witness :
  ZenTaskManager.validateTaskText (JStr "Buy bread") = Some "Buy bread"
  ∧ Forall (λ t, ZenStorage.has_id (JStr (ZenTaskManager.generateId 2 "xyz")) t = false)
      [milk]
  ∧ (ZenStorage.addTask (H:=MiniJSON.json) zenStorage_available
       (ZenTaskManager.new_task (JStr (ZenTaskManager.generateId 2 "xyz")) "Buy bread"
          "high" "2025-01-16T09:00:00.000Z" "2025-01-16T09:00:00.000Z")
       (filled (storage_with [milk]))).1 = Return false
  ∧ ZenStorage.getTasks (H:=MiniJSON.json) zenStorage_available
      (filled (storage_with [milk]))
    = (Return [milk], filled (storage_with [milk]))
  ∧ ZenTaskManager.createTask (H:=MiniJSON.json) 2 "xyz"
      "2025-01-16T09:00:00.000Z" "2025-01-16T09:00:00.000Z"
      (JStr "Buy bread") (JStr "high") (manager_on (filled (storage_with [milk])) [milk])
    = (Return JNull,
       with_event (ZenTaskManager.error "Failed to save task")
         (manager_on (filled (storage_with [milk])) [milk]))
  ∧ Store.add (H:=MiniJSON.json) "u2" "Buy bread" store_filled
    = (Throw QuotaExceededError,
       Store.with_tasks
         ({| Store.task_id := "u2"; Store.task_title := "Buy bread";
             Store.task_completed := false |}
          :: Store.tasks (Store.state store_filled)) store_filled).
Proof.
  assert (ZenTaskManager.validateTaskText (JStr "Buy bread") = Some "Buy bread") as Hvt
    by reflexivity.
  assert (Forall (λ t, ZenStorage.has_id (JStr (ZenTaskManager.generateId 2 "xyz")) t
                       = false) [milk]) as Hfresh.
  { constructor; [reflexivity|constructor]. }
  assert ((ZenStorage.addTask (H:=MiniJSON.json) zenStorage_available
             (ZenTaskManager.new_task (JStr (ZenTaskManager.generateId 2 "xyz"))
                "Buy bread" "high" "2025-01-16T09:00:00.000Z" "2025-01-16T09:00:00.000Z")
             (filled (storage_with [milk]))).1 = Return false) as Hfail
    by (vm_compute; reflexivity).
  split; [exact Hvt|]. split; [exact Hfresh|]. split; [exact Hfail|].
  split; [vm_compute; reflexivity|].
  destruct (failed_write_reported (H:=MiniJSON.json))
    as (_ & Hcreate & _ & _ & _ & Hadd & _).
  split.
  - exact (Hcreate (manager_on (filled (storage_with [milk])) [milk]) 2%N "xyz"
             "2025-01-16T09:00:00.000Z" "2025-01-16T09:00:00.000Z"
             (JStr "Buy bread") (JStr "high") "Buy bread" Hvt Hfresh Hfail).
  - apply (Hadd store_filled "u2" "Buy bread" QuotaExceededError).
    + discriminate.
    + vm_compute. reflexivity.
Defined.

(** [Store.add] on a storage without capacity: the exception reaches the
    caller and the new task stays in memory. *)
Lemma store_add_keeps_task_on_failure :
  Store.tasks (Store.state (store_on full_storage [])) = []
  ∧ Store.add (H:=MiniJSON.json) "u1" "Buy milk" (store_on full_storage [])
    = (Throw QuotaExceededError,
       store_on full_storage
         [{| Store.task_id := "u1"; Store.task_title := "Buy milk";
             Store.task_completed := false |}]).
Proof. split; [reflexivity|]. vm_compute. reflexivity. Qed.

(** ** Search (ZenFilterManager) *)













Lemma gap_match_sublist term text :
  gap_match term text = true →
  (canonicalize <$> term) `sublist_of` (canonicalize <$> text).
Proof.
  revert term. induction text as [|a text IH]; intros [|c term]; simpl; try done;
    try (intros _; apply sublist_nil_l).
  intros [[Heq%bool_decide_eq_true Hrest]%andb_prop|[_ Hrest]%andb_prop]%orb_prop.
    + rewrite Heq. apply sublist_skip. by apply IH.
    + apply sublist_cons. by apply (IH (c :: term)).
Qed.

Lemma chain_test_sublist term text :
  chain_test term text = true →
  (canonicalize <$> term) `sublist_of` (canonicalize <$> text).
Proof.
  induction text as [|a text IH]; destruct term as [|c term]; simpl; try done;
    try (intros _; apply sublist_nil_l).
  intros [[Heq%bool_decide_eq_true Hrest]%andb_prop|Hrest]%orb_prop.
    + rewrite Heq. apply sublist_skip. by apply gap_match_sublist.
    + apply sublist_cons. by apply IH.
Qed.

Lemma sublist_gap_match term text :
  Forall (λ c, is_line_terminator c = false) text →
  (canonicalize <$> term) `sublist_of` (canonicalize <$> text) →
  gap_match term text = true.
Proof.
  revert term. induction text as [|a text IH]; intros term Htext Hsub.
  - apply sublist_nil_r, fmap_nil_inv in Hsub. by subst.
  - destruct term as [|c term]; [done|].
    apply Forall_cons in Htext as [Ha Htext]. simpl in *.
    apply sublist_cons_r in Hsub as [Hsub|(rest & Heq & Hsub)].
    + rewrite Ha, (IH (c :: term)) by done. simpl. by rewrite orb_true_r.
    + injection Heq as Hc <-. rewrite bool_decide_eq_true_2 by done.
      by rewrite IH.
Qed.

Lemma sublist_chain_test term text :
  Forall (λ c, is_line_terminator c = false) text →
  (canonicalize <$> term) `sublist_of` (canonicalize <$> text) →
  chain_test term text = true.
Proof.
  induction text as [|a text IH]; intros Htext Hsub.
  - apply sublist_nil_r, fmap_nil_inv in Hsub. by subst.
  - destruct term as [|c term]; [done|].
    apply Forall_cons in Htext as [Ha Htext]. simpl in *.
    apply sublist_cons_r in Hsub as [Hsub|(rest & Heq & Hsub)].
    + rewrite IH by done. by rewrite orb_true_r.
    + injection Heq as Hc <-. rewrite bool_decide_eq_true_2 by done.
      by rewrite sublist_gap_match.
Qed.

Lemma chain_pattern_units term :
  chain_pattern term = join ".*" ((λ c, String c "") <$> chars term).
Proof.
  unfold chain_pattern, ZenFilterManager.array_join, ZenFilterManager.split_units.
  f_equal. induction (chars term) as [|c l IH]; [done|].
  cbn [fmap list_fmap map]. by rewrite <- IH.
Qed.

Lemma read_chain_join l :
  l ≠ [] →
  Forall (λ c, syntax_character c = false) l →
  MiniRegExp.read_chain (chars (join ".*" ((λ c, String c "") <$> l))) = Some l.
Proof.
  induction l as [|c l IH]; [done|]. intros _ [Hc Hl]%Forall_cons.
  destruct l as [|d l].
  - simpl. by rewrite Hc.
  - change (join ".*" ((λ c, String c "") <$> c :: d :: l))
      with (String c "" +:+ ".*" +:+ join ".*" ((λ c, String c "") <$> d :: l)).
    rewrite !list_ascii_app.
    change (chars (String c "") ++ chars ".*" ++ ?r)
      with (c :: "."%char :: "*"%char :: r).
    cbn [MiniRegExp.read_chain]. rewrite Hc, IH by done. done.
Qed.

(** The instance follows ECMAScript on the chains of literal characters. *)
Lemma read_chain_pattern term :
  term ≠ "" → literal term →
  MiniRegExp.read_chain (chars (chain_pattern term)) = Some (chars term).
Proof.
  intros Hne Hlit. rewrite chain_pattern_units. apply read_chain_join; [|done].
  by destruct term.
Qed.

Lemma MiniRegExp_literal_chains : literal_chains (H:=MiniRegExp.regexp).
Proof.
  intros term text Hne Hlit. exists (chars term). split; [|done].
  simpl. by rewrite read_chain_pattern.
Qed.

Section Search.
Context `{Locale} `{RegExp}.
Import ZenFilterManager.


Lemma fuzzyMatch_short text term :
  String.length term < 3 → fuzzyMatch text term = Return false.
Proof. intros Hlen. unfold fuzzyMatch. by rewrite (proj2 (Nat.ltb_lt _ _)). Qed.




Lemma every_term_occurring text terms :
  (∀ term, term ∈ terms → occurs term text) → every_term text terms = Return true.
Proof.
  induction terms as [|term terms IH]; intros Hall; simpl; [done|].
  unfold term_found.
  rewrite (proj2 (includes_occurs text term)) by (apply Hall; by left).
  apply IH. intros t Ht. apply Hall. by right.
Qed.




Lemma filter_terms_occurring terms tasks :
  (∀ task term, task ∈ tasks → term ∈ terms → occurs term (searchableText task)) →
  filter_terms terms tasks = Return tasks.
Proof.
  induction tasks as [|task tasks IH]; intros Hall; simpl; [done|].
  rewrite every_term_occurring by (intros t Ht; apply Hall; [by left|done]).
  rewrite IH; [done|]. intros t term Ht Hterm. apply Hall; [by right|done].
Qed.





Lemma filter_terms_empty_term tasks : filter_terms [""] tasks = Return tasks.
Proof.
  apply filter_terms_occurring. intros task term _ ->%list_elem_of_singleton.
  by exists "", (searchableText task).
Qed.

(** X20.  A query that is empty or only whitespace filters nothing out:
    its single term is the empty string, which every text contains, and
    [applySearch] returns all the tasks. *)
Theorem applySearch_blank_query (tasks : list JSValue) (query : string) :
  blank query = true →
  searchTerms query = [""] ∧ applySearch tasks query = Return tasks.
Proof.
  intros Hblank.
  assert (searchTerms query = [""]) as Hterms.
  { unfold searchTerms. by rewrite trim_blank by (by apply toLowerCase_blank). }
  split; [done|]. unfold applySearch. rewrite Hterms. apply filter_terms_empty_term.
Qed.

(** X21.  Searching the result of a search again with the same query
    returns it unchanged. *)
Theorem applySearch_idempotent (tasks found : list JSValue) (query : string) :
  applySearch tasks query = Return found → applySearch found query = Return found.
Proof.
  unfold applySearch. generalize (searchTerms query). intros terms.
  revert found. induction tasks as [|task tasks IH]; intros found; cbn [filter_terms].
  { by intros [= <-]. }
  destruct (every_term (searchableText task) terms) as [keep|] eqn:Hkeep; [|done].
  destruct (filter_terms terms tasks) as [rest|] eqn:Hrest; [|done].
  intros [= <-]. specialize (IH rest eq_refl).
  destruct keep; [|done]. cbn [filter_terms]. by rewrite Hkeep, IH.
Qed.

(** X22.  [fuzzyMatch] rejects a term of one or two characters without
    building a pattern, so such a term is found only where it occurs.  For a
    longer term it throws a SyntaxError when the platform refuses the
    pattern.  For a longer term without syntax characters, on a platform
    that follows ECMAScript on chains of literal characters, it returns, and
    accepts only terms whose characters appear in the text in the same
    order, compared without regard to case; in a text without line breaks it
    accepts all of those. *)
Theorem fuzzyMatch_subsequence (text term : string) :
  (String.length term < 3 →
   fuzzyMatch text term = Return false
   ∧ term_found text term = Return (includes text term))
  ∧ (3 ≤ String.length term →
     RegExp_new (chain_pattern term) "i" = None →
     fuzzyMatch text term = Throw SyntaxError)
  ∧ (literal_chains →
     3 ≤ String.length term →
     literal term →
     ∃ accepted,
       fuzzyMatch text term = Return accepted
       ∧ (accepted = true →
          (canonicalize <$> chars term) `sublist_of` (canonicalize <$> chars text))
       ∧ (Forall (λ c, is_line_terminator c = false) (chars text) →
          (canonicalize <$> chars term) `sublist_of` (canonicalize <$> chars text) →
          accepted = true)).
Proof.
  split_and!.
  - intros Hlen. split; [by apply fuzzyMatch_short|].
    unfold term_found. rewrite fuzzyMatch_short by done.
    by destruct (includes text term).
  - intros Hlen Hnew. unfold fuzzyMatch, chain_pattern in *.
    by rewrite (proj2 (Nat.ltb_ge _ _)), Hnew.
  - intros Hchains Hlen Hlit.
    destruct (Hchains term text) as (regex & Hnew & Htest);
      [intros ->; simpl in Hlen; lia|done|].
    exists (chain_test (chars term) (chars text)). split_and!.
    + unfold fuzzyMatch, chain_pattern in *.
      by rewrite (proj2 (Nat.ltb_ge _ _)), Hnew, Htest.
    + apply chain_test_sublist.
    + apply sublist_chain_test.
Qed.
End Search.



Lemma applySearch_blank_query_witness :
  blank "   " = true
  ∧ ZenFilterManager.applySearch (H:=en_US) (H0:=MiniRegExp.regexp) [milk] "   "
    = Return [milk].
Proof.
  split; [reflexivity|].
  exact (proj2 (applySearch_blank_query (H:=en_US) (H0:=MiniRegExp.regexp)
                  [milk] "   " eq_refl)).
Defined.

Lemma applySearch_idempotent_witness :
  ZenFilterManager.applySearch (H:=en_US) (H0:=MiniRegExp.regexp)
    [milk; shopping "2025-01-15T10:00:00.000Z"] "shop"
  = Return [shopping "2025-01-15T10:00:00.000Z"]
  ∧ ZenFilterManager.applySearch (H:=en_US) (H0:=MiniRegExp.regexp)
      [shopping "2025-01-15T10:00:00.000Z"] "shop"
    = Return [shopping "2025-01-15T10:00:00.000Z"].
Proof.
  assert (ZenFilterManager.applySearch (H:=en_US) (H0:=MiniRegExp.regexp)
            [milk; shopping "2025-01-15T10:00:00.000Z"] "shop"
          = Return [shopping "2025-01-15T10:00:00.000Z"]) as Hfound
    by (vm_compute; reflexivity).
  split; [exact Hfound|].
  exact (applySearch_idempotent (H:=en_US) (H0:=MiniRegExp.regexp) _ _ _ Hfound).
Defined.

Lemma fuzzyMatch_subsequence_witness :
  literal_chains (H:=MiniRegExp.regexp)
  ∧ 3 ≤ String.length "BSB"
  ∧ literal "BSB"
  ∧ ZenFilterManager.fuzzyMatch (H:=MiniRegExp.regexp) "Buy shopping bags" "BSB"
    = Return true
  ∧ ZenFilterManager.fuzzyMatch (H:=MiniRegExp.regexp) "Buy shopping bags" "bg"
    = Return false
  ∧ ZenFilterManager.fuzzyMatch (H:=MiniRegExp.regexp) "learn c++ basics" "c++"
    = Throw SyntaxError.
Proof.
  pose proof MiniRegExp_literal_chains as Hchains.
  assert (3 ≤ String.length "BSB") as Hlen by (simpl; lia).
  assert (literal "BSB") as Hlit by (by repeat constructor).
  split; [exact Hchains|]. split; [exact Hlen|]. split; [exact Hlit|].
  destruct (fuzzyMatch_subsequence (H0:=MiniRegExp.regexp) "Buy shopping bags" "BSB")
    as (_ & _ & Hlong).
  destruct (Hlong Hchains Hlen Hlit) as (accepted & Hf & _ & Hall).
  split.
  - rewrite Hf. f_equal. apply Hall.
    + by repeat constructor.
    + vm_compute. repeat first [apply sublist_skip | apply sublist_cons | apply sublist_nil].
  - split.
    + exact (proj1 (proj1 (fuzzyMatch_subsequence (H0:=MiniRegExp.regexp)
                             "Buy shopping bags" "bg") (le_n 3))).
    + exact (proj1 (proj2 (fuzzyMatch_subsequence (H0:=MiniRegExp.regexp)
                             "learn c++ basics" "c++")) (le_n 3) eq_refl).
Defined.
